(** * Supply-chain notebook (analysis.py): a shallow embedding

    The notebook builds one table [df_all] of 74 synthetic records, exposes
    [get_recent_df] (the last rows of that table) and a slider callback
    [render_analysis] that recomputes summary statistics, a correlation
    matrix and a ranking of the three strongest correlations.

    Numbers are IEEE binary64 values (numpy's float64), embedded as Rocq's
    primitive floats.  Tables are pandas data frames, embedded column-wise.
    Python objects live in a heap indexed by locations, so that views,
    copies and in-place assignments are visible.  The pandas and numpy
    routines the script calls are embedded next to the script's own
    functions, each with a note on the library routine it follows. *)

From Stdlib Require Uint63.
From Stdlib Require Import ZArith Lia List Bool Floats String Ascii Permutation Sorted.
From stdpp Require Import base list strings pretty.

Set Warnings "-inexact-float".

Local Open Scope Z_scope.

(** ** Floating point *)

Module Np.

(** [np.maximum]: [(in1 >= in2 || isnan(in1)) ? in1 : in2]. *)
Definition maximum (x1 x2 : float) : float :=
  if (x2 <=? x1)%float || is_nan x1 then x1 else x2.

(** [np.minimum]: [(in1 <= in2 || isnan(in1)) ? in1 : in2]. *)
Definition minimum (x1 x2 : float) : float :=
  if (x1 <=? x2)%float || is_nan x1 then x1 else x2.

(** The [clip] ufunc on floats: [min(max(x, lo), hi)], where a NaN
    operand [x] is returned as it is and [max]/[min] use [>] and [<]. *)
Definition npy_max (a b : float) : float :=
  if is_nan a then a else if (b <? a)%float then a else b.
Definition npy_min (a b : float) : float :=
  if is_nan a then a else if (a <? b)%float then a else b.
Definition npy_clip (x lo hi : float) : float := npy_min (npy_max x lo) hi.

(** [np.clip(a, a_min, a_max)]: with one bound missing it is [maximum]
    or [minimum]; with both missing it raises. *)
Definition clip (a : list float) (a_min a_max : option float) : option (list float) :=
  match a_min, a_max with
  | None, None => None
  | None, Some hi => Some (map (fun x => minimum x hi) a)
  | Some lo, None => Some (map (fun x => maximum x lo) a)
  | Some lo, Some hi => Some (map (fun x => npy_clip x lo hi) a)
  end.

(** [np.rint]: round to the nearest integer, ties to even.  Below 2^52
    in magnitude, adding and subtracting 2^52 rounds in the addition;
    from 2^52 on every float is an integer.  The sign is kept. *)
Definition two52 : float := 4503599627370496%float.
Definition rint (x : float) : float :=
  if (abs x <? two52)%float
  then let r := ((abs x + two52) - two52)%float in
       if get_sign x then (- r)%float else r
  else x.

(** [np.round(x, decimals)] for [decimals >= 0]:
    [rint(x * 10**decimals) / 10**decimals]. *)
Fixpoint power_of_ten (decimals : nat) : float :=
  match decimals with
  | O => 1%float
  | S d => (power_of_ten d * 10)%float
  end.
Definition round (decimals : nat) (x : float) : float :=
  (rint (x * power_of_ten decimals) / power_of_ten decimals)%float.

(** [np.isfinite]. *)
Definition isfinite (x : float) : bool := is_finite x.

End Np.

(** ** Data frames *)

(** Row and column labels are strings or integers. *)
Inductive label :=
| LStr (s : string)
| LInt (z : Z).

(** A column has one dtype: float64, or object (here: labels). *)
Inductive column :=
| NumCol (v : list float)
| ObjCol (v : list label).

Record DataFrame := mkDF {
  index : list label;
  data : list (label * column)
}.

(** A cell, as a row of [iterrows] or a record holds it. *)
Inductive value :=
| VNum (x : float)
| VObj (l : label).

Definition label_eqb (a b : label) : bool :=
  match a, b with
  | LStr s, LStr t => String.eqb s t
  | LInt x, LInt y => Z.eqb x y
  | _, _ => false
  end.

Definition len (d : DataFrame) : nat := length (index d).

Definition columns (d : DataFrame) : list label := map fst (data d).

Definition col_length (c : column) : nat :=
  match c with
  | NumCol v => length v
  | ObjCol v => length v
  end.

Definition col_cell (c : column) (i : nat) : value :=
  match c with
  | NumCol v => VNum (nth i v nan)
  | ObjCol v => VObj (nth i v (LInt 0))
  end.

(** The records of a frame, first row first; a record lists the cells in
    column order (the index label is not part of the record). *)
Definition record (d : DataFrame) (i : nat) : list value :=
  map (fun kc => col_cell (snd kc) i) (data d).
Definition records (d : DataFrame) : list (list value) :=
  map (record d) (seq 0 (len d)).

(** Every column is as long as the index. *)
Definition well_formed (d : DataFrame) : Prop :=
  Forall (fun kc => col_length (snd kc) = len d) (data d).

(** Rows [lo, hi) of a column and of a frame ([iloc[lo:hi]]). *)
Definition col_rows (lo hi : nat) (c : column) : column :=
  match c with
  | NumCol v => NumCol (take (hi - lo) (drop lo v))
  | ObjCol v => ObjCol (take (hi - lo) (drop lo v))
  end.

Definition iloc_rows (lo hi : nat) (d : DataFrame) : DataFrame :=
  {| index := take (hi - lo) (drop lo (index d));
     data := map (fun kc => (fst kc, col_rows lo hi (snd kc))) (data d) |}.

(** Python's [slice(start, stop).indices(len)] for step 1: a negative
    bound counts from the end, and both are clamped to [0, len]. *)
Definition norm_bound (n i : Z) : Z :=
  if i <? 0 then Z.max 0 (i + n) else Z.min i n.

Definition slice_indices (start stop : option Z) (n : nat) : nat * nat :=
  let lo := match start with None => 0 | Some i => norm_bound (Z.of_nat n) i end in
  let hi := match stop with None => Z.of_nat n | Some i => norm_bound (Z.of_nat n) i end in
  (Z.to_nat lo, Z.to_nat (Z.max lo hi)).

(** [DataFrame.tail(n)]: [iloc[0:0]] when [n == 0], else [iloc[-n:]]. *)
Definition tail_window (n : Z) (size : nat) : nat * nat :=
  if n =? 0 then slice_indices (Some 0) (Some 0) size
  else slice_indices (Some (- n)) None size.

(** [DataFrame.head(n)]: [iloc[:n]]. *)
Definition head_window (n : Z) (size : nat) : nat * nat :=
  slice_indices None (Some n) size.

(** A fresh [RangeIndex]. *)
Definition range_index (n : nat) : list label :=
  map (fun i => LInt (Z.of_nat i)) (seq 0 n).

Definition reset_index_drop (d : DataFrame) : DataFrame :=
  {| index := range_index (len d); data := data d |}.

(** ** pandas routines on frames *)

Definition float_of_Z (z : Z) : float := of_uint63 (Uint63.of_Z z).
Definition float_of_nat (n : nat) : float := float_of_Z (Z.of_nat n).

(** The float64 columns, in column order. *)
Definition numeric_data (d : DataFrame) : list (label * list float) :=
  flat_map (fun kc => match snd kc with
                      | NumCol v => [(fst kc, v)]
                      | ObjCol _ => []
                      end) (data d).

Fixpoint position (l : label) (ls : list label) : option nat :=
  match ls with
  | [] => None
  | x :: rest => if label_eqb l x then Some O else option_map S (position l rest)
  end.

(** [d[name]]: the values of a column, or a [KeyError]. *)
Fixpoint lookup_column (name : label) (cols : list (label * column)) : option column :=
  match cols with
  | [] => None
  | kc :: rest => if label_eqb name (fst kc) then Some (snd kc) else lookup_column name rest
  end.

Definition getitem (name : label) (d : DataFrame) : option column :=
  lookup_column name (data d).

Definition getitem_num (name : label) (d : DataFrame) : option (list float) :=
  match getitem name d with
  | Some (NumCol v) => Some v
  | _ => None
  end.

(** [d.loc[r, c]]: one cell by row and column label. *)
Definition loc_cell (r c : label) (d : DataFrame) : option value :=
  match position r (index d), getitem c d with
  | Some i, Some col => if (i <? col_length col)%nat then Some (col_cell col i) else None
  | _, _ => None
  end.

(** *** describe *)

Module Describe.

(** [np.add.reduce] over a float column, by numpy's pairwise summation:
    fewer than 8 values are added left to right; up to 128 values go,
    eight by eight, into eight running sums, which are added as a tree
    before the remaining values; a longer column is split in two, the
    first part a multiple of 8 long.  Sums start from [-0.0]; the sum of
    no value is [0.0]. *)
Definition add_seq (acc : float) (v : list float) : float := fold_left PrimFloat.add v acc.

Fixpoint add_each (r v : list float) : list float :=
  match r, v with
  | x :: r', y :: v' => (x + y)%float :: add_each r' v'
  | _, _ => r
  end.

Fixpoint add_blocks (blocks : nat) (r v : list float) : list float * list float :=
  match blocks with
  | O => (r, v)
  | S k => add_blocks k (add_each r (take 8 v)) (drop 8 v)
  end.

Definition add_tree (r : list float) : float :=
  match r with
  | [r0; r1; r2; r3; r4; r5; r6; r7] =>
      (((r0 + r1) + (r2 + r3)) + ((r4 + r5) + (r6 + r7)))%float
  | _ => nan
  end.

Definition sum_unrolled (v : list float) : float :=
  let (r, rest) := add_blocks (length v / 8 - 1) (take 8 v) (drop 8 v) in
  add_seq (add_tree r) rest.

Fixpoint pairwise_sum (depth : nat) (v : list float) : float :=
  let n := length v in
  if (n <? 8)%nat then add_seq (-0)%float v
  else if (n <=? 128)%nat then sum_unrolled v
  else match depth with
       | O => nan
       | S k =>
           let n2 := (n / 2 - (n / 2) mod 8)%nat in
           (pairwise_sum k (take n2 v) + pairwise_sum k (drop n2 v))%float
       end.

Definition sum (v : list float) : float :=
  match v with
  | [] => 0%float
  | _ => (-0 + pairwise_sum (length v) v)%float
  end.

(** [nanmean] on a column without missing values: [sum / count]. *)
Definition mean (v : list float) : float :=
  match v with
  | [] => nan
  | _ => (sum v / float_of_nat (length v))%float
  end.

(** [nanstd] with [ddof = 1]: the square root of
    [sum((avg - x)**2) / (count - 1)]; NaN when [count <= 1]. *)
Definition var (v : list float) : float :=
  if (length v <=? 1)%nat then nan
  else let avg := mean v in
       (sum (map (fun x => (avg - x) * (avg - x))%float v)
        / float_of_Z (Z.of_nat (length v) - 1))%float.
Definition std (v : list float) : float := PrimFloat.sqrt (var v).

Definition min (v : list float) : float :=
  match v with
  | [] => nan
  | x :: rest => fold_left Np.minimum rest x
  end.
Definition max (v : list float) : float :=
  match v with
  | [] => nan
  | x :: rest => fold_left Np.maximum rest x
  end.

(** Ascending sort of the values (insertion, with [<]). *)
Fixpoint insert (x : float) (l : list float) : list float :=
  match l with
  | [] => [x]
  | y :: rest => if (x <? y)%float then x :: l else y :: insert x rest
  end.
Definition sort (v : list float) : list float := fold_right insert [] v.

(** numpy's linear interpolation between neighbours. *)
Definition lerp (a b t : float) : float :=
  if (0.5 <=? t)%float then (b - (b - a) * (1 - t))%float
  else (a + (b - a) * t)%float.

(** The quartile [k/4] ([np.percentile], linear method): the virtual
    index is [k * (n - 1) / 4], split in its integer and fractional part. *)
Definition quartile (k : Z) (v : list float) : float :=
  match v with
  | [] => nan
  | _ =>
      let s := sort v in
      let pos := k * (Z.of_nat (length v) - 1) in
      let lo := Z.to_nat (pos / 4) in
      let t := (float_of_Z (pos mod 4) / 4)%float in
      lerp (nth lo s nan) (nth (Nat.min (S lo) (length v - 1)) s nan) t
  end.

Definition index : list label :=
  [LStr "count"; LStr "mean"; LStr "std"; LStr "min";
   LStr "25%"; LStr "50%"; LStr "75%"; LStr "max"].

Definition stats (v : list float) : list float :=
  [float_of_nat (length v); mean v; std v; min v;
   quartile 1 v; quartile 2 v; quartile 3 v; max v].

End Describe.

(** [DataFrame.describe()]: the eight statistics of every float column. *)
Definition describe (d : DataFrame) : DataFrame :=
  {| index := Describe.index;
     data := map (fun kv => (fst kv, NumCol (Describe.stats (snd kv)))) (numeric_data d) |}.

(** [d.loc[[labels]]]: the rows with these labels, in the order asked. *)
Definition col_take (positions : list nat) (c : column) : column :=
  match c with
  | NumCol v => NumCol (map (fun i => nth i v nan) positions)
  | ObjCol v => ObjCol (map (fun i => nth i v (LInt 0)) positions)
  end.

Definition take_rows (positions : list nat) (d : DataFrame) : DataFrame :=
  {| index := map (fun i => nth i (index d) (LInt 0)) positions;
     data := map (fun kc => (fst kc, col_take positions (snd kc))) (data d) |}.

Fixpoint positions_of (labels : list label) (ix : list label) : option (list nat) :=
  match labels with
  | [] => Some []
  | l :: rest =>
      match position l ix, positions_of rest ix with
      | Some i, Some r => Some (i :: r)
      | _, _ => None
      end
  end.

Definition loc_rows (labels : list label) (d : DataFrame) : option DataFrame :=
  match positions_of labels (index d) with
  | Some ps => Some (take_rows ps d)
  | None => None
  end.

(** [d.T] of a frame of float columns: rows become columns. *)
Definition transpose (d : DataFrame) : DataFrame :=
  {| index := columns d;
     data := map (fun il => (snd il, NumCol (map (fun kv => nth (fst il) (snd kv) nan) (numeric_data d))))
                 (combine (seq 0 (len d)) (index d)) |}.

(** [d.round(decimals)]: float columns are rounded, others kept. *)
Definition col_round (decimals : nat) (c : column) : column :=
  match c with
  | NumCol v => NumCol (map (Np.round decimals) v)
  | ObjCol v => ObjCol v
  end.

Definition round (decimals : nat) (d : DataFrame) : DataFrame :=
  {| index := index d;
     data := map (fun kc => (fst kc, col_round decimals (snd kc))) (data d) |}.

(** *** corr *)

Module Corr.

(** The accumulators of pandas' [nancorr] loop (Welford's method). *)
Record acc := mkAcc {
  nobs : Z;
  meanx : float; meany : float;
  ssqdm_x : float; ssqdm_y : float;
  covxy : float
}.

Definition init : acc := mkAcc 0 0 0 0 0 0.

(** One row: skipped unless both values are finite. *)
Definition step (a : acc) (v : float * float) : acc :=
  let (vx, vy) := v in
  if Np.isfinite vx && Np.isfinite vy then
    let nobs' := nobs a + 1 in
    let dx := (vx - meanx a)%float in
    let dy := (vy - meany a)%float in
    let meanx' := (meanx a + 1 / float_of_Z nobs' * dx)%float in
    let meany' := (meany a + 1 / float_of_Z nobs' * dy)%float in
    mkAcc nobs' meanx' meany'
          (ssqdm_x a + (vx - meanx') * dx)%float
          (ssqdm_y a + (vy - meany') * dy)%float
          (covxy a + (vx - meanx') * dy)%float
  else a.

Definition loop (x y : list float) : acc := fold_left step (combine x y) init.

Definition minp : Z := 1.

(** The quotient is kept within [-1, 1]. *)
Definition clip_unit (val : float) : float :=
  if (1 <? val)%float then 1%float
  else if (val <? -1)%float then (-1)%float
  else val.

(** The coefficient of two columns: NaN below [minp] observations and
    when the divisor is zero. *)
Definition coefficient (x y : list float) : float :=
  let a := loop x y in
  if nobs a <? minp then nan
  else let divisor := PrimFloat.sqrt (ssqdm_x a * ssqdm_y a) in
       if negb (divisor =? 0)%float then clip_unit (covxy a / divisor) else nan.

(** [result[xi, yi] = result[yi, xi]] is computed once, for [yi <= xi],
    with the column of the larger position as [x]. *)
Definition entry (cols : list (list float)) (i j : nat) : float :=
  coefficient (nth (Nat.max i j) cols []) (nth (Nat.min i j) cols []).

Definition matrix (cols : list (list float)) : list (list float) :=
  map (fun j => map (fun i => entry cols i j) (seq 0 (length cols))) (seq 0 (length cols)).

End Corr.

(** [DataFrame.corr()] (Pearson, [min_periods = 1]) over the float
    columns; the result is indexed by their labels on both axes.  The
    frames of the program hold float columns only; on a frame with a
    column of another dtype pandas raises, which is not modelled. *)
Definition corr (d : DataFrame) : DataFrame :=
  let nd := numeric_data d in
  {| index := map fst nd;
     data := combine (map fst nd) (map NumCol (Corr.matrix (map snd nd))) |}.

(** *** unstack and reset_index *)

(** A series of floats under a two-level index. *)
Record Series := mkSeries {
  s_index : list (label * label);
  s_values : list float
}.

(** [d.unstack()]: column by column, the outer level is the column
    label and the inner level the row label. *)
Definition unstack (d : DataFrame) : Series :=
  {| s_index := flat_map (fun kv => map (fun r => (fst kv, r)) (index d)) (numeric_data d);
     s_values := flat_map snd (numeric_data d) |}.

(** [s.reset_index()]: the levels become the columns [level_0] and
    [level_1], the values the column [0]. *)
Definition series_reset_index (s : Series) : DataFrame :=
  {| index := range_index (length (s_values s));
     data := [(LStr "level_0", ObjCol (map fst (s_index s)));
              (LStr "level_1", ObjCol (map snd (s_index s)));
              (LInt 0, NumCol (s_values s))] |}.

(** [d.columns = names]: the lengths must agree. *)
Definition set_columns (names : list label) (d : DataFrame) : option DataFrame :=
  if (length names =? length (data d))%nat
  then Some {| index := index d; data := combine names (map snd (data d)) |}
  else None.

(** *** comparisons, masks, assignment *)

(** Python's [<] on two labels: strings by code point, integers by
    value, a [TypeError] across the two. *)
Definition label_ltb (a b : label) : option bool :=
  match a, b with
  | LStr s, LStr t => Some (String.ltb s t)
  | LInt x, LInt y => Some (x <? y)
  | _, _ => None
  end.

Fixpoint lt_labels (a b : list label) : option (list bool) :=
  match a, b with
  | x :: a', y :: b' =>
      match label_ltb x y, lt_labels a' b' with
      | Some r, Some rest => Some (r :: rest)
      | _, _ => None
      end
  | _, _ => Some []
  end.

(** [a < b] on two columns of one frame. *)
Definition lt_columns (a b : column) : option (list bool) :=
  match a, b with
  | ObjCol x, ObjCol y => lt_labels x y
  | NumCol x, NumCol y => Some (map (fun p => (fst p <? snd p)%float) (combine x y))
  | _, _ => None
  end.

Fixpoint mask_positions (mask : list bool) (i : nat) : list nat :=
  match mask with
  | [] => []
  | b :: rest => if b then i :: mask_positions rest (S i) else mask_positions rest (S i)
  end.

(** [d[mask]]: the rows where the mask holds, with their labels. *)
Definition getitem_mask (mask : list bool) (d : DataFrame) : DataFrame :=
  take_rows (mask_positions mask 0) d.

(** [d[name] = values]: replaces the column or appends it. *)
Fixpoint assign_column (name : label) (c : column) (cols : list (label * column))
  : list (label * column) :=
  match cols with
  | [] => [(name, c)]
  | kc :: rest =>
      if label_eqb name (fst kc) then (name, c) :: rest
      else kc :: assign_column name c rest
  end.

Definition setitem (name : label) (c : column) (d : DataFrame) : option DataFrame :=
  if (col_length c =? len d)%nat
  then Some {| index := index d; data := assign_column name c (data d) |}
  else None.

(** *** sort_values *)

Module Sort.

(** numpy's order on floats: NaN is larger than every number. *)
Definition less (a b : float) : bool :=
  (a <? b)%float || (is_nan b && negb (is_nan a)).

(** One pass of the insertion loop of [argsort]: the position [vi] moves
    left past every position whose value is larger.  The sorted prefix is
    held last element first. *)
Fixpoint insert (v : list float) (vi : nat) (prefix : list nat) : list nat :=
  match prefix with
  | [] => [vi]
  | k :: rest =>
      if less (nth vi v nan) (nth k v nan) then k :: insert v vi rest
      else vi :: prefix
  end.

(** [np.argsort(v, kind='quicksort')] for at most 16 elements, where
    numpy's scalar quicksort is this insertion sort alone.  The order it
    gives to equal values is that of this path only: the sort is not
    stable, and numpy's vectorised paths order equal values otherwise.
    The theorems on the ranking hold whatever the order of equal values;
    the examples on tables with ties follow this path. *)
Definition argsort (v : list float) : list nat :=
  rev (fold_left (fun prefix vi => insert v vi prefix) (seq 0 (length v)) []).

(** pandas' [nargsort] with [na_position='last']: the missing values
    are set aside and appended; for a descending order the others are
    reversed before and after the ascending [argsort]. *)
Definition nargsort (items : list float) (ascending : bool) : list nat :=
  let idx := seq 0 (length items) in
  let keep := fun i => negb (is_nan (nth i items nan)) in
  let non_nan_idx := List.filter keep idx in
  let nan_idx := List.filter (fun i => negb (keep i)) idx in
  let non_nan_idx := if ascending then non_nan_idx else rev non_nan_idx in
  let non_nans := map (fun i => nth i items nan) non_nan_idx in
  let indexer := map (fun k => nth k non_nan_idx O) (argsort non_nans) in
  let indexer := if ascending then indexer else rev indexer in
  indexer ++ nan_idx.

End Sort.

(** [d.sort_values(by, ascending=...)] on one float column. *)
Definition sort_values (by_ : label) (ascending : bool) (d : DataFrame) : option DataFrame :=
  match getitem_num by_ d with
  | Some items => Some (take_rows (Sort.nargsort items ascending) d)
  | None => None
  end.

(** *** iterrows *)

Definition row := list (label * value).

Definition iterrows (d : DataFrame) : list (label * row) :=
  map (fun il => (snd il, map (fun kc => (fst kc, col_cell (snd kc) (fst il))) (data d)))
      (combine (seq 0 (len d)) (index d)).

Fixpoint row_get (name : label) (r : row) : option value :=
  match r with
  | [] => None
  | kv :: rest => if label_eqb name (fst kv) then Some (snd kv) else row_get name rest
  end.

(** ** The object heap *)

Definition loc := nat.

(** A frame object owns its data, or is a view of rows [lo, hi) of the
    data another object owns: reads and cell writes go to that object. *)
Inductive object :=
| Own (d : DataFrame)
| View (base : loc) (lo hi : nat).

Definition resolve (h : list object) (l : loc) : option DataFrame :=
  match h !! l with
  | Some (Own d) => Some d
  | Some (View b lo hi) =>
      match h !! b with
      | Some (Own d) => Some (iloc_rows lo hi d)
      | _ => None
      end
  | None => None
  end.

(** ** What the notebook shows *)

(** Formatted text is kept as a sequence of pieces: literal text, and the
    floats an f-string interpolates (left to Python's [str]). *)
Inductive piece :=
| Text (s : string)
| Float (x : float).

Inductive output :=
| Markdown (md : list piece)
| Table (d : DataFrame)
| Heatmap (title : list piece) (d : DataFrame) (vmin vmax : float).

(** ** Process state and the monad of statements *)

Section Notebook.

(** The pseudo-random generator behind [np.random] is a collaborator of
    the script: a state type, the state a seed yields, and one standard
    normal draw ([legacy_gauss]) that advances the state. *)
Context {rng_state : Type}.
Variable init_by_seed : Z -> rng_state.
Variable legacy_gauss : rng_state -> float * rng_state.

Record state := mkState {
  rng : rng_state;            (* numpy's global generator *)
  heap : list object;         (* every object created so far *)
  df_all : option loc;        (* the module-level name [df_all] *)
  console : list output       (* the output area, oldest first *)
}.

(** A statement maps a state to a result and a new state, or raises. *)
Definition M (A : Type) : Type := state -> option (A * state).

#[global] Instance M_ret : MRet M := fun A x σ => Some (x, σ).
#[global] Instance M_bind : MBind M := fun A B f m σ =>
  match m σ with
  | Some (x, σ') => f x σ'
  | None => None
  end.

Definition raise {A} : M A := fun _ => None.

Definition lift {A} (o : option A) : M A :=
  match o with
  | Some x => mret x
  | None => raise
  end.

Definition get_heap : M (list object) := fun σ => Some (heap σ, σ).

Definition set_heap (h : list object) (σ : state) : state :=
  {| rng := rng σ; heap := h; df_all := df_all σ; console := console σ |}.

(** A new object gets the next location. *)
Definition alloc (o : object) : M loc := fun σ =>
  Some (length (heap σ), set_heap (heap σ ++ [o]) σ).

(** The frame an object stands for. *)
Definition read (l : loc) : M DataFrame := fun σ =>
  match resolve (heap σ) l with
  | Some d => Some (d, σ)
  | None => None
  end.

(** Replace the frame an object owns; a view becomes an owner of the
    given frame (pandas copies a sliced frame when it is restructured). *)
Definition overwrite (l : loc) (d : DataFrame) : M unit := fun σ =>
  match heap σ !! l with
  | Some _ => Some (tt, set_heap (<[l := Own d]> (heap σ)) σ)
  | None => None
  end.

(** The name [df_all]; unbound before the first cell ran. *)
Definition global_df_all : M loc := fun σ =>
  match df_all σ with
  | Some l => Some (l, σ)
  | None => None
  end.

Definition bind_df_all (l : loc) : M unit := fun σ =>
  Some (tt, {| rng := rng σ; heap := heap σ; df_all := Some l; console := console σ |}).

Definition display (o : output) : M unit := fun σ =>
  Some (tt, {| rng := rng σ; heap := heap σ; df_all := df_all σ;
               console := console σ ++ [o] |}).

(** [clear_output(wait=True)]: the next output replaces what is shown. *)
Definition clear_output : M unit := fun σ =>
  Some (tt, {| rng := rng σ; heap := heap σ; df_all := df_all σ; console := [] |}).

(** *** numpy's global generator *)

Definition np_random_seed (seed : Z) : M unit := fun σ =>
  Some (tt, {| rng := init_by_seed seed; heap := heap σ; df_all := df_all σ;
               console := console σ |}).

(** [size] draws of [loc + scale * gauss], in order. *)
Fixpoint normal (mu scale : float) (size : nat) (s : rng_state) : list float * rng_state :=
  match size with
  | O => ([], s)
  | S k =>
      let (g, s1) := legacy_gauss s in
      let (rest, s2) := normal mu scale k s1 in
      ((mu + scale * g)%float :: rest, s2)
  end.

Definition np_random_normal (mu scale : float) (size : nat) : M (list float) := fun σ =>
  let (xs, s') := normal mu scale size (rng σ) in
  Some (xs, {| rng := s'; heap := heap σ; df_all := df_all σ; console := console σ |}).

(** *** pandas objects *)

(** A view of rows [lo, hi) of [self]; a view of a view is a view of
    the owner. *)
Definition make_view (self : loc) (lo hi : nat) : M loc :=
  h ← get_heap;
  match h !! self with
  | Some (Own _) => alloc (View self lo hi)
  | Some (View b lo0 hi0) => alloc (View b (lo0 + lo) (Nat.min hi0 (lo0 + hi)))
  | None => raise
  end.

Definition df_tail (self : loc) (n : Z) : M loc :=
  d ← read self;
  let w := tail_window n (len d) in
  make_view self (fst w) (snd w).

Definition df_head (self : loc) (n : Z) : M loc :=
  d ← read self;
  let w := head_window n (len d) in
  make_view self (fst w) (snd w).

(** [reset_index(drop=True)]: a new frame with a copy of the data. *)
Definition df_reset_index_drop (self : loc) : M loc :=
  d ← read self;
  alloc (Own (reset_index_drop d)).

(** [copy()]. *)
Definition df_copy (self : loc) : M loc :=
  d ← read self;
  alloc (Own d).

(** [pd.DataFrame(dict of arrays)]: the arrays must agree in length. *)
Definition all_same_length (cols : list (string * list float)) : bool :=
  match cols with
  | [] => true
  | c :: _ => forallb (fun kc => Nat.eqb (length (snd kc)) (length (snd c))) cols
  end.

Definition pd_DataFrame (cols : list (string * list float)) : M loc :=
  if all_same_length cols
  then alloc (Own {| index := range_index (match cols with [] => 0%nat | c :: _ => length (snd c) end);
                     data := map (fun kc => (LStr (fst kc), NumCol (snd kc))) cols |})
  else raise.

(** ** CELL 1: the dataset and [get_recent_df] *)

Definition RND : Z := 42.
Definition n_rows : nat := 74.

Definition cell1 : M unit :=
  _ ← np_random_seed RND;
  x1 ← np_random_normal 12 5 n_rows;
  c1 ← lift (Np.clip x1 (Some 1%float) None);
  x2 ← np_random_normal 300 90 n_rows;
  c2 ← lift (Np.clip x2 (Some 0%float) None);
  x3 ← np_random_normal 6 2.5 n_rows;
  c3 ← lift (Np.clip x3 (Some 0.5%float) None);
  x4 ← np_random_normal 85 8 n_rows;
  c4 ← lift (Np.clip x4 (Some 40%float) (Some 100%float));
  x5 ← np_random_normal 28 7 n_rows;
  c5 ← lift (Np.clip x5 (Some 1%float) None);
  l ← pd_DataFrame [("Supplier_Lead_Time", c1); ("Inventory_Levels", c2);
                    ("Order_Frequency", c3); ("Delivery_Performance", c4);
                    ("Cost_Per_Unit", c5)];
  _ ← bind_df_all l;
  _ ← df_head l 5;
  mret tt.

(** [int(n)] of an integer. *)
Definition int (n : Z) : Z := n.

Definition get_recent_df (n_rows_to_use : Z) : M loc :=
  let n_rows_to_use := if n_rows_to_use <? 2 then 2 else n_rows_to_use in
  l ← global_df_all;
  t ← df_tail l (int n_rows_to_use);
  df_reset_index_drop t.

(** *** pandas methods on objects *)

(** A method that builds a new frame from the frame of [self]. *)
Definition method (f : DataFrame -> option DataFrame) (self : loc) : M loc :=
  d ← read self;
  d' ← lift (f d);
  alloc (Own d').

Definition df_describe : loc -> M loc := method (fun d => Some (describe d)).
Definition df_loc_rows (labels : list label) : loc -> M loc := method (loc_rows labels).
Definition df_T : loc -> M loc := method (fun d => Some (transpose d)).
Definition df_round (decimals : nat) : loc -> M loc := method (fun d => Some (round decimals d)).
Definition df_corr : loc -> M loc := method (fun d => Some (corr d)).

(** [self.unstack().reset_index()]; the series in between is not kept. *)
Definition df_unstack_reset_index : loc -> M loc :=
  method (fun d => Some (series_reset_index (unstack d))).

Definition df_sort_values (by_ : label) (ascending : bool) : loc -> M loc :=
  method (sort_values by_ ascending).

(** [self[mask]]: a new frame; the mask must cover the rows. *)
Definition df_getitem_mask (mask : list bool) : loc -> M loc :=
  method (fun d => if (length mask =? len d)%nat then Some (getitem_mask mask d) else None).

Definition df_getitem (name : label) (self : loc) : M column :=
  d ← read self;
  lift (getitem name d).

Definition df_loc_cell (r c : label) (self : loc) : M value :=
  d ← read self;
  lift (loc_cell r c d).

Definition df_iterrows (self : loc) : M (list (label * row)) :=
  d ← read self;
  mret (iterrows d).

(** [self.columns = names], in place. *)
Definition df_assign_columns (names : list label) (self : loc) : M unit :=
  d ← read self;
  d' ← lift (set_columns names d);
  overwrite self d'.

(** [self[name] = values], in place. *)
Definition df_setitem (name : label) (c : column) (self : loc) : M unit :=
  d ← read self;
  d' ← lift (setitem name c d);
  overwrite self d'.

(** [self.iloc[i, name] = x], in place: through a view the write lands
    in the object that owns the data. *)
Definition col_set (i : nat) (x : float) (c : column) : column :=
  match c with
  | NumCol v => NumCol (<[i := x]> v)
  | ObjCol v => ObjCol v
  end.

Definition set_cell (i : nat) (name : label) (x : float) (d : DataFrame) : DataFrame :=
  {| index := index d;
     data := map (fun kc => if label_eqb name (fst kc) then (fst kc, col_set i x (snd kc)) else kc)
                 (data d) |}.

Definition df_set_cell (i : nat) (name : label) (x : float) (self : loc) : M unit :=
  h ← get_heap;
  match h !! self with
  | Some (Own d) => overwrite self (set_cell i name x d)
  | Some (View b lo hi) =>
      match h !! b with
      | Some (Own d) =>
          if (i <? hi - lo)%nat then overwrite b (set_cell (lo + i) name x d) else raise
      | _ => raise
      end
  | None => raise
  end.

(** [Series.abs()]. *)
Definition series_abs (c : column) : M column :=
  match c with
  | NumCol v => mret (NumCol (map abs v))
  | ObjCol _ => raise
  end.

(** ** CELL 2: the slider callback *)

Definition nl : string := String "010" EmptyString.
Definition emdash : string := String "226" (String "128" (String "148" EmptyString)).

(** [str(x)] inside an f-string. *)
Definition str_int (n : Z) : piece := Text (pretty n).
Definition str_value (v : value) : piece :=
  match v with
  | VNum x => Float x
  | VObj (LStr s) => Text s
  | VObj (LInt z) => str_int z
  end.

(** The heading of the narrative, up to the list of top correlations. *)
Definition narrative (n_rows_selected : Z) (lead inventory delivery : value) : list piece :=
  [Text (nl +:+ "### Interactive analysis (using last **"); str_int n_rows_selected;
   Text ("** rows)" +:+ nl +:+ nl +:+ "**Observations (dynamically computed):**" +:+ nl
         +:+ "- Mean Supplier Lead Time: **");
   str_value lead;
   Text ("** days  " +:+ nl +:+ "- Mean Inventory Level: **");
   str_value inventory;
   Text ("** units  " +:+ nl +:+ "- Delivery Performance (mean): **");
   str_value delivery;
   Text ("** %" +:+ nl +:+ nl +:+ "**Top correlations (absolute value):**" +:+ nl)].

(** One line of the list, for one row of [top_pairs]. *)
Definition pair_line (r : row) : option (list piece) :=
  match row_get (LStr "var1") r, row_get (LStr "var2") r, row_get (LStr "corr") r with
  | Some a, Some b, Some c =>
      Some [Text "- **"; str_value a; Text "** vs **"; str_value b;
            Text "**: correlation = **"; str_value c; Text ("**  " +:+ nl)]
  | _, _, _ => None
  end.

Fixpoint pair_lines (md : list piece) (rows : list (label * row)) : option (list piece) :=
  match rows with
  | [] => Some md
  | r :: rest =>
      match pair_line (snd r) with
      | Some line => pair_lines (md ++ line) rest
      | None => None
      end
  end.

Definition heatmap_title (n_rows_selected : Z) : list piece :=
  [Text ("Correlation Heatmap " +:+ emdash +:+ " last "); str_int n_rows_selected; Text " rows"].

Definition render_analysis (n_rows_selected : Z) : M unit :=
  (* the subset *)
  current_df ← get_recent_df n_rows_selected;
  (* summary = current_df.describe().loc[[...]].T.round(2) *)
  t ← df_describe current_df;
  t ← df_loc_rows [LStr "mean"; LStr "std"; LStr "min"; LStr "50%"; LStr "max"] t;
  t ← df_T t;
  summary ← df_round 2 t;
  (* corr = current_df.corr().round(3) *)
  t ← df_corr current_df;
  corr ← df_round 3 t;
  _ ← clear_output;
  lead ← df_loc_cell (LStr "Supplier_Lead_Time") (LStr "mean") summary;
  inventory ← df_loc_cell (LStr "Inventory_Levels") (LStr "mean") summary;
  delivery ← df_loc_cell (LStr "Delivery_Performance") (LStr "mean") summary;
  let md := narrative n_rows_selected lead inventory delivery in
  (* the top pairs *)
  corr_unstack ← df_unstack_reset_index corr;
  _ ← df_assign_columns [LStr "var1"; LStr "var2"; LStr "corr"] corr_unstack;
  var1 ← df_getitem (LStr "var1") corr_unstack;
  var2 ← df_getitem (LStr "var2") corr_unstack;
  mask ← lift (lt_columns var1 var2);
  t ← df_getitem_mask mask corr_unstack;
  corr_pairs ← df_copy t;
  c ← df_getitem (LStr "corr") corr_pairs;
  a ← series_abs c;
  _ ← df_setitem (LStr "abs_corr") a corr_pairs;
  t ← df_sort_values (LStr "abs_corr") false corr_pairs;
  top_pairs ← df_head t 3;
  rows ← df_iterrows top_pairs;
  md ← lift (pair_lines md rows);
  (* what is shown *)
  _ ← display (Markdown md);
  _ ← display (Markdown [Text "**Correlation matrix:**"]);
  shown ← read corr;
  _ ← display (Table shown);
  _ ← display (Heatmap (heatmap_title n_rows_selected) shown (-1) 1);
  _ ← display (Markdown [Text "**Summary statistics (selected subset):**"]);
  shown ← read summary;
  display (Table shown).

(** The slider: from 5 to the size of the table, 20 at the start.  The
    widget validates its bounds: a maximum below the minimum raises, and
    the value is capped at the maximum. *)
Record IntSlider := mkSlider {
  slider_value : Z;
  slider_min : Z;
  slider_max : Z;
  slider_step : Z
}.

Definition make_slider : M IntSlider :=
  l ← global_df_all;
  d ← read l;
  let max := Z.of_nat (len d) in
  if max <? 5 then raise
  else mret (mkSlider (Z.min 20 max) 5 max 1).

(** [interactive_output] calls the callback with the slider's value. *)
Definition cell2 : M IntSlider :=
  slider ← make_slider;
  _ ← render_analysis (slider_value slider);
  mret slider.

End Notebook.

(** ** The pipeline as functions of the table

    The frames [render_analysis] computes, as functions of the frame
    [df_all] stands for; [render_analysis_run] below shows that the
    callback computes exactly these. *)

Module Pipeline.

(** [current_df]: the frame [get_recent_df] returns. *)
Definition subset (N : Z) (d : DataFrame) : DataFrame :=
  let n := if N <? 2 then 2 else N in
  let lo := (len d - Z.to_nat (Z.min n (Z.of_nat (len d))))%nat in
  reset_index_drop (iloc_rows lo (len d) d).

(** [summary]. *)
Definition summary (current_df : DataFrame) : option DataFrame :=
  t ← loc_rows [LStr "mean"; LStr "std"; LStr "min"; LStr "50%"; LStr "max"]
               (describe current_df);
  Some (round 2 (transpose t)).

(** [corr], as displayed and as ranked. *)
Definition correlation (current_df : DataFrame) : DataFrame :=
  round 3 (corr current_df).

(** [corr_unstack], after its columns are renamed. *)
Definition unstacked (c : DataFrame) : option DataFrame :=
  set_columns [LStr "var1"; LStr "var2"; LStr "corr"] (series_reset_index (unstack c)).

(** [corr_pairs], with its column [abs_corr]. *)
Definition pairs (corr_unstack : DataFrame) : option DataFrame :=
  var1 ← getitem (LStr "var1") corr_unstack;
  var2 ← getitem (LStr "var2") corr_unstack;
  mask ← lt_columns var1 var2;
  if (length mask =? len corr_unstack)%nat then
    let corr_pairs := getitem_mask mask corr_unstack in
    c ← getitem (LStr "corr") corr_pairs;
    match c with
    | NumCol v => setitem (LStr "abs_corr") (NumCol (map abs v)) corr_pairs
    | ObjCol _ => None
    end
  else None.

(** [top_pairs]. *)
Definition ranked (corr_pairs : DataFrame) : option DataFrame :=
  s ← sort_values (LStr "abs_corr") false corr_pairs;
  let w := head_window 3 (len s) in
  Some (iloc_rows (fst w) (snd w) s).

Definition top_pairs (c : DataFrame) : option DataFrame :=
  u ← unstacked c;
  p ← pairs u;
  ranked p.

(** The markdown text. *)
Definition markdown (N : Z) (summary top : DataFrame) : option (list piece) :=
  lead ← loc_cell (LStr "Supplier_Lead_Time") (LStr "mean") summary;
  inventory ← loc_cell (LStr "Inventory_Levels") (LStr "mean") summary;
  delivery ← loc_cell (LStr "Delivery_Performance") (LStr "mean") summary;
  pair_lines (narrative N lead inventory delivery) (iterrows top).

(** Everything shown, given the rounded summary and the rounded
    correlation matrix. *)
Definition shown (N : Z) (summary c : DataFrame) : option (list output) :=
  top ← top_pairs c;
  md ← markdown N summary top;
  Some [Markdown md;
        Markdown [Text "**Correlation matrix:**"];
        Table c;
        Heatmap (heatmap_title N) c (-1) 1;
        Markdown [Text "**Summary statistics (selected subset):**"];
        Table summary].

Definition outputs (N : Z) (d : DataFrame) : option (list output) :=
  s ← summary (subset N d);
  shown N s (correlation (subset N d)).

End Pipeline.

(** The ranked pairs of a frame with the columns [var1], [var2] and
    [corr], as triples. *)
Fixpoint zip3 (a b : list label) (c : list float) : list (label * label * float) :=
  match a, b, c with
  | x :: a', y :: b', z :: c' => (x, y, z) :: zip3 a' b' c'
  | _, _, _ => []
  end.

Definition triples (d : DataFrame) : list (label * label * float) :=
  match getitem (LStr "var1") d, getitem (LStr "var2") d, getitem (LStr "corr") d with
  | Some (ObjCol a), Some (ObjCol b), Some (NumCol c) => zip3 a b c
  | _, _, _ => []
  end.

(** ** Orders of a ranking *)

(** Position [i] comes before position [j] when the values [v] are put
    in ascending order and equal values keep their order. *)
Definition asc_before (v : list float) (i j : nat) : Prop :=
  Sort.less (nth i v nan) (nth j v nan) = true \/
  (Sort.less (nth j v nan) (nth i v nan) = false /\ (i < j)%nat).

(** Position [i] comes before position [j] in the descending order of
    [sort_values(ascending=False)]: larger values first, equal values in
    their original order (as the scalar sort leaves them), missing values
    last in their original order. *)
Definition desc_before (items : list float) (i j : nat) : Prop :=
  let x := nth i items nan in
  let y := nth j items nan in
  if is_nan x then is_nan y = true /\ (i < j)%nat
  else is_nan y = true \/ (y <? x)%float = true \/
       ((x =? y)%float = true /\ (i < j)%nat).

(** ** The ranking, as a specification of [top_pairs] *)

Definition triple : Type := label * label * float.

Definition no_triple : triple := (LInt 0, LInt 0, nan).

(** The entries of a square frame in the order of [unstack]: column by
    column, as (column label, row label, value). *)
Definition entries (c : DataFrame) : list triple :=
  zip3 (map fst (s_index (unstack c))) (map snd (s_index (unstack c)))
       (s_values (unstack c)).

(** The entries kept by [var1 < var2]. *)
Definition is_candidate (t : triple) : bool :=
  match label_ltb t.1.1 t.1.2 with
  | Some true => true
  | _ => false
  end.

Definition candidates (c : DataFrame) : list triple :=
  List.filter is_candidate (entries c).

Definition abs_corr (t : triple) : float := abs t.2.

(** The candidates in the order of [sort_values('abs_corr',
    ascending=False)], and the first three of them. *)
Definition ranking (cands : list triple) : list triple :=
  map (fun i => nth i cands no_triple) (Sort.nargsort (map abs_corr cands) false).

Definition top3 (c : DataFrame) : list triple := take 3 (ranking (candidates c)).

Definition is_str (l : label) : bool :=
  match l with
  | LStr _ => true
  | LInt _ => false
  end.

(** A frame of float columns of full length whose labels are strings, as
    [corr()] yields for a table with named columns. *)
Definition square_like (c : DataFrame) : Prop :=
  forallb is_str (index c) = true /\
  List.Forall (fun kc => is_str (fst kc) = true /\
                         exists v, snd kc = NumCol v /\ length v = len c) (data c).

(** The lines of the narrative for a list of ranked pairs. *)
Definition triple_line (t : triple) : list piece :=
  [Text "- **"; str_value (VObj t.1.1); Text "** vs **"; str_value (VObj t.1.2);
   Text "**: correlation = **"; Float t.2; Text ("**  " +:+ nl)].

Definition triple_lines (ts : list triple) : list piece :=
  flat_map triple_line ts.

(** ** The shape of the dataset *)

Definition field_names : list string :=
  ["Supplier_Lead_Time"; "Inventory_Levels"; "Order_Frequency";
   "Delivery_Performance"; "Cost_Per_Unit"]%string.

(** A table with the five float columns of [df_all]. *)
Definition supply_table (ix : list label) (c1 c2 c3 c4 c5 : list float) : DataFrame :=
  {| index := ix;
     data := [(LStr "Supplier_Lead_Time", NumCol c1); (LStr "Inventory_Levels", NumCol c2);
              (LStr "Order_Frequency", NumCol c3); (LStr "Delivery_Performance", NumCol c4);
              (LStr "Cost_Per_Unit", NumCol c5)] |}.

Definition has_fields (d : DataFrame) : Prop :=
  exists ix c1 c2 c3 c4 c5, d = supply_table ix c1 c2 c3 c4 c5.

(** The labels of the float columns are strings. *)
Definition named (d : DataFrame) : Prop :=
  forallb is_str (map fst (numeric_data d)) = true.

(** What one call shows, given the three means, the ranked pairs, the
    rounded correlation matrix and the rounded summary. *)
Definition report (N : Z) (lead inventory delivery : value) (ranked : list triple)
    (c s : DataFrame) : list output :=
  [Markdown (narrative N lead inventory delivery ++ triple_lines ranked);
   Markdown [Text "**Correlation matrix:**"];
   Table c;
   Heatmap (heatmap_title N) c (-1) 1;
   Markdown [Text "**Summary statistics (selected subset):**"];
   Table s].

(** The float column of a field, and its mean as the narrative quotes it. *)
Definition field (d : DataFrame) (name : string) : list float :=
  match getitem_num (LStr name) d with
  | Some v => v
  | None => []
  end.

Definition shown_mean (d : DataFrame) (name : string) : value :=
  VNum (Np.round 2 (Describe.mean (field d name))).

(** ** The generated table *)

Section Generated.

Context {rng_state : Type}.
Variable init_by_seed : Z -> rng_state.
Variable legacy_gauss : rng_state -> float * rng_state.

(** The five arrays of normal draws of CELL 1, in the order drawn, each
    continuing from the generator state the previous one left. *)
Definition draw (mu scale : float) (s : rng_state) : list float * rng_state :=
  normal legacy_gauss mu scale n_rows s.

Definition g0 : rng_state := init_by_seed RND.
Definition g1 : rng_state := snd (draw 12 5 g0).
Definition g2 : rng_state := snd (draw 300 90 g1).
Definition g3 : rng_state := snd (draw 6 2.5 g2).
Definition g4 : rng_state := snd (draw 85 8 g3).
Definition g5 : rng_state := snd (draw 28 7 g4).

Definition raw_draws : list (list float) :=
  [fst (draw 12 5 g0); fst (draw 300 90 g1); fst (draw 6 2.5 g2);
   fst (draw 85 8 g3); fst (draw 28 7 g4)].

(** No draw is NaN (a normal sampler yields numbers). *)
Definition draws_are_numbers : bool :=
  forallb (forallb (fun x => negb (is_nan x))) raw_draws.

(** The table CELL 1 binds to [df_all]. *)
Definition dataset : DataFrame :=
  supply_table (range_index n_rows)
    (map (fun x => Np.maximum x 1) (fst (draw 12 5 g0)))
    (map (fun x => Np.maximum x 0) (fst (draw 300 90 g1)))
    (map (fun x => Np.maximum x 0.5) (fst (draw 6 2.5 g2)))
    (map (fun x => Np.npy_clip x 40 100) (fst (draw 85 8 g3)))
    (map (fun x => Np.maximum x 1) (fst (draw 28 7 g4))).

(** The whole notebook run for one slider value, from any process state:
    CELL 1, then the callback. *)
Definition session (N : Z) : M unit :=
  _ ← cell1 init_by_seed legacy_gauss;
  render_analysis N.

End Generated.

(** The frame [df_all] stands for in a state, and what a run shows. *)
Definition the_table {rng_state : Type} (σ : @state rng_state) : option DataFrame :=
  match df_all σ with
  | Some l => resolve (heap σ) l
  | None => None
  end.

Definition shown_by {rng_state : Type} (m : @M rng_state unit) (σ : @state rng_state)
  : option (list output) :=
  match m σ with
  | Some (_, σ') => Some (console σ')
  | None => None
  end.

(** The bounds of the five fields. *)
Definition at_least (lo : float) (x : float) : bool := (lo <=? x)%float.
Definition within (lo hi : float) (x : float) : bool := (lo <=? x)%float && (x <=? hi)%float.

Definition in_bounds (d : DataFrame) : Prop :=
  List.Forall (fun x => at_least 1 x = true) (field d "Supplier_Lead_Time") /\
  List.Forall (fun x => at_least 0 x = true) (field d "Inventory_Levels") /\
  List.Forall (fun x => at_least 0.5 x = true) (field d "Order_Frequency") /\
  List.Forall (fun x => within 40 100 x = true) (field d "Delivery_Performance") /\
  List.Forall (fun x => at_least 1 x = true) (field d "Cost_Per_Unit").

(** ** A concrete generator

    A small congruential generator with draws between -2 and 2, to run the
    notebook on concrete data. *)

Module Demo.

Definition seed (z : Z) : Z := z mod 2147483648.

Definition gauss (s : Z) : float * Z :=
  let s' := (s * 1103515245 + 12345) mod 2147483648 in
  ((float_of_Z ((s' / 65536) mod 2001) / 500 - 2)%float, s').

(** A fresh process, and the process after CELL 1. *)
Definition fresh : @state Z := mkState 0 [] None [].

Definition table : DataFrame := dataset seed gauss.

Definition loaded : @state Z := mkState (g5 seed gauss) [Own table; View 0%nat 0%nat 5%nat] (Some 0%nat) [].

End Demo.

(** ** Variance of a field *)

(** The sum of squared deviations of a column, as the correlation loop
    accumulates it; it is zero for a constant column. *)
Definition sum_sq_dev (x : list float) : float := Corr.ssqdm_x (Corr.loop x x).

Definition zero_variance (x : list float) : bool := is_zero (sum_sq_dev x).

Definition all_finite (x : list float) : bool := forallb Np.isfinite x.

(** ** Reading a correlation matrix and a ranking *)

(** [matrix[a][b]]: the cell in row [a] and column [b]. *)
Definition cell (c : DataFrame) (a b : string) : option value :=
  loc_cell (LStr a) (LStr b) c.

(** The position of a field among the columns of the table. *)
Definition field_position (a : string) : nat :=
  match position (LStr a) (map LStr field_names) with
  | Some i => i
  | None => O
  end.

(** The two field names of a ranked pair. *)
Definition pair_names (t : triple) : label * label := (t.1.1, t.1.2).

(** The order in which [sort_values] leaves the candidates. *)
Definition ranking_order (cands : list triple) : list nat :=
  Sort.nargsort (map abs_corr cands) false.

(** The ten pairs of the five fields, in the order the callback
    enumerates them (column by column of the matrix, keeping
    [var1 < var2]). *)
Definition enumerated_pairs : list (label * label) :=
  [(LStr "Inventory_Levels", LStr "Supplier_Lead_Time");
   (LStr "Inventory_Levels", LStr "Order_Frequency");
   (LStr "Order_Frequency", LStr "Supplier_Lead_Time");
   (LStr "Delivery_Performance", LStr "Supplier_Lead_Time");
   (LStr "Delivery_Performance", LStr "Inventory_Levels");
   (LStr "Delivery_Performance", LStr "Order_Frequency");
   (LStr "Cost_Per_Unit", LStr "Supplier_Lead_Time");
   (LStr "Cost_Per_Unit", LStr "Inventory_Levels");
   (LStr "Cost_Per_Unit", LStr "Order_Frequency");
   (LStr "Cost_Per_Unit", LStr "Delivery_Performance")].

(** All values of the float columns are finite. *)
Definition table_finite (d : DataFrame) : bool :=
  forallb (fun kv => all_finite (snd kv)) (numeric_data d).

(** ** Example tables *)

Module Examples.

(** A table of 74 records whose last five are given; the 69 before
    repeat the means of the five distributions. *)
Definition with_last (s i o d c : list float) : DataFrame :=
  supply_table (range_index 74)
    (repeat 12%float 69 ++ s) (repeat 300%float 69 ++ i) (repeat 6%float 69 ++ o)
    (repeat 85%float 69 ++ d) (repeat 28%float 69 ++ c).

(** A process in which [df_all] is bound to the table [t]. *)
Definition process (t : DataFrame) : @state unit :=
  mkState tt [Own t] (Some 0%nat) [].

(** The last five records lie on one line in every field. *)
Definition tied : DataFrame :=
  with_last [10; 11; 12; 13; 14]%float [300; 310; 320; 330; 340]%float
            [5; 6; 7; 8; 9]%float [80; 82; 84; 86; 88]%float [20; 22; 24; 26; 28]%float.

(** As [tied] in three fields; Inventory_Levels is off the line by half
    a unit in one record, and Cost_Per_Unit is unrelated. *)
Definition near : DataFrame :=
  with_last [10; 20; 30; 40; 50]%float [300.5; 310; 320; 330; 340]%float
            [5; 6; 7; 8; 9]%float [80; 82; 84; 86; 88]%float [20; 28; 23; 29; 21]%float.

(** Delivery_Performance sits at its upper bound in the last five records. *)
Definition flat : DataFrame :=
  with_last [10; 14; 9; 13; 17]%float [300; 250; 320; 410; 340]%float
            [5; 6.5; 7; 3; 9]%float [100; 100; 100; 100; 100]%float
            [20; 28; 23; 29; 21]%float.

(** A table with two fields only, hence a single pair. *)
Definition two_fields : DataFrame :=
  {| index := range_index 3;
     data := [(LStr "cost", NumCol [1; 2; 4]%float); (LStr "delay", NumCol [3; 1; 2]%float)] |}.

End Examples.

(** ** Stated behaviour the callback does not have, as functions *)

Module Claimed.

(** The pair of names of [t] is below that of [u], lexicographically. *)
Definition names_before (t u : triple) : bool :=
  match label_ltb t.1.1 u.1.1, label_ltb u.1.1 t.1.1 with
  | Some true, _ => true
  | Some false, Some false =>
      match label_ltb t.1.2 u.1.2 with
      | Some b => b
      | None => false
      end
  | _, _ => false
  end.

(** Descending absolute correlation, NaN lowest, ties broken by the
    names of the pair. *)
Definition before (t u : triple) : bool :=
  let x := abs_corr t in
  let y := abs_corr u in
  if is_nan x then is_nan y && names_before t u
  else is_nan y || (y <? x)%float || ((x =? y)%float && names_before t u).

Fixpoint insert (t : triple) (l : list triple) : list triple :=
  match l with
  | [] => [t]
  | u :: rest => if before t u then t :: l else u :: insert t rest
  end.

Definition sort (cands : list triple) : list triple := fold_right insert [] cands.

(** The top three with ties broken by name. *)
Definition top3_by_name (c : DataFrame) : list triple := take 3 (sort (candidates c)).

(** The top three pairs when the ranking is made on the unrounded
    coefficients. *)
Definition top3_full_precision (current_df : DataFrame) : list (label * label) :=
  map pair_names (take 3 (ranking (candidates (corr current_df)))).

End Claimed.

(** ** NaN in a ranking *)

(** The ranked values that are NaN come last. *)
Definition nan_last (ts : list triple) : Prop :=
  forall i j, (i < j < length ts)%nat ->
    is_nan (nth i ts no_triple).2 = true -> is_nan (nth j ts no_triple).2 = true.

(** The candidates that are numbers. *)
Definition numbers (ts : list triple) : list triple :=
  List.filter (fun t : triple => negb (is_nan t.2)) ts.

(** The candidates without a coefficient, in their order. *)
Definition nans (ts : list triple) : list triple :=
  List.filter (fun t : triple => is_nan t.2) ts.

(** The pair [t] involves the field [a]. *)
Definition involves (a : string) (t : triple) : Prop :=
  t.1.1 = LStr a \/ t.1.2 = LStr a.

(** ** Notions used in the proofs *)

(** The number of rows [get_recent_df] keeps of a table of 74. *)
Definition clamp (n lo hi : Z) : Z := Z.min (Z.max n lo) hi.

(** The result of a run that shows [o], or raises when [o] is undefined,
    and only adds objects to the heap. *)
Definition shows {rng_state : Type} (σ : @state rng_state)
    (res : option (unit * @state rng_state)) (o : option (list output)) : Prop :=
  match o with
  | Some out => exists objs, res = Some (tt, mkState (rng σ) (heap σ ++ objs) (df_all σ) out)
  | None => res = None
  end.

Module FloatSpec.

(** Floats that are not NaN are ordered like the triples [rank]: the
    class of the number, then exponent and mantissa. *)
Definition rank (x : spec_float) : Z * Z * Z :=
  match x with
  | S754_nan => (3, 0, 0)
  | S754_infinity true => (-2, 0, 0)
  | S754_infinity false => (2, 0, 0)
  | S754_zero _ => (0, 0, 0)
  | S754_finite true m e => (-1, - e, Z.neg m)
  | S754_finite false m e => (1, e, Z.pos m)
  end.

Definition lex_lt (a b : Z * Z * Z) : Prop :=
  a.1.1 < b.1.1 \/
  (a.1.1 = b.1.1 /\ (a.1.2 < b.1.2 \/ (a.1.2 = b.1.2 /\ a.2 < b.2))).

Definition frank (x : float) : Z * Z * Z := rank (Prim2SF x).

Definition zero_or_nan (x : float) : Prop :=
  (exists s, Prim2SF x = S754_zero s) \/ Prim2SF x = S754_nan.

(** A finite number other than zero, and a zero of either sign. *)
Definition is_number (x : float) : Prop := exists s m e, Prim2SF x = S754_finite s m e.
Definition is_null (x : float) : Prop := exists s, Prim2SF x = S754_zero s.

End FloatSpec.

Module SortSpec.

(** The prefix built by the insertion sort of [v], read backwards, is in
    ascending order. *)
Definition rev_sorted (v : list float) (acc : list nat) : Prop :=
  StronglySorted (fun a b => asc_before v b a) acc.

(** The positions of the numbers and of the NaN of [items]. *)
Definition keep (items : list float) (i : nat) : bool := negb (is_nan (nth i items nan)).
Definition non_nan_idx (items : list float) : list nat :=
  List.filter (keep items) (seq 0 (length items)).
Definition nan_idx (items : list float) : list nat :=
  List.filter (fun i => negb (keep items i)) (seq 0 (length items)).

End SortSpec.

Module CorrSpec.

Import Corr.

(** On the diagonal, the three sums are one. *)
Definition diagonal (a : acc) : Prop :=
  meanx a = meany a /\ ssqdm_x a = ssqdm_y a /\ covxy a = ssqdm_x a.

(** No observation, no sum. *)
Definition counted (a : acc) : Prop :=
  0 <= nobs a /\ (nobs a = 0 -> ssqdm_x a = 0%float).

(** With finite values throughout, the sums for [x] (and for [y]) in the
    loop over a pair are those of the column alone. *)
Definition agree_x (a b : acc) : Prop :=
  nobs a = nobs b /\ meanx a = meanx b /\ ssqdm_x a = ssqdm_x b.

Definition agree_y (a c : acc) : Prop :=
  nobs a = nobs c /\ meany a = meanx c /\ ssqdm_y a = ssqdm_x c.

End CorrSpec.

(** The column holds one value throughout ([==] of floats). *)
Definition constant (x : list float) : bool :=
  forallb (fun y => (y =? hd nan x)%float) x.

(** ** The size of the subset *)

(** The number of records [get_recent_df n] keeps of a table of [size]
    records: [n], raised to 2, and no more than there are. *)
Definition kept (n : Z) (size : nat) : nat := Nat.min (Z.to_nat (Z.max n 2)) size.

(** A table of one record. *)
Definition single_record : DataFrame :=
  supply_table (range_index 1) [12%float] [300%float] [6%float] [85%float] [28%float].

(** The fields whose mean the narrative quotes. *)
Definition quoted_fields : list string :=
  ["Supplier_Lead_Time"; "Inventory_Levels"; "Delivery_Performance"]%string.

(** ** The stream of draws *)

Section Draws.

Context {rng_state : Type}.
Variable init_by_seed : Z -> rng_state.
Variable legacy_gauss : rng_state -> float * rng_state.

(** The first [n] standard normal draws from the state [s], and the
    state they leave. *)
Fixpoint gauss_draws (n : nat) (s : rng_state) : list float :=
  match n with
  | O => []
  | S k => let (g, s1) := legacy_gauss s in g :: gauss_draws k s1
  end.

Fixpoint after_draws (n : nat) (s : rng_state) : rng_state :=
  match n with
  | O => s
  | S k => after_draws k (snd (legacy_gauss s))
  end.

(** The draw number [j] (from 0) after seeding with 42. *)
Definition draw_number (j : nat) : float :=
  nth j (gauss_draws (5 * n_rows) (init_by_seed RND)) nan.

End Draws.

(** * Properties *)

(** ** Running statements *)

Section Run.

Context {rng_state : Type}.
Implicit Types (σ : @state rng_state) (h : list object).

Lemma bind_run {A B} (m : M A) (k : A -> M B) σ :
  (x ← m; k x) σ = match m σ with Some (x, σ') => k x σ' | None => None end.
Proof. reflexivity. Qed.

Lemma resolve_own h l d : h !! l = Some (Own d) -> resolve h l = Some d.
Proof. intros H. unfold resolve. now rewrite H. Qed.

Lemma resolve_app h h' l d : resolve h l = Some d -> resolve (h ++ h') l = Some d.
Proof.
  unfold resolve. intros H.
  destruct (h !! l) as [o|] eqn:E; [|discriminate].
  rewrite (lookup_app_l_Some _ _ _ _ E).
  destruct o as [d0|b lo hi]; [exact H|].
  destruct (h !! b) as [ob|] eqn:Eb; [|discriminate].
  now rewrite (lookup_app_l_Some _ _ _ _ Eb).
Qed.

Lemma lookup_fresh h (o : object) : (h ++ [o]) !! length h = Some o.
Proof. rewrite lookup_app_r by lia. now rewrite Nat.sub_diag. Qed.

Lemma resolve_fresh_own h d : resolve (h ++ [Own d]) (length h) = Some d.
Proof. apply resolve_own, lookup_fresh. Qed.

Lemma resolve_fresh_view h b lo hi d :
  h !! b = Some (Own d) ->
  resolve (h ++ [View b lo hi]) (length h) = Some (iloc_rows lo hi d).
Proof.
  intros H. unfold resolve. rewrite lookup_fresh.
  now rewrite (lookup_app_l_Some _ _ _ _ H).
Qed.

End Run.

(** ** The subset selector *)

Lemma col_cell_rows lo hi c i :
  (i < hi - lo)%nat -> col_cell (col_rows lo hi c) i = col_cell c (lo + i).
Proof.
  intros Hi. destruct c as [v|v]; simpl; rewrite nth_firstn, nth_skipn;
    destruct (Nat.ltb_spec i (hi - lo)); (reflexivity || lia).
Qed.

(** The records of rows [lo, hi) are the records [lo, hi) of the frame. *)
Lemma records_iloc_rows lo hi d :
  records (reset_index_drop (iloc_rows lo hi d)) = take (hi - lo) (drop lo (records d)).
Proof.
  unfold records, reset_index_drop, len; simpl.
  unfold range_index. rewrite length_map, length_seq, length_take, length_drop.
  rewrite skipn_map, firstn_map, skipn_seq, take_seq. simpl.
  set (m := Nat.min (hi - lo) (length (index d) - lo)).
  replace (seq lo m) with (seq (lo + 0) m) by (f_equal; lia).
  rewrite <- (fmap_add_seq lo 0 m).
  change (fmap (Nat.add lo) (seq 0 m)) with (map (Nat.add lo) (seq 0 m)).
  rewrite map_map. apply map_ext_in. intros i Hi. apply in_seq in Hi.
  unfold record; simpl. rewrite map_map. apply map_ext. intros kc; simpl.
  apply col_cell_rows. lia.
Qed.

Lemma length_records d : length (records d) = len d.
Proof. unfold records. now rewrite length_map, length_seq. Qed.

Lemma tail_window_clamp (n : Z) (size : nat) :
  2 <= n ->
  tail_window n size = ((size - Z.to_nat (Z.min n (Z.of_nat size)))%nat, size).
Proof.
  intros Hn. unfold tail_window.
  destruct (Z.eqb_spec n 0); [lia|].
  unfold slice_indices, norm_bound.
  destruct (Z.ltb_spec (- n) 0); [|lia].
  f_equal; lia.
Qed.

Section Selector.

Context {rng_state : Type}.
Implicit Types (σ : @state rng_state).

(** What a call of [get_recent_df] does: it creates a view of the last
    rows and then a frame that owns a copy of them, and returns the copy. *)
Lemma get_recent_df_run σ l d (N : Z) :
  df_all σ = Some l -> heap σ !! l = Some (Own d) ->
  let n := if N <? 2 then 2 else N in
  let lo := (len d - Z.to_nat (Z.min n (Z.of_nat (len d))))%nat in
  get_recent_df N σ =
    Some (S (length (heap σ)),
          set_heap (heap σ ++ [View l lo (len d);
                               Own (reset_index_drop (iloc_rows lo (len d) d))]) σ).
Proof.
  intros Hg Hl n lo. unfold get_recent_df. fold n.
  assert (Hn : 2 <= n) by (subst n; destruct (Z.ltb_spec N 2); lia).
  rewrite bind_run. unfold global_df_all at 1. rewrite Hg.
  rewrite bind_run. unfold df_tail. rewrite bind_run.
  unfold read at 1. rewrite (resolve_own _ _ _ Hl).
  unfold int. rewrite (tail_window_clamp n (len d) Hn). simpl fst; simpl snd. fold lo.
  unfold make_view. rewrite bind_run. unfold get_heap at 1. rewrite Hl.
  unfold alloc at 1.
  unfold df_reset_index_drop. rewrite bind_run. unfold read. simpl heap.
  rewrite (resolve_fresh_view _ _ _ _ _ Hl).
  unfold alloc, set_heap; simpl. rewrite length_app; simpl.
  rewrite <- app_assoc; simpl. do 3 f_equal. lia.
Qed.

End Selector.

(** ** The callback computes the pipeline *)

Section Callback.

Context {rng_state : Type}.
Implicit Types (σ : @state rng_state) (h : list object).

Lemma lookup_new h (objs : list object) i :
  (h ++ objs) !! (length h + i)%nat = objs !! i.
Proof. rewrite lookup_app_r by lia. f_equal. lia. Qed.

Lemma resolve_new_own h objs i d :
  objs !! i = Some (Own d) -> resolve (h ++ objs) (length h + i)%nat = Some d.
Proof. intros H. unfold resolve. now rewrite lookup_new, H. Qed.

Lemma resolve_new_view h objs i j lo hi d :
  objs !! i = Some (View (length h + j)%nat lo hi) -> objs !! j = Some (Own d) ->
  resolve (h ++ objs) (length h + i)%nat = Some (iloc_rows lo hi d).
Proof. intros H1 H2. unfold resolve. now rewrite lookup_new, H1, lookup_new, H2. Qed.

Lemma lookup_first_new h (o : object) rest : (h ++ o :: rest) !! length h = Some o.
Proof. rewrite lookup_app_r by lia. now rewrite Nat.sub_diag. Qed.

Lemma insert_new h (objs : list object) i o :
  <[(length h + i)%nat := o]> (h ++ objs) = h ++ <[i := o]> objs.
Proof. apply insert_app_r. Qed.

Lemma length_new h (objs : list object) :
  length (h ++ objs) = (length h + length objs)%nat.
Proof. apply length_app. Qed.

End Callback.

Section Callback2.

Context {rng_state : Type}.
Implicit Types (σ : @state rng_state) (h : list object).

Lemma read_run σ l d : resolve (heap σ) l = Some d -> read l σ = Some (d, σ).
Proof. intros H. unfold read. now rewrite H. Qed.

Lemma method_run σ f self d :
  resolve (heap σ) self = Some d ->
  method f self σ =
    match f d with
    | Some d' => Some (length (heap σ), set_heap (heap σ ++ [Own d']) σ)
    | None => None
    end.
Proof.
  intros H. unfold method. rewrite bind_run, (read_run _ _ _ H), bind_run.
  destruct (f d); reflexivity.
Qed.

Lemma df_copy_run σ self d :
  resolve (heap σ) self = Some d ->
  df_copy self σ = Some (length (heap σ), set_heap (heap σ ++ [Own d]) σ).
Proof. intros H. unfold df_copy. now rewrite bind_run, (read_run _ _ _ H). Qed.

Lemma df_head_run σ self d n :
  heap σ !! self = Some (Own d) ->
  df_head self n σ =
    Some (length (heap σ),
          set_heap (heap σ ++ [View self (fst (head_window n (len d)))
                                         (snd (head_window n (len d)))]) σ).
Proof.
  intros H. unfold df_head. rewrite bind_run, (read_run _ _ d) by now apply resolve_own.
  unfold make_view. rewrite bind_run. unfold get_heap. now rewrite H.
Qed.

Lemma update_run σ (f : DataFrame -> option DataFrame) self d :
  heap σ !! self = Some (Own d) ->
  (d0 ← read self; d' ← lift (f d0); overwrite self d') σ =
    match f d with
    | Some d' => Some (tt, set_heap (<[self := Own d']> (heap σ)) σ)
    | None => None
    end.
Proof.
  intros H. rewrite bind_run, (read_run _ _ d) by now apply resolve_own.
  rewrite bind_run. destruct (f d); [|reflexivity]. simpl.
  unfold overwrite. now rewrite H.
Qed.

Lemma get_run {A} σ (f : DataFrame -> option A) self d :
  resolve (heap σ) self = Some d ->
  (d0 ← read self; lift (f d0)) σ =
    match f d with
    | Some x => Some (x, σ)
    | None => None
    end.
Proof.
  intros H. rewrite bind_run, (read_run _ _ _ H). destruct (f d); reflexivity.
Qed.

Ltac norm :=
  unfold set_heap; cbn [heap rng df_all console fst snd];
  rewrite ?length_new; cbn [length]; rewrite <- ?app_assoc; cbn [app].

Lemma shows_none σ o : (o = None) -> shows σ None o.
Proof. intros ->. reflexivity. Qed.

Ltac by_new := first [apply resolve_new_own; reflexivity
                     | eapply resolve_new_view; reflexivity ].

Lemma render_analysis_run σ l d (N : Z) :
  df_all σ = Some l -> heap σ !! l = Some (Own d) ->
  shows σ (render_analysis N σ) (Pipeline.outputs N d).
Proof.
  intros Hg Hl. unfold render_analysis.
  rewrite bind_run, (get_recent_df_run σ l d N Hg Hl).
  destruct σ as [r h g c]. cbn [heap rng df_all console] in *.
  unfold Pipeline.outputs, Pipeline.summary.
  fold (Pipeline.subset N d).
  set (cur := Pipeline.subset N d).
  set (v0 := View l _ _).
  replace (S (length h)) with (length h + 1)%nat by lia.
  (* summary *)
  unfold df_describe. rewrite bind_run, (method_run _ _ _ cur) by by_new.
  norm.
  unfold df_loc_rows. rewrite bind_run, (method_run _ _ _ (describe cur)) by by_new.
  destruct (loc_rows _ (describe cur)) as [t1|] eqn:E1; [|reflexivity].
  norm. cbn [mbind option_bind].
  unfold df_T. rewrite bind_run, (method_run _ _ _ t1) by by_new. norm.
  unfold df_round. rewrite bind_run, (method_run _ _ _ (transpose t1)) by by_new. norm.
  set (summ := round 2 (transpose t1)).
  (* corr *)
  unfold df_corr. rewrite bind_run, (method_run _ _ _ cur) by by_new. norm.
  rewrite bind_run, (method_run _ _ _ (corr cur)) by by_new. norm.
  fold (Pipeline.correlation cur). set (cr := Pipeline.correlation cur).
  rewrite bind_run. unfold clear_output at 1. norm.
  (* the three means *)
  unfold df_loc_cell.
  rewrite bind_run, (get_run _ _ _ summ) by by_new.
  destruct (loc_cell (LStr "Supplier_Lead_Time") _ summ) as [lead|] eqn:L1;
    [|apply shows_none; unfold Pipeline.shown, Pipeline.markdown; rewrite L1;
      destruct (Pipeline.top_pairs cr); reflexivity].
  rewrite bind_run, (get_run _ _ _ summ) by by_new.
  destruct (loc_cell (LStr "Inventory_Levels") _ summ) as [inventory|] eqn:L2;
    [|apply shows_none; unfold Pipeline.shown, Pipeline.markdown; rewrite L1, L2;
      destruct (Pipeline.top_pairs cr); reflexivity].
  rewrite bind_run, (get_run _ _ _ summ) by by_new.
  destruct (loc_cell (LStr "Delivery_Performance") _ summ) as [delivery|] eqn:L3;
    [|apply shows_none; unfold Pipeline.shown, Pipeline.markdown; rewrite L1, L2, L3;
      destruct (Pipeline.top_pairs cr); reflexivity].
  unfold Pipeline.shown, Pipeline.markdown. rewrite L1, L2, L3.
  cbn [mbind option_bind].
  (* the pairs *)
  unfold Pipeline.top_pairs, Pipeline.unstacked.
  unfold df_unstack_reset_index. rewrite bind_run, (method_run _ _ _ cr) by by_new. norm.
  set (u0 := series_reset_index (unstack cr)).
  unfold df_assign_columns. rewrite bind_run.
  rewrite (update_run _ (set_columns _) _ u0) by (norm; rewrite lookup_new; reflexivity).
  destruct (set_columns _ u0) as [u|] eqn:E2; [|reflexivity].
  norm. rewrite insert_new. cbn [list_insert insert]. cbn [mbind option_bind].
  unfold Pipeline.pairs, df_getitem.
  rewrite bind_run, (get_run _ _ _ u) by by_new.
  destruct (getitem (LStr "var1") u) as [var1|]; [|reflexivity].
  rewrite bind_run, (get_run _ _ _ u) by by_new.
  destruct (getitem (LStr "var2") u) as [var2|]; [|reflexivity].
  cbn [mbind option_bind]. rewrite bind_run.
  destruct (lt_columns var1 var2) as [mask|]; [|reflexivity].
  cbn [lift mret M_ret mbind option_bind].
  unfold df_getitem_mask. rewrite bind_run, (method_run _ _ _ u) by by_new.
  destruct (length mask =? len u)%nat; [|reflexivity]. norm.
  set (p0 := getitem_mask mask u).
  rewrite bind_run, (df_copy_run _ _ p0) by by_new. norm.
  rewrite bind_run, (get_run _ _ _ p0) by by_new.
  destruct (getitem (LStr "corr") p0) as [[v|v]|]; [|reflexivity|reflexivity].
  cbn [mbind option_bind]. rewrite bind_run. cbn [series_abs mret M_ret].
  unfold df_setitem. rewrite bind_run.
  rewrite (update_run _ (setitem _ _) _ p0) by (norm; rewrite lookup_new; reflexivity).
  destruct (setitem _ _ p0) as [p|]; [|reflexivity].
  norm. rewrite insert_new. cbn [list_insert insert]. cbn [mbind option_bind].
  unfold Pipeline.ranked, df_sort_values.
  rewrite bind_run, (method_run _ _ _ p) by by_new.
  destruct (sort_values _ false p) as [sorted|]; [|reflexivity].
  norm. cbn [mbind option_bind].
  rewrite bind_run, (df_head_run _ _ sorted) by (norm; rewrite lookup_new; reflexivity).
  norm. set (w := head_window 3 (len sorted)).
  unfold df_iterrows.
  rewrite bind_run, bind_run, (read_run _ _ (iloc_rows (fst w) (snd w) sorted)) by by_new.
  cbn [mret M_ret]. rewrite bind_run.
  destruct (pair_lines _ _) as [md|]; [|reflexivity].
  cbn [lift mret M_ret mbind option_bind].
  rewrite bind_run. unfold display at 1. norm.
  rewrite bind_run. unfold display at 1. norm.
  rewrite bind_run, (read_run _ _ cr) by by_new.
  rewrite bind_run. unfold display at 1. norm.
  rewrite bind_run. unfold display at 1. norm.
  rewrite bind_run. unfold display at 1. norm.
  rewrite bind_run, (read_run _ _ summ) by by_new.
  unfold display. norm.
  eexists. reflexivity.
Qed.

End Callback2.

(** ** The order of floats *)

(** Floats that are not NaN are ordered like the triples [rank]: the
    class of the number, then exponent and mantissa. *)
Module FloatOrder.

Import FloatSpec.

Ltac cases :=
  repeat match goal with
         | s : bool |- _ => destruct s
         | |- context [Z.compare ?a ?b] => destruct (Z.compare_spec a b)
         | |- context [Pos.compare_cont Eq ?a ?b] =>
             change (Pos.compare_cont Eq a b) with (Pos.compare a b);
             destruct (Pos.compare_spec a b)
         end.

Lemma SFltb_lex x y :
  x <> S754_nan -> y <> S754_nan ->
  (SFltb x y = true <-> lex_lt (rank x) (rank y)).
Proof.
  intros Hx Hy. unfold SFltb, lex_lt.
  destruct x, y; try congruence; cbn [SFcompare rank fst snd]; cases;
    cbn [CompOpp rank fst snd]; split; intros ?; try discriminate; try reflexivity; lia.
Qed.

Lemma SFeqb_lex x y :
  x <> S754_nan -> y <> S754_nan ->
  (SFeqb x y = true <-> rank x = rank y).
Proof.
  intros Hx Hy. unfold SFeqb.
  destruct x, y; try congruence; cbn [SFcompare rank]; cases;
    cbn [CompOpp rank]; split; intros Heq; try discriminate; try reflexivity;
    try (injection Heq; intros; lia); try (f_equal; [f_equal|]; lia).
Qed.

Lemma SFleb_lex x y :
  x <> S754_nan -> y <> S754_nan ->
  (SFleb x y = true <-> lex_lt (rank x) (rank y) \/ rank x = rank y).
Proof.
  intros Hx Hy. rewrite <- SFltb_lex, <- SFeqb_lex by assumption.
  unfold SFleb, SFltb, SFeqb. destruct (SFcompare x y) as [[]|]; intuition congruence.
Qed.

Lemma SFcompare_nan_l y : SFcompare S754_nan y = None.
Proof. reflexivity. Qed.

Lemma SFcompare_nan_r x : SFcompare x S754_nan = None.
Proof. destruct x; reflexivity. Qed.

Lemma is_nan_spec x : is_nan x = true <-> Prim2SF x = S754_nan.
Proof.
  unfold is_nan. rewrite FloatAxioms.eqb_spec. split.
  - intros H. destruct (Prim2SF x) eqn:E; try reflexivity; exfalso;
      apply negb_true_iff in H;
      (assert (SFeqb (Prim2SF x) (Prim2SF x) = true) as H'
        by (apply SFeqb_lex; rewrite ?E; congruence)); rewrite E in H'; congruence.
  - intros ->. reflexivity.
Qed.

Lemma not_nan_spec x : is_nan x = false <-> Prim2SF x <> S754_nan.
Proof.
  rewrite <- is_nan_spec. destruct (is_nan x); intuition congruence.
Qed.

Lemma ltb_lex x y :
  is_nan x = false -> is_nan y = false ->
  ((x <? y)%float = true <-> lex_lt (frank x) (frank y)).
Proof.
  intros Hx Hy. rewrite FloatAxioms.ltb_spec. apply SFltb_lex; now apply not_nan_spec.
Qed.

Lemma eqb_lex x y :
  is_nan x = false -> is_nan y = false ->
  ((x =? y)%float = true <-> frank x = frank y).
Proof.
  intros Hx Hy. rewrite FloatAxioms.eqb_spec. apply SFeqb_lex; now apply not_nan_spec.
Qed.

Lemma leb_lex x y :
  is_nan x = false -> is_nan y = false ->
  ((x <=? y)%float = true <-> lex_lt (frank x) (frank y) \/ frank x = frank y).
Proof.
  intros Hx Hy. rewrite FloatAxioms.leb_spec. apply SFleb_lex; now apply not_nan_spec.
Qed.

Lemma ltb_nan_l x y : is_nan x = true -> (x <? y)%float = false.
Proof.
  intros H. apply is_nan_spec in H. rewrite FloatAxioms.ltb_spec. unfold SFltb. now rewrite H.
Qed.

Lemma ltb_nan_r x y : is_nan y = true -> (x <? y)%float = false.
Proof.
  intros H. apply is_nan_spec in H. rewrite FloatAxioms.ltb_spec. unfold SFltb.
  now rewrite H, SFcompare_nan_r.
Qed.

Lemma leb_nan_l x y : is_nan x = true -> (x <=? y)%float = false.
Proof.
  intros H. apply is_nan_spec in H. rewrite FloatAxioms.leb_spec. unfold SFleb. now rewrite H.
Qed.

Lemma leb_nan_r x y : is_nan y = true -> (x <=? y)%float = false.
Proof.
  intros H. apply is_nan_spec in H. rewrite FloatAxioms.leb_spec. unfold SFleb.
  now rewrite H, SFcompare_nan_r.
Qed.

Lemma lex_lt_irrefl a : ~ lex_lt a a.
Proof. unfold lex_lt. lia. Qed.

Lemma lex_lt_trans a b c : lex_lt a b -> lex_lt b c -> lex_lt a c.
Proof. unfold lex_lt. lia. Qed.

Lemma lex_trichotomy a b : lex_lt a b \/ a = b \/ lex_lt b a.
Proof.
  destruct a as [[a1 a2] a3], b as [[b1 b2] b3]. unfold lex_lt; simpl.
  destruct (Z.lt_trichotomy a1 b1) as [|[|]]; [lia| |lia].
  destruct (Z.lt_trichotomy a2 b2) as [|[|]]; [lia| |lia].
  destruct (Z.lt_trichotomy a3 b3) as [|[|]]; [lia| |lia].
  right; left. congruence.
Qed.

(** [<] on numbers: a strict weak order. *)
Lemma ltb_negtrans a b c :
  is_nan c = false -> (a <? b)%float = true ->
  (a <? c)%float = true \/ (c <? b)%float = true.
Proof.
  intros Hc Hab.
  destruct (is_nan a) eqn:Ha; [now rewrite ltb_nan_l in Hab|].
  destruct (is_nan b) eqn:Hb; [now rewrite ltb_nan_r in Hab|].
  rewrite !ltb_lex in * by assumption.
  destruct (lex_trichotomy (frank a) (frank c)) as [H|[H|H]]; [now left| |].
  - right. now rewrite <- H.
  - right. eapply lex_lt_trans; eassumption.
Qed.

Lemma ltb_irrefl a : (a <? a)%float = false.
Proof.
  destruct (is_nan a) eqn:Ha; [now apply ltb_nan_l|].
  destruct (a <? a)%float eqn:E; [|reflexivity].
  apply ltb_lex in E; try assumption. now apply lex_lt_irrefl in E.
Qed.

Lemma ltb_asym a b : (a <? b)%float = true -> (b <? a)%float = false.
Proof.
  intros Hab.
  destruct (is_nan a) eqn:Ha; [now rewrite ltb_nan_l in Hab|].
  destruct (is_nan b) eqn:Hb; [now rewrite ltb_nan_r in Hab|].
  destruct (b <? a)%float eqn:E; [|reflexivity].
  apply ltb_lex in E, Hab; try assumption.
  exfalso. eapply lex_lt_irrefl, lex_lt_trans; eassumption.
Qed.

(** Two numbers neither of which is below the other are equal ([==]). *)
Lemma eqb_of_not_ltb a b :
  is_nan a = false -> is_nan b = false ->
  (a <? b)%float = false -> (b <? a)%float = false -> (a =? b)%float = true.
Proof.
  intros Ha Hb H1 H2. apply eqb_lex; try assumption.
  destruct (lex_trichotomy (frank a) (frank b)) as [H|[H|H]]; [|assumption|].
  - apply ltb_lex in H; try assumption. congruence.
  - apply ltb_lex in H; try assumption. congruence.
Qed.

Lemma leb_of_not_ltb a b :
  is_nan a = false -> is_nan b = false ->
  (a <? b)%float = false -> (b <=? a)%float = true.
Proof.
  intros Ha Hb H1. apply leb_lex; try assumption.
  destruct (lex_trichotomy (frank a) (frank b)) as [H|[H|H]].
  - apply ltb_lex in H; try assumption. congruence.
  - right. congruence.
  - now left.
Qed.

Lemma leb_of_ltb a b : (a <? b)%float = true -> (a <=? b)%float = true.
Proof.
  intros Hab.
  destruct (is_nan a) eqn:Ha; [now rewrite ltb_nan_l in Hab|].
  destruct (is_nan b) eqn:Hb; [now rewrite ltb_nan_r in Hab|].
  apply leb_lex; try assumption. left. now apply ltb_lex.
Qed.

End FloatOrder.

(** ** Sorting *)

Section SortedLists.

Context {A : Type}.
Implicit Types (R : A -> A -> Prop) (l : list A).

Lemma StronglySorted_snoc R l x :
  StronglySorted R l -> Forall (fun y => R y x) l -> StronglySorted R (l ++ [x]).
Proof.
  induction 1 as [|a l Hl IH Ha]; intros Hx; simpl.
  - repeat constructor.
  - inversion Hx; subst. constructor; [now apply IH|].
    apply Forall_app; split; [assumption|]. now repeat constructor.
Qed.

Lemma StronglySorted_rev R l :
  StronglySorted R l -> StronglySorted (fun a b => R b a) (rev l).
Proof.
  induction 1 as [|a l Hl IH Ha]; simpl; [constructor|].
  apply StronglySorted_snoc; [assumption|].
  apply Forall_forall. intros y Hy. apply list_elem_of_In, in_rev in Hy.
  rewrite List.Forall_forall in Ha. now apply Ha.
Qed.

Lemma StronglySorted_append R l1 l2 :
  StronglySorted R l1 -> StronglySorted R l2 ->
  (forall a b, In a l1 -> In b l2 -> R a b) ->
  StronglySorted R (l1 ++ l2).
Proof.
  induction 1 as [|a l Hl IH Ha]; intros H2 Hc; simpl; [assumption|].
  constructor.
  - apply IH; [assumption|]. intros x y Hx Hy. apply Hc; [now right|assumption].
  - apply Forall_app; split; [assumption|].
    apply List.Forall_forall. intros y Hy. apply Hc; [now left|assumption].
Qed.

Lemma StronglySorted_weaken R R' l :
  (forall a b, In a l -> In b l -> R a b -> R' a b) ->
  StronglySorted R l -> StronglySorted R' l.
Proof.
  intros Himp H. induction H as [|a l Hl IH Ha]; [constructor|].
  constructor.
  - apply IH. intros x y Hx Hy. apply Himp; now right.
  - rewrite List.Forall_forall in *. intros y Hy.
    apply Himp; [now left|now right|now apply Ha].
Qed.

Lemma StronglySorted_filter_list R (p : A -> bool) l :
  StronglySorted R l -> StronglySorted R (List.filter p l).
Proof.
  induction 1 as [|a l Hl IH Ha]; simpl; [constructor|].
  destruct (p a); [|assumption].
  constructor; [assumption|].
  rewrite List.Forall_forall in *. intros y Hy.
  apply List.filter_In in Hy. now apply Ha.
Qed.

Lemma StronglySorted_nth R l d i j :
  StronglySorted R l -> (i < j < length l)%nat -> R (nth i l d) (nth j l d).
Proof.
  intros H. revert i j. induction H as [|a l Hl IH Ha]; intros i j Hij; simpl in *; [lia|].
  destruct j as [|j]; [lia|]. destruct i as [|i].
  - rewrite List.Forall_forall in Ha. apply Ha, nth_In. lia.
  - apply IH. lia.
Qed.

Lemma StronglySorted_take R l n :
  StronglySorted R l -> StronglySorted R (take n l).
Proof.
  intros H. revert n. induction H as [|a l Hl IH Ha]; intros [|n]; simpl; try constructor.
  - apply IH.
  - rewrite List.Forall_forall in *. intros y Hy. apply Ha.
    apply list_elem_of_In. eapply subseteq_take. apply list_elem_of_In. eassumption.
Qed.

End SortedLists.

Lemma StronglySorted_map_list {A B} (f : A -> B) (R : B -> B -> Prop) (l : list A) :
  StronglySorted (fun a b => R (f a) (f b)) l -> StronglySorted R (map f l).
Proof.
  induction 1 as [|a l Hl IH Ha]; simpl; constructor; [assumption|].
  rewrite List.Forall_forall in *. intros y Hy. apply in_map_iff in Hy as [x [<- Hx]].
  now apply Ha.
Qed.

Lemma StronglySorted_seq k n : StronglySorted lt (seq k n).
Proof.
  revert k. induction n as [|n IH]; intros k; simpl; constructor; [apply IH|].
  apply List.Forall_forall. intros y Hy. apply in_seq in Hy. lia.
Qed.

Lemma filter_partition_perm {A} (p : A -> bool) (l : list A) :
  Permutation (List.filter p l ++ List.filter (fun x => negb (p x)) l) l.
Proof.
  induction l as [|a l IH]; simpl; [constructor|].
  destruct (p a); simpl.
  - now constructor.
  - etransitivity; [symmetry; apply Permutation_middle|]. now constructor.
Qed.

Module SortFacts.

Import SortSpec.

Lemma less_asym a b : Sort.less a b = true -> Sort.less b a = false.
Proof.
  unfold Sort.less. intros H.
  destruct (is_nan a) eqn:Ha, (is_nan b) eqn:Hb; simpl in *;
    rewrite ?(FloatOrder.ltb_nan_l _ _ Ha), ?(FloatOrder.ltb_nan_r _ _ Ha),
      ?(FloatOrder.ltb_nan_l _ _ Hb), ?(FloatOrder.ltb_nan_r _ _ Hb) in *;
    simpl in *; try congruence.
  rewrite orb_false_r in *. now apply FloatOrder.ltb_asym.
Qed.

Lemma less_negtrans a b c :
  Sort.less a b = true -> Sort.less a c = true \/ Sort.less c b = true.
Proof.
  unfold Sort.less. intros H.
  destruct (is_nan a) eqn:Ha.
  { rewrite (FloatOrder.ltb_nan_l _ _ Ha), andb_false_r in H. discriminate. }
  destruct (is_nan c) eqn:Hc.
  { left. simpl. apply orb_true_r. }
  destruct (is_nan b) eqn:Hb.
  { right. simpl. apply orb_true_r. }
  simpl in *. rewrite !orb_false_r in *.
  now apply FloatOrder.ltb_negtrans.
Qed.

Section Argsort.

Variable v : list float.

Lemma insert_perm vi acc : Permutation (Sort.insert v vi acc) (vi :: acc).
Proof.
  induction acc as [|k rest IH]; simpl; [reflexivity|].
  destruct (Sort.less _ _); [|reflexivity].
  etransitivity; [apply perm_skip, IH|]. apply perm_swap.
Qed.

Lemma insert_sorted vi acc :
  List.Forall (fun x => (x < vi)%nat) acc -> rev_sorted v acc ->
  rev_sorted v (Sort.insert v vi acc).
Proof.
  unfold rev_sorted. intros Hlt Hs. induction Hs as [|k rest Hrest IH Hk]; simpl.
  - repeat constructor.
  - inversion Hlt as [|? ? Hkv Hrv]; subst.
    destruct (Sort.less (nth vi v nan) (nth k v nan)) eqn:E.
    + constructor; [now apply IH|].
      rewrite List.Forall_forall in *. intros y Hy.
      apply (Permutation_in _ (insert_perm vi rest)) in Hy. destruct Hy as [<-|Hy].
      * now left.
      * now apply Hk.
    + constructor; [now constructor|].
      constructor.
      * right. split; assumption.
      * rewrite List.Forall_forall in *. intros y Hy. right. split; [|now apply Hrv].
        destruct (Sort.less (nth vi v nan) (nth y v nan)) eqn:E'; [|reflexivity].
        exfalso. destruct (less_negtrans _ _ (nth k v nan) E') as [H|H]; [congruence|].
        destruct (Hk y Hy) as [H'|[H' _]]; [|congruence].
        apply less_asym in H. congruence.
Qed.

Lemma fold_insert n : forall k acc,
  List.Forall (fun x => (x < k)%nat) acc -> rev_sorted v acc ->
  rev_sorted v (fold_left (fun prefix vi => Sort.insert v vi prefix) (seq k n) acc) /\
  Permutation (fold_left (fun prefix vi => Sort.insert v vi prefix) (seq k n) acc)
              (seq k n ++ acc).
Proof.
  induction n as [|n IH]; intros k acc Hlt Hs; simpl; [split; [assumption|reflexivity]|].
  destruct (IH (S k) (Sort.insert v k acc)) as [H1 H2].
  - rewrite List.Forall_forall in *. intros y Hy.
    apply (Permutation_in _ (insert_perm k acc)) in Hy. destruct Hy as [<-|Hy]; [lia|].
    specialize (Hlt y Hy). lia.
  - now apply insert_sorted.
  - split; [assumption|].
    etransitivity; [exact H2|].
    etransitivity; [apply Permutation_app_head, insert_perm|].
    symmetry. apply Permutation_middle.
Qed.

Lemma argsort_perm : Permutation (Sort.argsort v) (seq 0 (length v)).
Proof.
  unfold Sort.argsort. etransitivity; [symmetry; apply Permutation_rev|].
  destruct (fold_insert (length v) 0 []) as [_ H]; [constructor|constructor|].
  now rewrite app_nil_r in H.
Qed.

Lemma argsort_sorted : StronglySorted (asc_before v) (Sort.argsort v).
Proof.
  unfold Sort.argsort.
  destruct (fold_insert (length v) 0 []) as [H _]; [constructor|constructor|].
  apply StronglySorted_rev in H. exact H.
Qed.

End Argsort.

End SortFacts.

Module NargsortFacts.

Import SortSpec.

Section Nargsort.

Variable items : list float.

Lemma nargsort_unfold (ascending : bool) :
  Sort.nargsort items ascending =
    let nn := if ascending then (non_nan_idx items) else rev (non_nan_idx items) in
    let indexer := map (fun k => nth k nn O)
                       (Sort.argsort (map (fun i => nth i items nan) nn)) in
    (if ascending then indexer else rev indexer) ++ (nan_idx items).
Proof. reflexivity. Qed.

Lemma map_nth_seq {A} (l : list A) d :
  map (fun k => nth k l d) (seq 0 (length l)) = l.
Proof.
  induction l as [|a l IH]; [reflexivity|]. simpl. f_equal.
  rewrite <- seq_shift, map_map. exact IH.
Qed.

Lemma indexer_perm (nn : list nat) :
  Permutation (map (fun k => nth k nn O)
                   (Sort.argsort (map (fun i => nth i items nan) nn))) nn.
Proof.
  etransitivity.
  - apply Permutation_map, SortFacts.argsort_perm.
  - rewrite length_map. now rewrite map_nth_seq.
Qed.

Lemma nargsort_perm ascending :
  Permutation (Sort.nargsort items ascending) (seq 0 (length items)).
Proof.
  rewrite nargsort_unfold. cbv zeta.
  etransitivity; [|apply (filter_partition_perm (keep items))].
  apply Permutation_app_tail.
  destruct ascending.
  - apply indexer_perm.
  - etransitivity; [symmetry; apply Permutation_rev|].
    etransitivity; [apply indexer_perm|]. symmetry. apply Permutation_rev.
Qed.

Lemma nargsort_length ascending :
  length (Sort.nargsort items ascending) = length items.
Proof.
  rewrite (Permutation_length (nargsort_perm ascending)). apply length_seq.
Qed.

Lemma nargsort_NoDup ascending : List.NoDup (Sort.nargsort items ascending).
Proof.
  eapply Permutation_NoDup; [symmetry; apply nargsort_perm|]. apply seq_NoDup.
Qed.

Lemma nargsort_bound ascending i :
  In i (Sort.nargsort items ascending) -> (i < length items)%nat.
Proof.
  intros H. apply (Permutation_in _ (nargsort_perm ascending)) in H.
  apply in_seq in H. lia.
Qed.

Lemma non_nan_idx_keep i : In i (non_nan_idx items) -> is_nan (nth i items nan) = false.
Proof.
  unfold non_nan_idx, keep. intros H. apply List.filter_In in H as [_ H].
  now apply negb_true_iff in H.
Qed.

Lemma nan_idx_nan i : In i (nan_idx items) -> is_nan (nth i items nan) = true.
Proof.
  unfold nan_idx, keep. intros H. apply List.filter_In in H as [_ H].
  now rewrite negb_involutive in H.
Qed.

(** The descending order of [nargsort]. *)
Lemma nargsort_desc_sorted :
  StronglySorted (desc_before items) (Sort.nargsort items false).
Proof.
  rewrite nargsort_unfold. cbv zeta.
  set (rnn := rev (non_nan_idx items)).
  set (w := map (fun i => nth i items nan) rnn).
  set (f := fun k => nth k rnn O).
  assert (Hdec : StronglySorted (fun a b => (b < a)%nat) rnn).
  { apply StronglySorted_rev, StronglySorted_filter_list, StronglySorted_seq. }
  assert (Hf : forall k, (k < length rnn)%nat ->
                 is_nan (nth (f k) items nan) = false /\
                 nth k w nan = nth (f k) items nan).
  { intros k Hk. split.
    - apply non_nan_idx_keep, in_rev. fold rnn. now apply nth_In.
    - subst w f. cbv beta.
      rewrite (nth_indep _ nan (nth O items nan)) by now rewrite length_map.
      apply (map_nth (fun i => nth i items nan)). }
  apply StronglySorted_append.
  - (* the numbers *)
    apply (StronglySorted_rev (fun a b => desc_before items b a)).
    apply StronglySorted_map_list.
    eapply StronglySorted_weaken; [|apply SortFacts.argsort_sorted].
    intros a b Ha Hb Hab.
    apply (Permutation_in _ (SortFacts.argsort_perm w)), in_seq in Ha, Hb.
    subst w. rewrite length_map in Ha, Hb.
    destruct (Hf a) as [Na Ea]; [lia|]. destruct (Hf b) as [Nb Eb]; [lia|].
    fold f. unfold desc_before. cbv zeta. rewrite Nb.
    unfold asc_before in Hab. fold (map (fun i => nth i items nan) rnn) in Hab.
    rewrite Ea, Eb in Hab. unfold Sort.less in Hab.
    rewrite Na, Nb in Hab. simpl in Hab. rewrite !orb_false_r in Hab.
    right. destruct Hab as [H|[H Hlt]]; [now left|].
    destruct (nth (f a) items nan <? nth (f b) items nan)%float eqn:E; [now left|].
    right. split; [now apply FloatOrder.eqb_of_not_ltb|].
    apply (StronglySorted_nth _ _ O a b Hdec). lia.
  - (* the missing values *)
    eapply StronglySorted_weaken;
      [|apply StronglySorted_filter_list, (StronglySorted_seq 0 (length items))].
    intros a b Ha Hb Hab. unfold desc_before. cbv zeta.
    rewrite (nan_idx_nan a Ha). split; [now apply nan_idx_nan|assumption].
  - intros a b Ha Hb. unfold desc_before. cbv zeta.
    apply in_rev in Ha. fold (f) in Ha. apply in_map_iff in Ha as [k [<- Hk]].
    apply (Permutation_in _ (SortFacts.argsort_perm w)), in_seq in Hk.
    subst w. rewrite length_map in Hk.
    destruct (Hf k) as [Nk _]; [lia|]. rewrite Nk. left. now apply nan_idx_nan.
Qed.

End Nargsort.

End NargsortFacts.

(** ** [top_pairs] computes the ranking *)

Lemma zip3_map {A} (f g : A -> label) (h : A -> float) (l : list A) :
  zip3 (map f l) (map g l) (map h l) = map (fun x => (f x, g x, h x)) l.
Proof. induction l as [|a l IH]; simpl; [reflexivity|]. now rewrite IH. Qed.

Lemma zip3_length a b c :
  length a = length c -> length b = length c -> length (zip3 a b c) = length c.
Proof.
  revert b c. induction a as [|x a IH]; intros [|y b] [|z c]; simpl; try discriminate;
    try reflexivity. intros H1 H2. f_equal. apply IH; lia.
Qed.

Lemma zip3_nth a b c i :
  length a = length c -> length b = length c ->
  nth i (zip3 a b c) no_triple = (nth i a (LInt 0), nth i b (LInt 0), nth i c nan).
Proof.
  revert b c i. induction a as [|x a IH]; intros [|y b] [|z c] i; simpl; try discriminate.
  - intros _ _. now destruct i.
  - intros H1 H2. destruct i as [|i]; [reflexivity|]. apply IH; lia.
Qed.

Lemma zip3_take a b c n :
  zip3 (take n a) (take n b) (take n c) = take n (zip3 a b c).
Proof.
  revert a b c. induction n as [|n IH]; intros a b c; [reflexivity|].
  destruct a as [|x a]; [reflexivity|]. destruct b as [|y b]; [reflexivity|].
  destruct c as [|z c]; [reflexivity|]. simpl. now rewrite IH.
Qed.

Lemma filter_mask_positions {A} (p : A -> bool) (l : list A) d k :
  map (fun i => nth (i - k) l d) (mask_positions (map p l) k) = List.filter p l.
Proof.
  revert k. induction l as [|a l IH]; intros k; simpl; [reflexivity|].
  destruct (p a); simpl.
  - rewrite Nat.sub_diag. f_equal. rewrite <- (IH (S k)).
    apply map_ext_in. intros i Hi.
    assert (S k <= i)%nat.
    { clear -Hi. revert k Hi. generalize (map p l) as m.
      induction m as [|b m IHm]; intros k Hi; simpl in Hi; [contradiction|].
      destruct b; [destruct Hi as [<-|Hi]; [lia|]|]; apply IHm in Hi; lia. }
    replace (i - k)%nat with (S (i - S k)) by lia. reflexivity.
  - rewrite <- (IH (S k)). apply map_ext_in. intros i Hi.
    assert (S k <= i)%nat.
    { clear -Hi. revert k Hi. generalize (map p l) as m.
      induction m as [|b m IHm]; intros k Hi; simpl in Hi; [contradiction|].
      destruct b; [destruct Hi as [<-|Hi]; [lia|]|]; apply IHm in Hi; lia. }
    replace (i - k)%nat with (S (i - S k)) by lia. reflexivity.
Qed.

Lemma filter_by_mask {A} (p : A -> bool) (l : list A) d :
  map (fun i => nth i l d) (mask_positions (map p l) 0) = List.filter p l.
Proof.
  rewrite <- (filter_mask_positions p l d 0). apply map_ext. intros i.
  now rewrite Nat.sub_0_r.
Qed.

Lemma lt_labels_str a b (c : list float) :
  forallb is_str a = true -> forallb is_str b = true ->
  length a = length c -> length b = length c ->
  lt_labels a b = Some (map is_candidate (zip3 a b c)).
Proof.
  revert b c. induction a as [|x a IH]; intros [|y b] [|z c]; simpl; try discriminate;
    try reflexivity.
  intros Ha Hb H1 H2. apply andb_true_iff in Ha as [Hx Ha], Hb as [Hy Hb].
  rewrite (IH b c) by (assumption || lia).
  destruct x as [s|?], y as [t|?]; try discriminate. unfold is_candidate; simpl.
  now destruct (String.ltb s t).
Qed.

Section Unstack.

Variable c : DataFrame.
Hypothesis Hsq : square_like c.

Lemma unstack_lengths :
  let s := unstack c in
  length (map fst (s_index s)) = length (s_values s) /\
  length (map snd (s_index s)) = length (s_values s) /\
  forallb is_str (map fst (s_index s)) = true /\
  forallb is_str (map snd (s_index s)) = true.
Proof using Hsq.
  destruct Hsq as [Hix Hcols]. unfold unstack, numeric_data; cbn [s_index s_values].
  rewrite !length_map. unfold len in Hcols.
  induction Hcols as [|[k col] rest [Hk [v [Ev Hv]]] Hrest IH]; simpl; [auto|].
  simpl in Ev, Hk. subst col. simpl.
  destruct IH as (L1 & L2 & S1 & S2).
  rewrite !length_app, !map_app, !forallb_app, !length_map, !map_map; simpl.
  rewrite L1, Hv, S1, S2. repeat split; try reflexivity.
  - rewrite andb_true_r. apply forallb_forall. intros x Hx.
    apply in_map_iff in Hx as [r [<- _]]. exact Hk.
  - rewrite andb_true_r. now rewrite map_id.
Qed.

End Unstack.

Lemma head_window_3 n : head_window 3 n = (0%nat, Nat.min 3 n).
Proof.
  unfold head_window, slice_indices, norm_bound.
  change (3 <? 0) with false. cbv iota. f_equal. lia.
Qed.

Lemma take_rows_index ps d :
  length (index (take_rows ps d)) = length ps.
Proof. unfold take_rows; simpl. apply length_map. Qed.

Lemma take_min {A} (l : list A) n : take (Nat.min n (length l)) l = take n l.
Proof.
  destruct (Nat.le_ge_cases n (length l)).
  - now rewrite Nat.min_l.
  - rewrite Nat.min_r by assumption. now rewrite !take_ge by lia.
Qed.

Lemma candidates_by_mask c :
  square_like c ->
  let s := unstack c in
  let A := map fst (s_index s) in
  let B := map snd (s_index s) in
  let V := s_values s in
  let ps := mask_positions (map is_candidate (zip3 A B V)) 0 in
  candidates c = zip3 (map (fun i => nth i A (LInt 0)) ps)
                      (map (fun i => nth i B (LInt 0)) ps)
                      (map (fun i => nth i V nan) ps).
Proof.
  intros Hsq s A B V ps.
  destruct (unstack_lengths c Hsq) as (LA & LB & _). cbv zeta in *.
  unfold candidates, entries. fold s A B V.
  rewrite <- (filter_by_mask is_candidate (zip3 A B V) no_triple). fold ps.
  rewrite zip3_map. apply map_ext. intros i. now apply zip3_nth.
Qed.

(** For a square frame of rounded coefficients, [top_pairs] is defined
    and holds the first three candidates of the ranking. *)
Lemma top_pairs_spec c :
  square_like c ->
  exists top,
    Pipeline.top_pairs c = Some top /\
    triples top = top3 c /\
    len top = length (top3 c) /\
    exists ix, data top = [(LStr "var1", ObjCol (map (fun t : triple => t.1.1) (top3 c)));
                           (LStr "var2", ObjCol (map (fun t : triple => t.1.2) (top3 c)));
                           (LStr "corr", NumCol (map (fun t : triple => t.2) (top3 c)));
                           (LStr "abs_corr", NumCol ix)].
Proof.
  intros Hsq.
  pose proof (candidates_by_mask c Hsq) as Hc.
  destruct (unstack_lengths c Hsq) as (LA & LB & SA & SB). cbv zeta in *.
  set (A := map fst (s_index (unstack c))) in *.
  set (B := map snd (s_index (unstack c))) in *.
  set (V := s_values (unstack c)) in *.
  set (mask := map is_candidate (zip3 A B V)) in *.
  set (ps := mask_positions mask 0) in *.
  set (A' := map (fun i => nth i A (LInt 0)) ps) in *.
  set (B' := map (fun i => nth i B (LInt 0)) ps) in *.
  set (V' := map (fun i => nth i V nan) ps) in *.
  set (u := {| index := range_index (length V);
               data := [(LStr "var1", ObjCol A); (LStr "var2", ObjCol B);
                        (LStr "corr", NumCol V)] |}).
  assert (Eu : Pipeline.unstacked c = Some u) by reflexivity.
  assert (Emask : lt_labels A B = Some mask) by now apply lt_labels_str.
  assert (Lmask : length mask = len u).
  { subst mask u. unfold len, range_index; simpl.
    rewrite !length_map, length_seq. now apply zip3_length. }
  set (p := {| index := map (fun i => nth i (index u) (LInt 0)) ps;
               data := [(LStr "var1", ObjCol A'); (LStr "var2", ObjCol B');
                        (LStr "corr", NumCol V');
                        (LStr "abs_corr", NumCol (map abs V'))] |}).
  assert (Ep : Pipeline.pairs u = Some p).
  { unfold Pipeline.pairs.
    change (getitem (LStr "var1") u) with (Some (ObjCol A)).
    change (getitem (LStr "var2") u) with (Some (ObjCol B)).
    cbn [mbind option_bind lt_columns]. rewrite Emask. cbn [mbind option_bind].
    rewrite Lmask, Nat.eqb_refl. fold ps.
    change (getitem (LStr "corr") (getitem_mask mask u)) with (Some (NumCol V')).
    cbn [mbind option_bind]. unfold setitem.
    replace (col_length (NumCol (map abs V')) =? len (getitem_mask mask u))%nat with true.
    - reflexivity.
    - symmetry. apply Nat.eqb_eq. unfold len, getitem_mask, take_rows, V'; simpl.
      now rewrite !length_map. }
  set (ord := Sort.nargsort (map abs V') false).
  assert (Lord : length ord = length ps).
  { subst ord. rewrite NargsortFacts.nargsort_length. subst V'. now rewrite !length_map. }
  set (top := iloc_rows 0 (Nat.min 3 (length ps)) (take_rows ord p)).
  assert (Er : Pipeline.ranked p = Some top).
  { unfold Pipeline.ranked.
    change (sort_values (LStr "abs_corr") false p) with (Some (take_rows ord p)).
    cbn [mbind option_bind]. unfold len. rewrite take_rows_index, head_window_3, Lord.
    reflexivity. }
  assert (Erank : ranking (candidates c)
                  = map (fun i => (nth i A' (LInt 0), nth i B' (LInt 0), nth i V' nan)) ord).
  { unfold ranking. rewrite Hc.
    replace (map abs_corr (zip3 A' B' V')) with (map abs V').
    2:{ subst A' B' V'. rewrite zip3_map, !map_map. reflexivity. }
    fold ord. apply map_ext. intros i. apply zip3_nth; subst A' B' V'; now rewrite !length_map. }
  assert (Etop : top3 c
                 = take (Nat.min 3 (length ps) - 0)
                     (drop 0 (map (fun i => (nth i A' (LInt 0), nth i B' (LInt 0), nth i V' nan)) ord))).
  { unfold top3. rewrite Erank, Nat.sub_0_r. cbn [drop].
    rewrite <- Lord, <- (length_map (fun i => (nth i A' (LInt 0), nth i B' (LInt 0), nth i V' nan)) ord).
    now rewrite take_min. }
  exists top. split; [|split; [|split]].
  - unfold Pipeline.top_pairs. rewrite Eu. cbn [mbind option_bind]. rewrite Ep.
    cbn [mbind option_bind]. exact Er.
  - rewrite Etop.
    change (triples top)
      with (zip3 (take (Nat.min 3 (length ps) - 0) (drop 0 (map (fun i => nth i A' (LInt 0)) ord)))
                 (take (Nat.min 3 (length ps) - 0) (drop 0 (map (fun i => nth i B' (LInt 0)) ord)))
                 (take (Nat.min 3 (length ps) - 0) (drop 0 (map (fun i => nth i V' nan) ord)))).
    rewrite zip3_take, !skipn_O, zip3_map. reflexivity.
  - rewrite Etop. unfold len, top, iloc_rows, take_rows. cbn [index].
    now rewrite !skipn_O, !length_take, !length_map.
  - eexists. rewrite Etop. unfold top, iloc_rows, take_rows, p. cbn [data map fst snd col_take col_rows].
    rewrite !skipn_O, !firstn_map, !map_map. reflexivity.
Qed.

(** ** The pipeline on a table with the five fields *)

Lemma pair_lines_app md rows lines :
  pair_lines md rows = Some lines ->
  forall md0, pair_lines (md0 ++ md) rows = Some (md0 ++ lines).
Proof.
  revert md lines. induction rows as [|r rows IH]; intros md lines H md0; simpl in *.
  - now inversion H.
  - destruct (pair_line r.2) as [line|]; [|discriminate].
    rewrite <- app_assoc. now apply IH.
Qed.

Lemma pair_lines_rows md (rows : list (label * row)) (ts : list triple) :
  Forall2 (fun r t => pair_line (snd r) = Some (triple_line t)) rows ts ->
  pair_lines md rows = Some (md ++ triple_lines ts).
Proof.
  intros H. revert md. induction H as [|r t rows ts Hr _ IH]; intros md; simpl.
  - now rewrite app_nil_r.
  - rewrite Hr, IH. unfold triple_lines; simpl. now rewrite <- app_assoc.
Qed.

(** The rows of [top_pairs] become the lines of the ranked triples. *)
Lemma pair_lines_top md top (ts : list triple) ix :
  len top = length ts ->
  data top = [(LStr "var1", ObjCol (map (fun t : triple => t.1.1) ts));
              (LStr "var2", ObjCol (map (fun t : triple => t.1.2) ts));
              (LStr "corr", NumCol (map (fun t : triple => t.2) ts));
              (LStr "abs_corr", NumCol ix)] ->
  pair_lines md (iterrows top) = Some (md ++ triple_lines ts).
Proof.
  intros Hlen Hdata. apply pair_lines_rows.
  unfold iterrows. rewrite Hdata. unfold len in *.
  revert Hlen. generalize (index top) as idx. intros idx Hlen.
  assert (H : forall k (idx : list label) (ts' : list triple),
             length idx = length ts' ->
             (forall i, (i < length ts')%nat -> nth (k + i) ts no_triple = nth i ts' no_triple) ->
             Forall2 (fun r t => pair_line r.2 = Some (triple_line t))
               (map (fun il : nat * label =>
                       (il.2, map (fun kc : label * column => (kc.1, col_cell kc.2 il.1))
                                [(LStr "var1", ObjCol (map (fun t : triple => t.1.1) ts));
                                 (LStr "var2", ObjCol (map (fun t : triple => t.1.2) ts));
                                 (LStr "corr", NumCol (map (fun t : triple => t.2) ts));
                                 (LStr "abs_corr", NumCol ix)]))
                    (combine (seq k (length idx)) idx)) ts').
  { intros k idx0. revert k. induction idx0 as [|x idx0 IH]; intros k [|t ts'] Hl Hn;
      simpl in *; try discriminate; constructor.
    - specialize (Hn O). rewrite Nat.add_0_r in Hn. simpl in Hn.
      unfold pair_line; simpl.
      change (LInt 0) with ((fun t : triple => t.1.1) no_triple) at 1.
      rewrite map_nth.
      change (LInt 0) with ((fun t : triple => t.1.2) no_triple) at 1.
      rewrite map_nth.
      change nan with ((fun t : triple => t.2) no_triple) at 1.
      rewrite map_nth. rewrite Hn by lia. reflexivity.
    - apply IH; [lia|]. intros i Hi. specialize (Hn (S i)).
      rewrite <- Nat.add_succ_comm in Hn. apply Hn. lia. }
  apply H; [assumption|]. intros i _. reflexivity.
Qed.

Lemma numeric_data_round k d : numeric_data (round k d)
  = map (fun kv => (fst kv, map (Np.round k) (snd kv))) (numeric_data d).
Proof.
  unfold numeric_data, round; simpl. induction (data d) as [|[l [v|v]] rest IH]; simpl;
    [reflexivity| |]; now rewrite IH.
Qed.

Lemma Corr_matrix_length cols : length (Corr.matrix cols) = length cols.
Proof. unfold Corr.matrix. now rewrite length_map, length_seq. Qed.

Lemma Corr_matrix_columns cols :
  List.Forall (fun col => length col = length cols) (Corr.matrix cols).
Proof.
  unfold Corr.matrix. apply List.Forall_forall. intros col H.
  apply in_map_iff in H as [j [<- _]]. now rewrite length_map, length_seq.
Qed.

Lemma rounded_columns k n names (m : list (list float)) :
  List.Forall (fun col => length col = n) m -> forallb is_str names = true ->
  List.Forall (fun kc : label * column =>
                 is_str kc.1 = true /\ exists v, kc.2 = NumCol v /\ length v = n)
              (map (fun kc : label * column => (kc.1, col_round k kc.2))
                   (combine names (map NumCol m))).
Proof.
  intros Hm. revert names. induction Hm as [|col m Hcol Hm IH]; intros [|x names] Hs;
    simpl; constructor.
  - simpl in Hs. apply andb_true_iff in Hs as [Hx _]. split; [assumption|].
    eexists; split; [reflexivity|]. now rewrite length_map.
  - simpl in Hs. apply andb_true_iff in Hs as [_ Hs]. now apply IH.
Qed.

(** The rounded correlation matrix of a table with named columns is
    square, with the names on both axes. *)
Lemma correlation_square cur : named cur -> square_like (Pipeline.correlation cur).
Proof.
  unfold named, square_like, Pipeline.correlation, round, corr, len; simpl.
  intros Hn. split; [assumption|].
  apply rounded_columns; [|assumption].
  pose proof (Corr_matrix_columns (map snd (numeric_data cur))) as Hc.
  now rewrite !length_map in *.
Qed.

Lemma subset_has_fields N d : has_fields d -> has_fields (Pipeline.subset N d).
Proof.
  intros (ix & c1 & c2 & c3 & c4 & c5 & ->).
  unfold Pipeline.subset, reset_index_drop, iloc_rows, supply_table; simpl.
  repeat eexists.
Qed.

Lemma has_fields_named d : has_fields d -> named d.
Proof. intros (ix & c1 & c2 & c3 & c4 & c5 & ->). reflexivity. Qed.

(** The summary of a table with the five fields is defined and holds the
    three means the narrative quotes, rounded to two decimals. *)
Lemma summary_has_fields ix c1 c2 c3 c4 c5 :
  exists s,
    Pipeline.summary (supply_table ix c1 c2 c3 c4 c5) = Some s /\
    loc_cell (LStr "Supplier_Lead_Time") (LStr "mean") s
      = Some (VNum (Np.round 2 (Describe.mean c1))) /\
    loc_cell (LStr "Inventory_Levels") (LStr "mean") s
      = Some (VNum (Np.round 2 (Describe.mean c2))) /\
    loc_cell (LStr "Delivery_Performance") (LStr "mean") s
      = Some (VNum (Np.round 2 (Describe.mean c4))).
Proof. eexists. repeat split; reflexivity. Qed.

(** The outputs of the pipeline on a table with the five fields. *)
Lemma outputs_has_fields N d :
  has_fields d ->
  let cur := Pipeline.subset N d in
  exists s,
    Pipeline.summary cur = Some s /\
    Pipeline.outputs N d =
      Some (report N (shown_mean cur "Supplier_Lead_Time")
                     (shown_mean cur "Inventory_Levels")
                     (shown_mean cur "Delivery_Performance")
                     (top3 (Pipeline.correlation cur)) (Pipeline.correlation cur) s).
Proof.
  intros Hd cur.
  pose proof (subset_has_fields N d Hd) as Hcur. fold cur in Hcur.
  pose proof (correlation_square cur (has_fields_named cur Hcur)) as Hsq.
  destruct Hcur as (ix & c1 & c2 & c3 & c4 & c5 & Ecur).
  destruct (summary_has_fields ix c1 c2 c3 c4 c5) as (s & Es & L1 & L2 & L3).
  destruct (top_pairs_spec _ Hsq) as (top & Et & _ & Hlen & ixs & Hdata).
  exists s. unfold Pipeline.outputs. fold cur. rewrite Ecur at 1 2. rewrite Es.
  split; [reflexivity|].
  cbn [mbind option_bind]. unfold Pipeline.shown. rewrite Et. cbn [mbind option_bind].
  unfold Pipeline.markdown. rewrite L1, L2, L3. cbn [mbind option_bind].
  rewrite (pair_lines_top _ top _ ixs Hlen Hdata). cbn [mbind option_bind].
  unfold report, shown_mean. rewrite Ecur. reflexivity.
Qed.

Section Shows.

Context {rng_state : Type}.
Implicit Types (σ : @state rng_state).

(** A call of [render_analysis] on a table with the five fields returns,
    shows the report of the subset, and only adds objects to the heap. *)
Lemma render_analysis_report σ l d (N : Z) :
  df_all σ = Some l -> heap σ !! l = Some (Own d) -> has_fields d ->
  let cur := Pipeline.subset N d in
  exists objs s,
    Pipeline.summary cur = Some s /\
    render_analysis N σ =
      Some (tt, mkState (rng σ) (heap σ ++ objs) (df_all σ)
                  (report N (shown_mean cur "Supplier_Lead_Time")
                            (shown_mean cur "Inventory_Levels")
                            (shown_mean cur "Delivery_Performance")
                            (top3 (Pipeline.correlation cur)) (Pipeline.correlation cur) s)).
Proof.
  intros Hg Hl Hd cur.
  destruct (outputs_has_fields N d Hd) as (s & Es & Eo). fold cur in Es, Eo.
  pose proof (render_analysis_run σ l d N Hg Hl) as Hrun.
  rewrite Eo in Hrun. destruct Hrun as [objs Hrun].
  exists objs, s. split; assumption.
Qed.

End Shows.

(** ** The generator *)

Section GeneratorFacts.

Context {rng_state : Type}.
Variable init_by_seed : Z -> rng_state.
Variable legacy_gauss : rng_state -> float * rng_state.
Implicit Types (σ : @state rng_state).

Lemma normal_length mu scale n s :
  length (fst (normal legacy_gauss mu scale n s)) = n.
Proof.
  revert s. induction n as [|n IH]; intros s; simpl; [reflexivity|].
  destruct (legacy_gauss s) as [g s']. specialize (IH s').
  destruct (normal legacy_gauss mu scale n s') as [rest s'']. simpl in *. now rewrite IH.
Qed.

Lemma np_random_normal_run mu scale n σ :
  np_random_normal legacy_gauss mu scale n σ =
    Some (fst (normal legacy_gauss mu scale n (rng σ)),
          mkState (snd (normal legacy_gauss mu scale n (rng σ)))
                  (heap σ) (df_all σ) (console σ)).
Proof.
  unfold np_random_normal. now destruct (normal legacy_gauss mu scale n (rng σ)).
Qed.

(** CELL 1 from any state: the generator is reseeded, the table is a new
    object bound to [df_all], and [head()] leaves a view of it. *)
Lemma cell1_run σ :
  cell1 init_by_seed legacy_gauss σ =
    Some (tt, mkState (g5 init_by_seed legacy_gauss)
                (heap σ ++ [Own (dataset init_by_seed legacy_gauss);
                            View (length (heap σ)) 0 5])
                (Some (length (heap σ))) (console σ)).
Proof.
  unfold cell1.
  rewrite bind_run. unfold np_random_seed at 1.
  do 5 (rewrite bind_run, np_random_normal_run; cbn [rng heap df_all console];
        rewrite bind_run; cbn [Np.clip lift mret M_ret]).
  rewrite bind_run. unfold pd_DataFrame.
  replace (all_same_length _) with true.
  2:{ unfold all_same_length. cbn [forallb snd]. rewrite !length_map, !normal_length.
      reflexivity. }
  match goal with
  | |- context [Own ?d] =>
      replace d with (dataset init_by_seed legacy_gauss)
  end.
  2:{ unfold dataset, supply_table, draw, g4, g3, g2, g1, g0, draw. cbn [map fst snd].
      now rewrite length_map, normal_length. }
  unfold alloc at 1. unfold set_heap. cbn [heap rng df_all console].
  rewrite bind_run. unfold bind_df_all at 1. cbn [heap rng df_all console].
  rewrite bind_run.
  rewrite (df_head_run _ _ (dataset init_by_seed legacy_gauss))
    by (cbn [heap]; apply lookup_fresh).
  unfold set_heap. cbn [heap rng df_all console mret M_ret].
  rewrite <- app_assoc. cbn [app].
  replace (len (dataset init_by_seed legacy_gauss)) with 74%nat.
  2:{ unfold len, dataset, supply_table, range_index; cbn [index].
      now rewrite length_map, length_seq. }
  reflexivity.
Qed.

Lemma dataset_len : len (dataset init_by_seed legacy_gauss) = 74%nat.
Proof.
  unfold len, dataset, supply_table, range_index; cbn [index].
  now rewrite length_map, length_seq.
Qed.

Lemma dataset_well_formed : well_formed (dataset init_by_seed legacy_gauss).
Proof.
  unfold well_formed. rewrite dataset_len. unfold dataset, supply_table, draw; cbn [data].
  repeat (apply List.Forall_cons; [cbn [snd col_length]; now rewrite length_map, normal_length|]).
  constructor.
Qed.

Lemma dataset_has_fields : has_fields (dataset init_by_seed legacy_gauss).
Proof. unfold dataset. repeat eexists. Qed.

End GeneratorFacts.

(** *** Clamping *)

Lemma maximum_at_least lo x :
  is_nan x = false -> at_least lo lo = true -> at_least lo (Np.maximum x lo) = true.
Proof.
  unfold at_least, Np.maximum. intros Hx Hlo. rewrite Hx, orb_false_r.
  destruct (lo <=? x)%float eqn:E; assumption.
Qed.

Lemma npy_clip_within lo hi x :
  is_nan x = false -> is_nan lo = false -> (lo <? hi)%float = true ->
  within lo hi (Np.npy_clip x lo hi) = true.
Proof.
  unfold within, Np.npy_clip, Np.npy_max, Np.npy_min. intros Hx Hlo Hlt. rewrite Hx.
  assert (Hhi : is_nan hi = false).
  { destruct (is_nan hi) eqn:E; [|reflexivity]. now rewrite FloatOrder.ltb_nan_r in Hlt. }
  destruct (lo <? x)%float eqn:E1.
  - rewrite Hx. destruct (x <? hi)%float eqn:E2.
    + now rewrite (FloatOrder.leb_of_ltb _ _ E1), (FloatOrder.leb_of_ltb _ _ E2).
    + rewrite (FloatOrder.leb_of_ltb _ _ Hlt).
      apply andb_true_iff; split; [reflexivity|].
      apply FloatOrder.leb_of_not_ltb; try assumption. apply FloatOrder.ltb_irrefl.
  - rewrite Hlo, Hlt. rewrite (FloatOrder.leb_of_ltb _ _ Hlt), andb_true_r.
    apply FloatOrder.leb_of_not_ltb; try assumption. apply FloatOrder.ltb_irrefl.
Qed.

Lemma Forall_map_numbers (f : float -> float) (P : float -> Prop) (xs : list float) :
  (forall x, is_nan x = false -> P (f x)) ->
  forallb (fun x => negb (is_nan x)) xs = true ->
  List.Forall P (map f xs).
Proof.
  intros Hf H. induction xs as [|x xs IH]; simpl in *; constructor.
  - apply andb_true_iff in H as [Hx _]. apply Hf. now apply negb_true_iff.
  - apply andb_true_iff in H as [_ H]. now apply IH.
Qed.

(** A whole run is the callback on the state CELL 1 leaves. *)
Lemma session_run {rng_state : Type} (init_by_seed : Z -> rng_state)
    (legacy_gauss : rng_state -> float * rng_state) (σ : @state rng_state) (N : Z) :
  session init_by_seed legacy_gauss N σ =
  render_analysis N (mkState (g5 init_by_seed legacy_gauss)
                   (heap σ ++ [Own (dataset init_by_seed legacy_gauss);
                               View (length (heap σ)) 0%nat 5%nat])
                   (Some (length (heap σ))) (console σ)).
Proof.
  unfold session. rewrite bind_run, cell1_run. reflexivity.
Qed.

Lemma after_cell1_shows {rng_state : Type} (init_by_seed : Z -> rng_state)
    (legacy_gauss : rng_state -> float * rng_state) (σ : @state rng_state) (N : Z) :
  let st := mkState (g5 init_by_seed legacy_gauss)
                   (heap σ ++ [Own (dataset init_by_seed legacy_gauss);
                               View (length (heap σ)) 0%nat 5%nat])
                   (Some (length (heap σ))) (console σ) in
  shows st (render_analysis N st) (Pipeline.outputs N (dataset init_by_seed legacy_gauss)).
Proof.
  intros st. apply (render_analysis_run st (length (heap σ))).
  - reflexivity.
  - apply lookup_first_new.
Qed.

(** What a whole run shows is the pipeline's output on the generated
    table, whatever the state the run starts from. *)
Lemma session_shows {rng_state : Type} (init_by_seed : Z -> rng_state)
    (legacy_gauss : rng_state -> float * rng_state) (σ : @state rng_state) (N : Z) :
  shown_by (session init_by_seed legacy_gauss N) σ
  = Pipeline.outputs N (dataset init_by_seed legacy_gauss).
Proof.
  unfold shown_by. rewrite session_run.
  pose proof (after_cell1_shows init_by_seed legacy_gauss σ N) as H. cbv zeta in H.
  revert H. generalize (Pipeline.outputs N (dataset init_by_seed legacy_gauss)).
  generalize (render_analysis N
       {|
         rng := g5 init_by_seed legacy_gauss;
         heap :=
           heap σ ++
           [Own (dataset init_by_seed legacy_gauss);
            View (length (heap σ)) 0%nat 5%nat];
         df_all := Some (length (heap σ));
         console := console σ
       |}).
  intros res o H. unfold shows in H. destruct o as [out|].
  - destruct H as [objs ->]. reflexivity.
  - now rewrite H.
Qed.

(** ** Zero, NaN and quotients *)

Module FloatFacts.

Import FloatSpec.

Lemma nan_eq x : Prim2SF x = S754_nan -> x = nan.
Proof. intros H. apply Prim2SF_inj. now rewrite H. Qed.

Lemma is_zero_spec x : is_zero x = true -> exists s, Prim2SF x = S754_zero s.
Proof.
  unfold is_zero. rewrite FloatAxioms.eqb_spec. unfold SFeqb.
  change (Prim2SF PrimFloat.zero) with (S754_zero false).
  destruct (Prim2SF x) as [s|s| |s m e]; simpl; try discriminate; eauto.
  - now destruct s.
  - now destruct s.
Qed.

Lemma mul_zero_l x y : (exists s, Prim2SF x = S754_zero s) -> zero_or_nan (x * y).
Proof.
  intros [s Hx]. unfold zero_or_nan. rewrite mul_spec, Hx. unfold SF64mul.
  destruct (Prim2SF y); simpl; eauto.
Qed.

Lemma mul_zero_r x y : (exists s, Prim2SF y = S754_zero s) -> zero_or_nan (x * y).
Proof.
  intros [s Hy]. unfold zero_or_nan. rewrite mul_spec, Hy. unfold SF64mul.
  destruct (Prim2SF x); simpl; eauto.
Qed.

Lemma sqrt_zero_or_nan x : zero_or_nan x -> zero_or_nan (PrimFloat.sqrt x).
Proof.
  unfold zero_or_nan. rewrite sqrt_spec. intros [[s H]|H]; rewrite H; simpl; eauto.
Qed.

(** A quotient by a divisor that is zero or NaN, guarded as in
    [nancorr], is NaN. *)
Lemma guarded_quotient_nan c d :
  zero_or_nan d ->
  (if negb (d =? 0)%float then Corr.clip_unit (c / d) else nan) = nan.
Proof.
  intros [[s H]|H].
  - replace (d =? 0)%float with true; [reflexivity|].
    rewrite FloatAxioms.eqb_spec, H. change (Prim2SF 0) with (S754_zero false).
    now destruct s.
  - destruct (negb (d =? 0)%float); [|reflexivity].
    replace (c / d)%float with nan; [reflexivity|]. symmetry.
    apply nan_eq. rewrite div_spec, H. unfold SF64div.
    now destruct (Prim2SF c).
Qed.

Lemma div_eucl_shiftl m n :
  Z.div_eucl (Z.shiftl (Z.pos m) (Z.pos n)) (Z.pos m) = (2 ^ Z.pos n, 0).
Proof.
  rewrite Z.shiftl_mul_pow2 by lia.
  pose proof (Z.div_eucl_eq (Z.pos m * 2 ^ Z.pos n) (Z.pos m)) as H.
  assert (Hd : Z.pos m * 2 ^ Z.pos n / Z.pos m = 2 ^ Z.pos n)
    by (rewrite Z.mul_comm; apply Z.div_mul; lia).
  assert (Hm : (Z.pos m * 2 ^ Z.pos n) mod Z.pos m = 0)
    by (rewrite Z.mul_comm; apply Z.mod_mul; lia).
  unfold Z.div, Z.modulo in Hd, Hm.
  destruct (Z.div_eucl (Z.pos m * 2 ^ Z.pos n) (Z.pos m)) as [q r].
  simpl in Hd, Hm. now subst.
Qed.

(** A finite non-zero float divided by itself is exactly 1. *)
Lemma SFdiv_self s m e :
  SF64div (S754_finite s m e) (S754_finite s m e) = Prim2SF 1.
Proof.
  unfold SF64div, SFdiv, SFdiv_core_binary.
  rewrite !Z.sub_diag. cbn [Zdigits2].
  change (Z.min (fexp prec emax 0) 0) with (-53).
  change (0 - -53) with 53. cbv iota beta.
  rewrite div_eucl_shiftl.
  replace (new_location (Z.pos m) 0) with loc_Exact.
  2:{ unfold new_location, new_location_even, new_location_odd.
      now destruct (Z.even (Z.pos m)). }
  now destruct s.
Qed.

Lemma finite_spec x :
  is_finite x = true -> is_zero x = false ->
  exists s m e, Prim2SF x = S754_finite s m e.
Proof.
  unfold is_finite, is_zero, is_infinity, is_nan. intros Hf Hz.
  apply negb_true_iff, orb_false_iff in Hf as [Hn Hi].
  apply negb_false_iff in Hn.
  rewrite FloatAxioms.eqb_spec in Hn, Hz, Hi. rewrite abs_spec in Hi.
  change (Prim2SF PrimFloat.zero) with (S754_zero false) in Hz.
  change (Prim2SF PrimFloat.infinity) with (S754_infinity false) in Hi.
  destruct (Prim2SF x) as [s|s| |s m e]; simpl in *; try discriminate; eauto.
Qed.

Lemma div_self x : is_finite x = true -> is_zero x = false -> (x / x)%float = 1%float.
Proof.
  intros Hf Hz. destruct (finite_spec x Hf Hz) as (s & m & e & H).
  apply Prim2SF_inj. rewrite div_spec, H. apply SFdiv_self.
Qed.

End FloatFacts.

(** ** The correlation loop *)

Module CorrFacts.

Import Corr CorrSpec.

Lemma step_diagonal a v : diagonal a -> diagonal (step a (v, v)).
Proof.
  unfold diagonal, step. destruct a as [n mx my sx sy cxy]. cbn [meanx meany ssqdm_x ssqdm_y covxy nobs].
  intros (-> & -> & ->).
  destruct (Np.isfinite v && Np.isfinite v); cbn [meanx meany ssqdm_x ssqdm_y covxy]; auto.
Qed.

Lemma loop_diagonal x : diagonal (loop x x).
Proof.
  unfold loop. assert (H : diagonal init) by (unfold diagonal; auto).
  revert H. generalize init. induction x as [|v x IH]; intros a Ha; simpl; [assumption|].
  apply IH. now apply step_diagonal.
Qed.

Lemma loop_counted x y : counted (loop x y).
Proof.
  unfold loop. assert (H : counted init) by (unfold counted; simpl; auto with zarith).
  revert H. generalize init. generalize (combine x y) as l.
  induction l as [|[vx vy] l IH]; intros a Ha; simpl; [assumption|].
  apply IH. unfold counted, step in *.
  destruct (Np.isfinite vx && Np.isfinite vy); cbn [nobs ssqdm_x]; [|assumption].
  destruct Ha as [H0 _]. split; lia.
Qed.

Lemma loop_agree x : forall y a b c,
  length x = length y -> all_finite x = true -> all_finite y = true ->
  agree_x a b -> agree_y a c ->
  agree_x (fold_left step (combine x y) a) (fold_left step (combine x x) b) /\
  agree_y (fold_left step (combine x y) a) (fold_left step (combine y y) c).
Proof.
  induction x as [|vx x IH]; intros [|vy y] a b c Hlen Hx Hy Hb Hc; simpl in *;
    try discriminate; [now split|].
  apply andb_true_iff in Hx as [Fx Hx], Hy as [Fy Hy].
  apply IH; try assumption; try lia.
  - unfold agree_x, step in *. rewrite Fx, Fy. cbn [andb nobs meanx ssqdm_x].
    destruct Hb as (-> & -> & ->). auto.
  - unfold agree_y, step in *. rewrite Fx, Fy. cbn [andb nobs meanx meany ssqdm_x ssqdm_y].
    destruct Hc as (-> & -> & ->). auto.
Qed.

Lemma loop_sums x y :
  length x = length y -> all_finite x = true -> all_finite y = true ->
  ssqdm_x (loop x y) = sum_sq_dev x /\ ssqdm_y (loop x y) = sum_sq_dev y.
Proof.
  intros Hlen Hx Hy. unfold sum_sq_dev, loop.
  destruct (loop_agree x y init init init Hlen Hx Hy) as [(_ & _ & H1) (_ & _ & H2)];
    try (unfold agree_x, agree_y; auto).
Qed.

(** A column without variance has no coefficient with any column. *)
Lemma coefficient_zero_variance_l x y :
  length x = length y -> all_finite x = true -> all_finite y = true ->
  zero_variance x = true -> coefficient x y = nan.
Proof.
  intros Hlen Hx Hy Hz. unfold coefficient.
  destruct (nobs (loop x y) <? minp); [reflexivity|].
  destruct (loop_sums x y Hlen Hx Hy) as [-> _].
  apply FloatFacts.guarded_quotient_nan, FloatFacts.sqrt_zero_or_nan, FloatFacts.mul_zero_l.
  now apply FloatFacts.is_zero_spec.
Qed.

Lemma coefficient_zero_variance_r x y :
  length x = length y -> all_finite x = true -> all_finite y = true ->
  zero_variance y = true -> coefficient x y = nan.
Proof.
  intros Hlen Hx Hy Hz. unfold coefficient.
  destruct (nobs (loop x y) <? minp); [reflexivity|].
  destruct (loop_sums x y Hlen Hx Hy) as [_ ->].
  apply FloatFacts.guarded_quotient_nan, FloatFacts.sqrt_zero_or_nan, FloatFacts.mul_zero_r.
  now apply FloatFacts.is_zero_spec.
Qed.

(** A column whose sum of squared deviations [s] is a finite non-zero
    number whose square is computed without loss ([sqrt (s * s) = s])
    has coefficient exactly 1 with itself. *)
Lemma coefficient_self x :
  let s := sum_sq_dev x in
  is_finite s = true -> is_zero s = false -> PrimFloat.sqrt (s * s) = s ->
  coefficient x x = 1%float.
Proof.
  intros s Hf Hz Hs. unfold coefficient.
  destruct (loop_diagonal x) as (_ & H2 & H3).
  destruct (loop_counted x x) as [H0 H1].
  fold (sum_sq_dev x) in *. fold s in H1, H2, H3.
  destruct (Z.ltb_spec (nobs (loop x x)) minp) as [Hlt|_].
  - unfold minp in Hlt. rewrite H1 in Hz by lia. discriminate.
  - fold s. rewrite <- H2, H3, Hs. unfold is_zero in Hz.
    replace (s =? 0)%float with false by (symmetry; exact Hz). cbn [negb].
    rewrite FloatFacts.div_self by assumption. reflexivity.
Qed.

Lemma entry_sym cols i j : entry cols i j = entry cols j i.
Proof. unfold entry. now rewrite Nat.max_comm, Nat.min_comm. Qed.

End CorrFacts.

(** ** Properties of the ranking *)

Lemma ltb_of_eqb a b : (a =? b)%float = true -> (a <? b)%float = false.
Proof.
  intros H.
  destruct (is_nan a) eqn:Ha.
  { apply FloatOrder.is_nan_spec in Ha. rewrite FloatAxioms.eqb_spec, Ha in H. discriminate. }
  destruct (is_nan b) eqn:Hb.
  { apply FloatOrder.is_nan_spec in Hb. rewrite FloatAxioms.eqb_spec, Hb in H.
    unfold SFeqb in H. now rewrite FloatOrder.SFcompare_nan_r in H. }
  destruct (a <? b)%float eqn:E; [|reflexivity].
  apply FloatOrder.eqb_lex in H; try assumption.
  apply FloatOrder.ltb_lex in E; try assumption.
  rewrite H in E. now apply FloatOrder.lex_lt_irrefl in E.
Qed.

Section Ranking.

Variable cands : list triple.

Let keys := map abs_corr cands.
Let ord := ranking_order cands.

Lemma ranking_unfold : ranking cands = map (fun i => nth i cands no_triple) ord.
Proof. reflexivity. Qed.

Lemma ranking_order_perm : Permutation ord (seq 0 (length cands)).
Proof.
  unfold ord, ranking_order.
  rewrite <- (length_map abs_corr cands). apply NargsortFacts.nargsort_perm.
Qed.

Lemma ranking_order_sorted : StronglySorted (desc_before keys) ord.
Proof. apply NargsortFacts.nargsort_desc_sorted. Qed.

Lemma ranking_perm : Permutation (ranking cands) cands.
Proof.
  rewrite ranking_unfold.
  etransitivity; [apply Permutation_map, ranking_order_perm|].
  now rewrite NargsortFacts.map_nth_seq.
Qed.

Lemma ranking_length : length (ranking cands) = length cands.
Proof. apply Permutation_length, ranking_perm. Qed.

Lemma key_nth i : nth i keys nan = abs_corr (nth i cands no_triple).
Proof.
  unfold keys. change nan with (abs_corr no_triple) at 1. apply map_nth.
Qed.

Lemma ranking_nth i :
  (i < length cands)%nat ->
  nth i (ranking cands) no_triple = nth (nth i ord O) cands no_triple.
Proof.
  intros Hi. rewrite ranking_unfold.
  rewrite (nth_indep _ no_triple (nth O cands no_triple)).
  - apply (map_nth (fun i => nth i cands no_triple)).
  - rewrite length_map, (Permutation_length ranking_order_perm), length_seq. exact Hi.
Qed.

(** Descending absolute values, NaN after the numbers. *)
Lemma ranking_descending i j :
  (i < j < length cands)%nat ->
  let x := abs_corr (nth i (ranking cands) no_triple) in
  let y := abs_corr (nth j (ranking cands) no_triple) in
  (is_nan x = true -> is_nan y = true) /\
  (is_nan x = false -> is_nan y = true \/ (y <=? x)%float = true).
Proof.
  intros Hij. cbv zeta. rewrite !ranking_nth by lia. rewrite <- !key_nth.
  assert (Hlen : length ord = length cands)
    by (rewrite (Permutation_length ranking_order_perm); apply length_seq).
  pose proof (StronglySorted_nth _ _ O i j ranking_order_sorted) as H.
  rewrite Hlen in H. specialize (H Hij). unfold desc_before in H. cbv zeta in H.
  destruct (is_nan (nth (nth i ord O) keys nan)) eqn:Ei.
  - split; [intros _; apply H|discriminate].
  - split; [discriminate|]. intros _.
    destruct H as [H|[H|[H _]]]; [now left| |].
    + right. now apply FloatOrder.leb_of_ltb.
    + destruct (is_nan (nth (nth j ord O) keys nan)) eqn:Ej; [now left|]. right.
      apply FloatOrder.leb_of_not_ltb; try assumption.
      apply ltb_of_eqb. exact H.
Qed.

End Ranking.

(** ** The correlation matrix of a table with the five fields *)

Lemma In_field_names a :
  In a field_names ->
  a = "Supplier_Lead_Time"%string \/ a = "Inventory_Levels"%string \/
  a = "Order_Frequency"%string \/ a = "Delivery_Performance"%string \/
  a = "Cost_Per_Unit"%string.
Proof. simpl. intuition. Qed.

Ltac each_field H :=
  apply In_field_names in H;
  destruct H as [H|[H|[H|[H|H]]]]; subst.

(** Every cell of the matrix is the rounded coefficient of the two
    columns, the one further right in the table taken first. *)
Lemma correlation_cell ix c1 c2 c3 c4 c5 a b :
  In a field_names -> In b field_names ->
  cell (Pipeline.correlation (supply_table ix c1 c2 c3 c4 c5)) a b =
    Some (VNum (Np.round 3 (Corr.entry [c1; c2; c3; c4; c5]
                              (field_position a) (field_position b)))).
Proof. intros Ha Hb. each_field Ha; each_field Hb; reflexivity. Qed.

Lemma field_nth ix c1 c2 c3 c4 c5 a :
  In a field_names ->
  field (supply_table ix c1 c2 c3 c4 c5) a = nth (field_position a) [c1; c2; c3; c4; c5] [].
Proof. intros Ha. each_field Ha; reflexivity. Qed.

Lemma field_position_bound a : In a field_names -> (field_position a < 5)%nat.
Proof. intros Ha. each_field Ha; vm_compute; lia. Qed.

(** The matrix is symmetric. *)
Lemma correlation_symmetric d a b :
  has_fields d -> In a field_names -> In b field_names ->
  cell (Pipeline.correlation d) a b = cell (Pipeline.correlation d) b a.
Proof.
  intros (ix & c1 & c2 & c3 & c4 & c5 & ->) Ha Hb.
  rewrite !correlation_cell by assumption. now rewrite CorrFacts.entry_sym.
Qed.

Lemma subset_well_formed N d : well_formed d -> well_formed (Pipeline.subset N d).
Proof.
  unfold well_formed, Pipeline.subset.
  set (lo := (len d - _)%nat). intros H.
  assert (Hlen : len (reset_index_drop (iloc_rows lo (len d) d))
                 = Nat.min (len d - lo) (len d - lo)).
  { unfold len, reset_index_drop, iloc_rows, range_index; cbn [index].
    rewrite length_map, length_seq. unfold len; cbn [index].
    now rewrite length_take, length_drop. }
  rewrite Hlen. unfold reset_index_drop, iloc_rows; cbn [data].
  apply List.Forall_forall. intros kc Hkc.
  apply in_map_iff in Hkc as [[k c] [<- Hin]].
  rewrite List.Forall_forall in H. specialize (H _ Hin). cbn [snd] in *.
  destruct c as [v|v]; cbn [col_rows col_length] in *;
    rewrite !length_take, !length_drop; lia.
Qed.

Lemma well_formed_fields ix c1 c2 c3 c4 c5 :
  well_formed (supply_table ix c1 c2 c3 c4 c5) ->
  forall i j, (i < 5)%nat -> (j < 5)%nat ->
    length (nth i [c1; c2; c3; c4; c5] []) = length (nth j [c1; c2; c3; c4; c5] []).
Proof.
  unfold well_formed, supply_table; cbn [data]. intros H i j Hi Hj.
  repeat (apply Forall_cons_1 in H as [? H]). cbn [snd col_length] in *.
  do 5 (destruct i as [|i]; [do 5 (destruct j as [|j]; [cbn [nth]; congruence|]); lia|]); lia.
Qed.

Lemma table_finite_fields ix c1 c2 c3 c4 c5 :
  table_finite (supply_table ix c1 c2 c3 c4 c5) = true ->
  forall i, (i < 5)%nat -> all_finite (nth i [c1; c2; c3; c4; c5] []) = true.
Proof.
  unfold table_finite, supply_table, numeric_data; cbn [data flat_map snd fst app forallb].
  intros H i Hi. repeat (apply andb_true_iff in H as [? H]).
  do 5 (destruct i as [|i]; [assumption|]). lia.
Qed.

(** Every cell in the row and in the column of a field without variance
    is NaN, the diagonal included. *)
Lemma correlation_zero_variance d a b :
  has_fields d -> well_formed d -> table_finite d = true ->
  In a field_names -> In b field_names ->
  zero_variance (field d a) = true ->
  cell (Pipeline.correlation d) a b = Some (VNum nan) /\
  cell (Pipeline.correlation d) b a = Some (VNum nan).
Proof.
  intros (ix & c1 & c2 & c3 & c4 & c5 & ->) Hwf Hfin Ha Hb Hz.
  rewrite (correlation_symmetric _ b a) by (try assumption; repeat eexists).
  split; rewrite correlation_cell by assumption;
    (replace (Corr.entry _ _ _) with nan; [reflexivity|]); symmetry.
  all: rewrite field_nth in Hz by assumption.
  all: pose proof (field_position_bound a Ha) as Pa.
  all: pose proof (field_position_bound b Hb) as Pb.
  all: unfold Corr.entry.
  all: destruct (Nat.max_spec (field_position a) (field_position b)) as [[Hlt ->]|[Hlt ->]];
       [rewrite Nat.min_l by lia; apply CorrFacts.coefficient_zero_variance_r
       |rewrite Nat.min_r by lia; apply CorrFacts.coefficient_zero_variance_l].
  all: try assumption.
  all: try (apply (well_formed_fields _ _ _ _ _ _ Hwf); assumption).
  all: apply (table_finite_fields _ _ _ _ _ _ Hfin); assumption.
Qed.

(** The diagonal cell of a field is exactly 1 when the sum of squared
    deviations [s] of the field is a finite non-zero number with
    [sqrt (s * s) = s]. *)
Lemma correlation_diagonal d a :
  has_fields d -> In a field_names ->
  let s := sum_sq_dev (field d a) in
  is_finite s = true -> is_zero s = false -> PrimFloat.sqrt (s * s) = s ->
  cell (Pipeline.correlation d) a a = Some (VNum 1).
Proof.
  intros (ix & c1 & c2 & c3 & c4 & c5 & ->) Ha s Hf Hz Hs.
  rewrite correlation_cell by assumption. subst s.
  rewrite field_nth in * by assumption.
  unfold Corr.entry. rewrite Nat.max_id, Nat.min_id.
  rewrite CorrFacts.coefficient_self by assumption. reflexivity.
Qed.

(** ** The pairs of a ranking *)

Lemma pair_names_zip3 (l : list (label * label)) (v : list float) :
  length v = length l ->
  map pair_names (zip3 (map fst l) (map snd l) v) = l.
Proof.
  revert v. induction l as [|[a b] l IH]; intros [|x v] H; simpl in *; try discriminate;
    [reflexivity|]. unfold pair_names at 1; simpl. f_equal. apply IH. lia.
Qed.

Lemma entries_names c : square_like c -> map pair_names (entries c) = s_index (unstack c).
Proof.
  intros Hsq. destruct (unstack_lengths c Hsq) as (LA & _). cbv zeta in LA.
  unfold entries. apply pair_names_zip3. now rewrite length_map in LA.
Qed.

Lemma NoDup_pairs (ks : list label) (rs : list label) :
  List.NoDup ks -> List.NoDup rs ->
  List.NoDup (flat_map (fun k => map (fun r => (k, r)) rs) ks).
Proof.
  intros Hk Hr. induction Hk as [|k ks Hnin Hk IH]; simpl; [constructor|].
  apply List.NoDup_app.
  - apply NoDup_map_NoDup_ForallPairs; [|assumption]. intros x y _ _ H. now inversion H.
  - assumption.
  - intros [a b] H1 H2. apply in_map_iff in H1 as [r [E _]]. inversion E; subst.
    apply in_flat_map in H2 as [k' [Hk' H2]].
    apply in_map_iff in H2 as [r' [E' _]]. inversion E'; subst. contradiction.
Qed.

Lemma numeric_labels_flat_map (nd : list (label * list float)) (rs : list label) :
  flat_map (fun kv : label * list float => map (fun r => (fst kv, r)) rs) nd
  = flat_map (fun k => map (fun r => (k, r)) rs) (map fst nd).
Proof. induction nd as [|kv nd IH]; simpl; [reflexivity|]. now rewrite IH. Qed.

Lemma NoDup_map_filter {A B} (f : A -> B) (p : A -> bool) (l : list A) :
  List.NoDup (map f l) -> List.NoDup (map f (List.filter p l)).
Proof.
  induction l as [|a l IH]; simpl; intros H; [constructor|].
  inversion H as [|? ? Hnin Hl]; subst. destruct (p a); simpl; [|now apply IH].
  constructor; [|now apply IH]. intros Hin. apply Hnin.
  apply in_map_iff in Hin as [x [E Hx]]. apply List.filter_In in Hx as [Hx _].
  apply in_map_iff. eauto.
Qed.

Lemma NoDup_take_list {A} (l : list A) n : List.NoDup l -> List.NoDup (take n l).
Proof.
  intros H. revert n. induction H as [|a l Hnin Hl IH]; intros [|n]; simpl; try constructor.
  - intros Hin. apply Hnin. apply list_elem_of_In. eapply subseteq_take.
    apply list_elem_of_In. eassumption.
  - apply IH.
Qed.

Lemma In_take {A} (l : list A) n x : In x (take n l) -> In x l.
Proof.
  intros H. apply list_elem_of_In. eapply subseteq_take. apply list_elem_of_In. eassumption.
Qed.

Lemma string_ltb_asym s t : String.ltb s t = true -> String.ltb t s = false.
Proof.
  unfold String.ltb. rewrite (String.compare_antisym t s).
  destruct (String.compare s t); simpl; congruence.
Qed.

Lemma string_ltb_irrefl s : String.ltb s s = false.
Proof.
  destruct (String.ltb s s) eqn:E; [|reflexivity].
  pose proof (string_ltb_asym _ _ E). congruence.
Qed.

Lemma In_zip3 a b (v : list float) t :
  In t (zip3 a b v) -> In t.1.1 a /\ In t.1.2 b /\ In t.2 v.
Proof.
  revert b v. induction a as [|x a IH]; intros [|y b] [|z v] H; simpl in *; try contradiction.
  destruct H as [<-|H]; [simpl; auto|]. apply IH in H. tauto.
Qed.

Lemma entries_strings c t :
  square_like c -> In t (entries c) -> is_str t.1.1 = true /\ is_str t.1.2 = true.
Proof.
  intros Hsq Ht. destruct (unstack_lengths c Hsq) as (_ & _ & SA & SB). cbv zeta in *.
  apply In_zip3 in Ht as (Ha & Hb & _).
  rewrite forallb_forall in SA, SB. auto.
Qed.

(** The names of a candidate: two strings, the first one below the second. *)
Lemma is_candidate_names t :
  is_str t.1.1 = true -> is_str t.1.2 = true -> is_candidate t = true ->
  exists a b, pair_names t = (LStr a, LStr b) /\ String.ltb a b = true.
Proof.
  destruct t as [[[a|a] [b|b]] x]; unfold is_candidate, pair_names; simpl; try discriminate.
  intros _ _ H. exists a, b. split; [reflexivity|]. now destruct (String.ltb a b).
Qed.

Section Top3.

Variable c : DataFrame.
Hypothesis Hsq : square_like c.

Lemma top3_length : length (top3 c) = Nat.min 3 (length (candidates c)).
Proof using Type. unfold top3. now rewrite length_take, ranking_length. Qed.

Lemma top3_candidates t : In t (top3 c) -> In t (candidates c).
Proof using Type.
  intros H. apply In_take in H. now apply (Permutation_in _ (ranking_perm _)) in H.
Qed.

Lemma top3_ordered t :
  In t (top3 c) ->
  exists a b, pair_names t = (LStr a, LStr b) /\ String.ltb a b = true.
Proof using Hsq.
  intros H. apply top3_candidates in H. unfold candidates in H.
  apply List.filter_In in H as [Hin H].
  destruct (entries_strings c t Hsq Hin). now apply is_candidate_names.
Qed.

Lemma candidates_NoDup :
  List.NoDup (columns c) -> List.NoDup (index c) ->
  List.NoDup (map pair_names (candidates c)).
Proof using Hsq.
  intros Hc Hi. unfold candidates. apply NoDup_map_filter.
  rewrite entries_names by assumption. unfold unstack; cbn [s_index].
  rewrite numeric_labels_flat_map. apply NoDup_pairs; [|assumption].
  destruct Hsq as [_ Hcols]. unfold columns in Hc.
  replace (map fst (numeric_data c)) with (map fst (data c)); [assumption|].
  unfold numeric_data. clear Hc. induction Hcols as [|[k col] rest [_ [v [E _]]] _ IH];
    simpl; [reflexivity|]. simpl in E. subst col. simpl. now rewrite IH.
Qed.

Lemma top3_NoDup :
  List.NoDup (columns c) -> List.NoDup (index c) ->
  List.NoDup (map pair_names (top3 c)).
Proof using Hsq.
  intros Hc Hi. unfold top3. rewrite <- firstn_map. apply NoDup_take_list.
  eapply Permutation_NoDup; [symmetry; apply Permutation_map, ranking_perm|].
  now apply candidates_NoDup.
Qed.

(** A pair and its mirror image are never both ranked, and no field is
    paired with itself. *)
Lemma top3_no_mirror t u :
  In t (top3 c) -> In u (top3 c) -> pair_names t <> (snd (pair_names u), fst (pair_names u)).
Proof using Hsq.
  intros Ht Hu E.
  destruct (top3_ordered t Ht) as (a & b & Et & Hab).
  destruct (top3_ordered u Hu) as (a' & b' & Eu & Hab').
  rewrite Et, Eu in E. simpl in E. inversion E; subst.
  pose proof (string_ltb_asym _ _ Hab). congruence.
Qed.

Lemma top3_no_self t : In t (top3 c) -> fst (pair_names t) <> snd (pair_names t).
Proof using Hsq.
  intros Ht E. destruct (top3_ordered t Ht) as (a & b & Et & Hab).
  rewrite Et in E. simpl in E. inversion E; subst. rewrite string_ltb_irrefl in Hab.
  discriminate.
Qed.

Lemma top3_all : (length (candidates c) < 3)%nat -> Permutation (top3 c) (candidates c).
Proof using Type.
  intros H. unfold top3. rewrite take_ge by (rewrite ranking_length; lia).
  apply ranking_perm.
Qed.

End Top3.

(** ** A constant column has no variance *)

Module ConstantColumn.

Import FloatSpec Corr.

Lemma mul_two52 m : (4503599627370496 * m)%positive = Pos.iter xO m 52.
Proof. reflexivity. Qed.

Lemma digits_shift52 m :
  Z.pos (digits2_pos (Pos.iter xO m 52)) = Z.pos (digits2_pos m) + 52.
Proof. cbn [Pos.iter digits2_pos]. lia. Qed.

Lemma shr_shift52 m :
  SpecFloat.iter_pos shr_1 52
    {| shr_m := Z.pos (Pos.iter xO m 52); shr_r := false; shr_s := false |}
  = {| shr_m := Z.pos m; shr_r := false; shr_s := false |}.
Proof. reflexivity. Qed.

(** The product of 1 and a finite number is that number: the mantissa
    shifted left by 52 bits is shifted back without loss. *)
Lemma SFmul_one_l s m e :
  bounded prec emax m e = true ->
  SF64mul (S754_finite false 4503599627370496 (-52)) (S754_finite s m e) = S754_finite s m e.
Proof.
  intros Hb. unfold bounded, canonical_mantissa in Hb.
  apply andb_true_iff in Hb as [Hc He].
  apply Z.eqb_eq in Hc.
  unfold SF64mul, SFmul. cbn [xorb]. rewrite mul_two52.
  unfold binary_round_aux, shr_fexp.
  cbn [Zdigits2]. rewrite digits_shift52.
  replace (Z.pos (digits2_pos m) + 52 + (-52 + e)) with (Z.pos (digits2_pos m) + e) by lia.
  rewrite Hc. replace (e - (-52 + e)) with 52 by lia.
  unfold shr_record_of_loc, shr. rewrite shr_shift52.
  cbn [shr_m loc_of_shr_record round_nearest_even Zdigits2].
  replace (-52 + e + 52) with e by lia. rewrite Hc, Z.sub_diag.
  cbn [shr_m]. now rewrite He.
Qed.

Lemma mul_one_l x : is_number x -> (1 * x)%float = x.
Proof.
  intros (s & m & e & H).
  pose proof (Prim2SF_valid x) as Hv. rewrite H in Hv. cbn [SpecFloat.valid_binary] in Hv.
  apply Prim2SF_inj. rewrite mul_spec, H.
  change (Prim2SF 1) with (S754_finite false 4503599627370496 (-52)).
  now apply SFmul_one_l.
Qed.

Lemma sub_self x : is_number x -> (x - x)%float = 0%float.
Proof.
  intros (s & m & e & H). apply Prim2SF_inj. rewrite sub_spec, H.
  unfold SF64sub, SFsub. rewrite Z.min_id. unfold shl_align. rewrite ?Z.sub_diag.
  cbn [fst]. rewrite ?Z.sub_diag. reflexivity.
Qed.

Lemma sub_zero_r x : is_number x -> (x - 0)%float = x.
Proof.
  intros (s & m & e & H). apply Prim2SF_inj. rewrite sub_spec, H. reflexivity.
Qed.

Lemma add_zero_l x : is_number x -> (0 + x)%float = x.
Proof.
  intros (s & m & e & H). apply Prim2SF_inj. rewrite add_spec, H. reflexivity.
Qed.

Lemma add_null_r x z : is_number x -> is_null z -> (x + z)%float = x.
Proof.
  intros (s & m & e & H) [t Hz]. apply Prim2SF_inj. rewrite add_spec, H, Hz. reflexivity.
Qed.

Lemma null_zero : is_null 0.
Proof. now exists false. Qed.

Lemma null_add a b : is_null a -> is_null b -> is_null (a + b).
Proof.
  intros [s Ha] [t Hb]. unfold is_null. rewrite add_spec, Ha, Hb.
  destruct s, t; simpl; eauto.
Qed.

Lemma null_sub a b : is_null a -> is_null b -> is_null (a - b).
Proof.
  intros [s Ha] [t Hb]. unfold is_null. rewrite sub_spec, Ha, Hb.
  destruct s, t; simpl; eauto.
Qed.

Lemma null_mul a b : is_null a -> is_null b -> is_null (a * b).
Proof.
  intros [s Ha] [t Hb]. unfold is_null. rewrite mul_spec, Ha, Hb. simpl; eauto.
Qed.

Lemma null_mul_number_l c z : is_number c -> is_null z -> is_null (c * z).
Proof.
  intros (s & m & e & H) [t Hz]. unfold is_null. rewrite mul_spec, H, Hz. simpl; eauto.
Qed.

Lemma null_mul_number_r z c : is_null z -> is_number c -> is_null (z * c).
Proof.
  intros [t Hz] (s & m & e & H). unfold is_null. rewrite mul_spec, H, Hz. simpl; eauto.
Qed.

Lemma null_is_zero z : is_null z -> is_zero z = true.
Proof.
  intros [s H]. unfold is_zero. rewrite FloatAxioms.eqb_spec, H.
  change (Prim2SF PrimFloat.zero) with (S754_zero false). now destruct s.
Qed.

(** The reciprocal of a count up to 74 is a finite number. *)
Lemma reciprocal_number k : 1 <= k <= 74 -> is_number (1 / float_of_Z k).
Proof.
  intros Hk.
  assert (Hall : forallb (fun n => let c := (1 / float_of_Z (Z.of_nat n))%float in
                                   is_finite c && negb (is_zero c)) (seq 1 74) = true)
    by (vm_compute; reflexivity).
  rewrite forallb_forall in Hall.
  assert (Hin : In (Z.to_nat k) (seq 1 74)) by (apply in_seq; lia).
  specialize (Hall _ Hin). rewrite Z2Nat.id in Hall by lia. cbv zeta in Hall.
  apply andb_true_iff in Hall as [Hf Hz].
  apply negb_true_iff in Hz. now apply FloatFacts.finite_spec.
Qed.

(** What [y == v] says about [y], by the class of [v]. *)
Lemma eqb_number y v : is_number v -> (y =? v)%float = true -> y = v.
Proof.
  intros (s & m & e & H) E. rewrite FloatAxioms.eqb_spec, H in E.
  apply Prim2SF_inj. rewrite H. unfold SFeqb, SFcompare in E.
  destruct (Prim2SF y) as [t|t| |t n f]; try discriminate;
    destruct t, s; try discriminate.
  all: destruct (Z.compare_spec f e); try discriminate; subst.
  all: change (Pos.compare_cont Eq n m) with (Pos.compare n m) in E.
  all: destruct (Pos.compare_spec n m); try discriminate; now subst.
Qed.

Lemma eqb_null y v : is_null v -> (y =? v)%float = true -> is_null y.
Proof.
  intros [s H] E. rewrite FloatAxioms.eqb_spec, H in E. unfold is_null.
  unfold SFeqb, SFcompare in E.
  destruct (Prim2SF y) as [t|t| |t n f]; try discriminate; eauto;
    destruct t; discriminate.
Qed.

Lemma eqb_infinite y v s :
  Prim2SF v = S754_infinity s -> (y =? v)%float = true -> Np.isfinite y = false.
Proof.
  intros H E. rewrite FloatAxioms.eqb_spec, H in E.
  unfold Np.isfinite, is_finite, is_nan, is_infinity.
  rewrite !FloatAxioms.eqb_spec, abs_spec.
  change (Prim2SF PrimFloat.infinity) with (S754_infinity false).
  unfold SFeqb, SFcompare in E.
  destruct (Prim2SF y) as [t|t| |t n f]; try discriminate; simpl;
    try reflexivity; destruct t, s; simpl; first [discriminate | reflexivity].
Qed.

Lemma eqb_not_nan y v : Prim2SF v = S754_nan -> (y =? v)%float = false.
Proof.
  intros H. rewrite FloatAxioms.eqb_spec, H. unfold SFeqb, SFcompare.
  now destruct (Prim2SF y).
Qed.

Lemma null_finite z : is_null z -> Np.isfinite z = true.
Proof.
  intros [s H]. unfold Np.isfinite, is_finite, is_nan, is_infinity.
  rewrite !FloatAxioms.eqb_spec, abs_spec, H.
  change (Prim2SF PrimFloat.infinity) with (S754_infinity false). now destruct s.
Qed.

Lemma number_finite v : is_number v -> Np.isfinite v = true.
Proof.
  intros (s & m & e & H). unfold Np.isfinite, is_finite, is_nan, is_infinity.
  rewrite !FloatAxioms.eqb_spec, abs_spec, H.
  change (Prim2SF PrimFloat.infinity) with (S754_infinity false).
  unfold SFeqb, SFcompare; cbn [SFabs].
  change (Pos.compare_cont Eq m m) with (Pos.compare m m).
  destruct s; rewrite Z.compare_refl, Pos.compare_refl; reflexivity.
Qed.

(** The loop over a column of zeros. *)
Lemma loop_null l : forall a,
  List.Forall is_null l -> 0 <= nobs a -> nobs a + Z.of_nat (length l) <= 74 ->
  is_null (meanx a) -> is_null (ssqdm_x a) ->
  is_null (ssqdm_x (fold_left step (combine l l) a)).
Proof.
  induction l as [|y l IH]; intros a Hl H0 Hn Hm Hs; simpl; [assumption|].
  apply Forall_cons_1 in Hl as [Hy Hl]. simpl in Hn.
  rewrite (null_finite y Hy). cbn [andb].
  assert (Hc : is_number (1 / float_of_Z (nobs a + 1))) by (apply reciprocal_number; lia).
  apply IH; cbn [nobs meanx ssqdm_x]; try assumption; try lia.
  - apply null_add; [assumption|]. apply null_mul_number_l; [assumption|].
    now apply null_sub.
  - apply null_add; [assumption|]. apply null_mul; [|now apply null_sub].
    apply null_sub; [assumption|].
    apply null_add; [assumption|]. apply null_mul_number_l; [assumption|].
    now apply null_sub.
Qed.

(** The loop over further copies of the mean. *)
Lemma loop_number v l : forall a,
  is_number v -> List.Forall (eq v) l ->
  0 <= nobs a -> nobs a + Z.of_nat (length l) <= 74 ->
  meanx a = v -> is_null (ssqdm_x a) ->
  is_null (ssqdm_x (fold_left step (combine l l) a)).
Proof.
  intros a Hv. revert a.
  induction l as [|y l IH]; intros a Hl H0 Hn Hm Hs; simpl; [assumption|].
  apply Forall_cons_1 in Hl as [<- Hl]. simpl in Hn.
  rewrite (number_finite v Hv). cbn [andb].
  assert (Hc : is_number (1 / float_of_Z (nobs a + 1))) by (apply reciprocal_number; lia).
  assert (Hd : (v - meanx a)%float = 0%float) by (rewrite Hm; now apply sub_self).
  assert (Hmean : (meanx a + 1 / float_of_Z (nobs a + 1) * (v - meanx a))%float = v).
  { rewrite Hd, Hm. apply add_null_r; [assumption|].
    apply null_mul_number_l; [assumption|apply null_zero]. }
  apply IH; cbn [nobs meanx ssqdm_x]; try assumption; try lia.
  rewrite Hmean, Hd. apply null_add; [assumption|].
  apply null_mul; [|apply null_zero]. rewrite sub_self by assumption. apply null_zero.
Qed.

(** The loop over values that are not finite keeps the start. *)
Lemma loop_skipped l : forall a,
  List.Forall (fun y => Np.isfinite y = false) l -> fold_left step (combine l l) a = a.
Proof.
  induction l as [|y l IH]; intros a Hl; simpl; [reflexivity|].
  apply Forall_cons_1 in Hl as [Hy Hl]. rewrite Hy. cbn [andb]. now apply IH.
Qed.

Lemma constant_zero_variance x :
  (length x <= 74)%nat -> constant x = true -> zero_variance x = true.
Proof.
  intros Hlen Hc. unfold zero_variance, sum_sq_dev, loop. apply null_is_zero.
  unfold constant in Hc. rewrite forallb_forall in Hc.
  destruct x as [|v x]; [apply null_zero|]. cbn [hd] in Hc.
  destruct (Prim2SF v) as [s|s| |s m e] eqn:Ev.
  - (* zeros *)
    apply loop_null.
    + apply List.Forall_forall. intros y Hy. apply (eqb_null y v); [now exists s|now apply Hc].
    + cbn [nobs init]. lia.
    + cbn [nobs init]. lia.
    + apply null_zero.
    + apply null_zero.
  - (* infinities: every row is skipped *)
    rewrite loop_skipped; [apply null_zero|].
    apply List.Forall_forall. intros y Hy. apply (eqb_infinite y v s Ev). now apply Hc.
  - (* NaN is not equal to itself *)
    specialize (Hc v (or_introl eq_refl)). rewrite (eqb_not_nan v v Ev) in Hc. discriminate.
  - (* a finite number *)
    assert (Hv : is_number v) by (now exists s, m, e).
    cbn [combine fold_left step]. rewrite (number_finite v Hv).
    cbn [andb nobs meanx ssqdm_x init].
    change (0 + 1) with 1.
    change (1 / float_of_Z 1)%float with 1%float.
    rewrite (sub_zero_r v Hv), (mul_one_l v Hv), (add_zero_l v Hv).
    apply (loop_number v); cbn [nobs meanx ssqdm_x].
    + assumption.
    + apply List.Forall_forall. intros y Hy. symmetry. apply (eqb_number y v Hv).
      apply Hc. now right.
    + lia.
    + simpl in Hlen. lia.
    + reflexivity.
    + rewrite (sub_self v Hv). apply null_add; [apply null_zero|].
      apply null_mul_number_r; [apply null_zero|assumption].
Qed.

End ConstantColumn.

(** ** The candidates of a table with the five fields *)

Lemma candidates_enumerated d :
  has_fields d -> map pair_names (candidates (Pipeline.correlation d)) = enumerated_pairs.
Proof. intros (ix & c1 & c2 & c3 & c4 & c5 & ->). reflexivity. Qed.

Lemma candidates_rounded d :
  has_fields d ->
  candidates (Pipeline.correlation d)
  = map (fun t : triple => (t.1, Np.round 3 t.2)) (candidates (corr d)).
Proof. intros (ix & c1 & c2 & c3 & c4 & c5 & ->). reflexivity. Qed.

Lemma candidates_ten d : has_fields d -> length (candidates (Pipeline.correlation d)) = 10%nat.
Proof.
  intros H. rewrite <- (length_map pair_names), (candidates_enumerated d H). reflexivity.
Qed.

(** ** NaN in the ranking *)

Lemma is_nan_abs x : is_nan (abs x) = is_nan x.
Proof.
  destruct (is_nan x) eqn:E.
  - apply FloatOrder.is_nan_spec. rewrite abs_spec.
    apply FloatOrder.is_nan_spec in E. now rewrite E.
  - apply FloatOrder.not_nan_spec. rewrite abs_spec.
    apply FloatOrder.not_nan_spec in E. now destruct (Prim2SF x).
Qed.

Lemma top3_nth c i :
  (i < length (top3 c))%nat -> nth i (top3 c) no_triple = nth i (ranking (candidates c)) no_triple.
Proof.
  intros Hi. unfold top3 in *. rewrite length_take in Hi.
  rewrite nth_firstn. destruct (Nat.ltb_spec i 3); [reflexivity|lia].
Qed.

Lemma top3_nan_last c : nan_last (top3 c).
Proof.
  intros i j Hij Hi.
  pose proof (top3_length c) as Hlen.
  rewrite !top3_nth in * by lia.
  destruct (ranking_descending (candidates c) i j) as [H _]; [lia|].
  unfold abs_corr in H. rewrite !is_nan_abs in H. now apply H.
Qed.

Lemma Permutation_filter_list {A} (p : A -> bool) (l l' : list A) :
  Permutation l l' -> Permutation (List.filter p l) (List.filter p l').
Proof.
  induction 1 as [|x l l' _ IH|x y l|l l' l'' _ IH1 _ IH2]; simpl.
  - constructor.
  - destruct (p x); [now constructor|assumption].
  - destruct (p x), (p y); try apply Permutation_refl. constructor.
  - now transitivity (List.filter p l').
Qed.

Lemma filter_none {A} (p : A -> bool) (l : list A) :
  (forall x, In x l -> p x = false) -> List.filter p l = [].
Proof.
  induction l as [|x l IH]; intros H; simpl; [reflexivity|].
  rewrite (H x) by now left. apply IH. intros y Hy. apply H. now right.
Qed.

(** With three candidates that are numbers, no NaN is ranked. *)
Lemma top3_numbers c :
  (3 <= length (numbers (candidates c)))%nat ->
  List.Forall (fun t : triple => is_nan t.2 = false) (top3 c).
Proof.
  unfold numbers. intros H3. set (cands := candidates c) in *.
  assert (Hlen : (3 <= length cands)%nat).
  { etransitivity; [exact H3|]. apply filter_length_le. }
  assert (Hrank : length (List.filter (fun t : triple => negb (is_nan t.2)) (ranking cands))
                  = length (List.filter (fun t : triple => negb (is_nan t.2)) cands)).
  { apply Permutation_length. apply Permutation_filter_list, ranking_perm. }
  apply List.Forall_forall. intros t Ht.
  apply (In_nth _ _ no_triple) in Ht as (i & Hi & <-).
  pose proof (top3_length c) as Htop. fold cands in Htop.
  rewrite top3_nth by assumption. fold cands.
  destruct (is_nan (nth i (ranking cands) no_triple).2) eqn:E; [|reflexivity].
  exfalso.
  assert (Hall : forall j, (i <= j < length cands)%nat ->
                   is_nan (nth j (ranking cands) no_triple).2 = true).
  { intros j Hj. destruct (Nat.eq_dec i j) as [<-|Hne]; [assumption|].
    destruct (ranking_descending cands i j) as [Hd _]; [lia|].
    unfold abs_corr in Hd. rewrite !is_nan_abs in Hd. now apply Hd. }
  assert (Hcount : (length (List.filter (fun t : triple => negb (is_nan t.2)) (ranking cands))
                    <= i)%nat).
  { rewrite <- (take_drop i (ranking cands)), List.filter_app, length_app.
    rewrite (filter_none _ (drop i (ranking cands))).
    - simpl. rewrite Nat.add_0_r. etransitivity; [apply filter_length_le|].
      rewrite length_take. lia.
    - intros x Hx. apply (In_nth _ _ no_triple) in Hx as (j & Hj & <-).
      rewrite length_drop, ranking_length in Hj.
      change (nth j (drop i (ranking cands)) no_triple)
        with (nth j (skipn i (ranking cands)) no_triple).
      rewrite nth_skipn. rewrite Hall by lia. reflexivity. }
  lia.
Qed.

(** ** Numbers first, NaN after them *)

Lemma map_nth_filter_seq {A} (p : A -> bool) (l : list A) (d : A) (k : nat) :
  map (fun i => nth (i - k) l d)
      (List.filter (fun i => p (nth (i - k) l d)) (seq k (length l)))
  = List.filter p l.
Proof.
  revert k. induction l as [|a l IH]; intros k; [reflexivity|].
  cbn [length seq List.filter]. rewrite Nat.sub_diag. cbn [nth].
  assert (E : forall q : A -> bool,
            List.filter (fun i => q (nth (i - k) (a :: l) d)) (seq (S k) (length l))
            = List.filter (fun i => q (nth (i - S k) l d)) (seq (S k) (length l))).
  { intros q. apply List.filter_ext_in. intros i Hi. apply in_seq in Hi.
    replace (i - k)%nat with (S (i - S k)) by lia. reflexivity. }
  assert (M : forall idx, (forall i, In i idx -> (S k <= i)%nat) ->
            map (fun i => nth (i - k) (a :: l) d) idx = map (fun i => nth (i - S k) l d) idx).
  { intros idx H. apply map_ext_in. intros i Hi. specialize (H i Hi).
    replace (i - k)%nat with (S (i - S k)) by lia. reflexivity. }
  destruct (p a); cbn [map]; rewrite ?Nat.sub_diag; cbn [nth];
    rewrite E, M, IH; try reflexivity.
  all: intros i Hi; apply List.filter_In in Hi as [Hi _]; apply in_seq in Hi; lia.
Qed.

Lemma map_nth_filter_positions {A} (p : A -> bool) (l : list A) (d : A) :
  map (fun i => nth i l d) (List.filter (fun i => p (nth i l d)) (seq 0 (length l)))
  = List.filter p l.
Proof.
  rewrite <- (map_nth_filter_seq p l d 0).
  rewrite (List.filter_ext (fun i => p (nth i l d)) (fun i => p (nth (i - 0) l d)))
    by (intros i; now rewrite Nat.sub_0_r).
  apply map_ext. intros i. now rewrite Nat.sub_0_r.
Qed.

(** The ranking is the candidates that are numbers, in some order,
    followed by the candidates without a coefficient, in the order of the
    enumeration. *)
Lemma ranking_split (cands : list triple) :
  exists front,
    ranking cands = front ++ nans cands /\ Permutation front (numbers cands).
Proof.
  unfold ranking. rewrite NargsortFacts.nargsort_unfold. cbv zeta.
  set (items := map abs_corr cands).
  set (f := fun i => nth i cands no_triple).
  assert (Hkey : forall i, nth i items nan = abs_corr (f i)).
  { intros i. unfold items, f. change nan with (abs_corr no_triple) at 1. apply map_nth. }
  assert (Hlen : length items = length cands) by apply length_map.
  assert (Hnum : map f (SortSpec.non_nan_idx items) = numbers cands).
  { unfold SortSpec.non_nan_idx, SortSpec.keep, numbers. rewrite Hlen.
    rewrite <- (map_nth_filter_positions (fun t : triple => negb (is_nan t.2)) cands no_triple).
    fold f. f_equal. apply List.filter_ext. intros i.
    rewrite Hkey. unfold abs_corr. now rewrite is_nan_abs. }
  assert (Hnan : map f (SortSpec.nan_idx items) = nans cands).
  { unfold SortSpec.nan_idx, SortSpec.keep, nans. rewrite Hlen.
    rewrite <- (map_nth_filter_positions (fun t : triple => is_nan t.2) cands no_triple).
    fold f. f_equal. apply List.filter_ext. intros i.
    rewrite Hkey, negb_involutive. unfold abs_corr. now rewrite is_nan_abs. }
  rewrite map_app, Hnan. eexists. split; [reflexivity|].
  rewrite <- Hnum. apply Permutation_map.
  etransitivity; [symmetry; apply Permutation_rev|].
  etransitivity; [apply NargsortFacts.indexer_perm|].
  symmetry. apply Permutation_rev.
Qed.

Lemma length_numbers_nans (ts : list triple) :
  (length (numbers ts) + length (nans ts) = length ts)%nat.
Proof.
  unfold numbers, nans. induction ts as [|t ts IH]; [reflexivity|].
  cbn [List.filter length]. destruct (is_nan t.2); cbn [negb length]; lia.
Qed.

(** With three numbers among the candidates, the three pairs shown are
    numbers. *)
Lemma top3_of_split (cands front : list triple) :
  ranking cands = front ++ nans cands -> Permutation front (numbers cands) ->
  (3 <= length (numbers cands))%nat ->
  take 3 (ranking cands) = take 3 front /\ length (take 3 front) = 3%nat.
Proof.
  intros E P H. rewrite E. apply Permutation_length in P.
  split.
  - rewrite take_app_le by lia. reflexivity.
  - rewrite length_take. lia.
Qed.

(** Four of the ten candidates involve a given field. *)
Lemma filter_length_mono {A} (p q : A -> bool) (l : list A) :
  (forall x, In x l -> p x = true -> q x = true) ->
  (length (List.filter p l) <= length (List.filter q l))%nat.
Proof.
  induction l as [|x l IH]; intros H; [reflexivity|].
  assert (IH' : (length (List.filter p l) <= length (List.filter q l))%nat)
    by (apply IH; intros y Hy; apply H; now right).
  cbn [List.filter]. destruct (p x) eqn:E.
  - rewrite (H x) by (try assumption; now left). cbn [length]. lia.
  - destruct (q x); cbn [length]; lia.
Qed.

Lemma label_eqb_str (x : label) (a : string) : label_eqb x (LStr a) = true -> x = LStr a.
Proof.
  destruct x as [s|z]; cbn [label_eqb]; [|discriminate].
  intros H. apply String.eqb_eq in H. now subst.
Qed.

Lemma nans_of_field (cands : list triple) (a : string) :
  map pair_names cands = enumerated_pairs -> In a field_names ->
  (forall t, In t cands -> involves a t -> t.2 = nan) ->
  (4 <= length (nans cands))%nat.
Proof.
  intros Hn Ha H.
  set (named := fun t : triple => label_eqb t.1.1 (LStr a) || label_eqb t.1.2 (LStr a)).
  assert (Hfour : length (List.filter named cands) = 4%nat).
  { clear H. subst named.
    do 10 (destruct cands as [|[[? ?] ?] cands]; [discriminate|]).
    destruct cands; [|discriminate].
    unfold pair_names, enumerated_pairs in Hn; cbn [map fst snd] in Hn.
    inversion Hn; subst; clear Hn.
    each_field Ha; reflexivity. }
  rewrite <- Hfour. apply filter_length_mono.
  intros t Ht Hnamed. subst named. cbv beta in Hnamed.
  rewrite (H t Ht); [reflexivity|].
  apply orb_true_iff in Hnamed as [E|E]; apply label_eqb_str in E; [now left|now right].
Qed.

(** ** The subset and the heap *)

(** The subset of a table of 74 records. *)
Lemma subset_records N d :
  len d = 74%nat ->
  records (Pipeline.subset N d) = drop (74 - Z.to_nat (clamp N 2 74)) (records d) /\
  len (Pipeline.subset N d) = Z.to_nat (clamp N 2 74).
Proof.
  intros Hlen. unfold Pipeline.subset. rewrite Hlen.
  set (lo := (74 - _)%nat).
  assert (Hk : lo = (74 - Z.to_nat (clamp N 2 74))%nat).
  { subst lo. unfold clamp. destruct (Z.ltb_spec N 2); lia. }
  assert (Hrec : records (reset_index_drop (iloc_rows lo 74 d))
                 = drop (74 - Z.to_nat (clamp N 2 74)) (records d)).
  { rewrite records_iloc_rows, <- Hk. apply take_ge.
    rewrite length_drop, length_records, Hlen. lia. }
  split; [exact Hrec|].
  rewrite <- length_records, Hrec, length_drop, length_records, Hlen. unfold clamp. lia.
Qed.

Section Frame.

Context {rng_state : Type}.
Implicit Types (σ : @state rng_state).

(** A write into a frame that owns its data changes that object only. *)
Lemma df_set_cell_own σ r d' i name x :
  heap σ !! r = Some (Own d') ->
  df_set_cell i name x r σ
  = Some (tt, set_heap (<[r := Own (set_cell i name x d')]> (heap σ)) σ).
Proof.
  intros Hr. unfold df_set_cell. rewrite bind_run. unfold get_heap at 1.
  rewrite Hr. unfold overwrite. now rewrite Hr.
Qed.

(** Whatever a call of [render_analysis] returns, it has only added
    objects to the heap and has not rebound [df_all]. *)
Lemma render_analysis_frame σ l d (N : Z) u σ' :
  df_all σ = Some l -> heap σ !! l = Some (Own d) ->
  render_analysis N σ = Some (u, σ') ->
  rng σ' = rng σ /\ df_all σ' = df_all σ /\ exists objs, heap σ' = heap σ ++ objs.
Proof.
  intros Hg Hl Hrun. pose proof (render_analysis_run σ l d N Hg Hl) as H.
  unfold shows in H. destruct (Pipeline.outputs N d) as [out|].
  - destruct H as [objs H]. rewrite H in Hrun. inversion Hrun; subst. cbn. eauto.
  - rewrite H in Hrun. discriminate.
Qed.

End Frame.

(** By contrast, the frame [tail] returns is a view: a write into its
    first row lands in the table it was taken from. *)
Lemma tail_view_shares_data :
  exists σ',
    (t ← df_tail 0%nat 2; df_set_cell 0 (LStr "cost") 9 t)
      (Examples.process Examples.two_fields) = Some (tt, σ') /\
    the_table σ' = Some (set_cell 1 (LStr "cost") 9 Examples.two_fields) /\
    the_table σ' <> Some Examples.two_fields.
Proof. eexists. split; [reflexivity|]. split; [reflexivity|]. vm_compute. discriminate. Qed.

(** The value of a candidate is the cell of the matrix for its two
    fields. *)
Lemma candidates_cells d :
  has_fields d ->
  List.Forall (fun t : triple =>
            exists a b, In a field_names /\ In b field_names /\
                        pair_names t = (LStr a, LStr b) /\
                        cell (Pipeline.correlation d) a b = Some (VNum t.2))
         (candidates (Pipeline.correlation d)).
Proof.
  intros (ix & c1 & c2 & c3 & c4 & c5 & ->).
  repeat (apply List.Forall_cons;
          [eexists; eexists; split; [|split; [|split; [reflexivity|reflexivity]]];
           simpl; tauto|]).
  apply List.Forall_nil.
Qed.

Lemma ranking_nan_last cands : nan_last (ranking cands).
Proof.
  intros i j Hij Hi. rewrite ranking_length in Hij.
  destruct (ranking_descending cands i j) as [H _]; [lia|].
  unfold abs_corr in H. rewrite !is_nan_abs in H. now apply H.
Qed.

Lemma matrix_shape d :
  has_fields d ->
  index (Pipeline.correlation d) = map LStr field_names /\
  columns (Pipeline.correlation d) = map LStr field_names.
Proof. intros (ix & c1 & c2 & c3 & c4 & c5 & ->). split; reflexivity. Qed.

Lemma field_length d a :
  has_fields d -> well_formed d -> In a field_names -> length (field d a) = len d.
Proof.
  intros (ix & c1 & c2 & c3 & c4 & c5 & ->) Hwf Ha.
  unfold well_formed, supply_table in Hwf; cbn [data] in Hwf.
  repeat (apply Forall_cons_1 in Hwf as [? Hwf]). cbn [snd col_length] in *.
  each_field Ha; assumption.
Qed.

(** A field of the subset that is constant, or whose sum of squared
    deviations is computed as zero, has no variance. *)
Lemma no_variance N d a :
  has_fields d -> well_formed d -> len d = 74%nat -> In a field_names ->
  constant (field (Pipeline.subset N d) a) = true \/
  zero_variance (field (Pipeline.subset N d) a) = true ->
  zero_variance (field (Pipeline.subset N d) a) = true.
Proof.
  intros Hd Hwf Hlen Ha [Hc|Hz]; [|assumption].
  apply ConstantColumn.constant_zero_variance; [|assumption].
  rewrite field_length; try assumption.
  - destruct (subset_records N d Hlen) as [_ ->]. unfold clamp. lia.
  - now apply subset_has_fields.
  - now apply subset_well_formed.
Qed.

Lemma flat_well_formed : well_formed Examples.flat.
Proof. repeat constructor. Qed.

Lemma flat_has_fields : has_fields Examples.flat.
Proof. unfold Examples.flat, Examples.with_last. repeat eexists. Qed.

(** ** Every pair of fields is a candidate *)

Lemma string_ltb_total s t : s <> t -> String.ltb s t = true \/ String.ltb t s = true.
Proof.
  intros Hne. unfold String.ltb. rewrite (String.compare_antisym t s).
  destruct (String.compare s t) eqn:E; simpl; auto.
  apply String.compare_eq_iff in E. contradiction.
Qed.

Lemma square_numeric_labels c : square_like c -> map fst (numeric_data c) = columns c.
Proof.
  intros [_ Hcols]. unfold numeric_data, columns.
  induction Hcols as [|[k col] rest [_ [v [E _]]] _ IH]; simpl; [reflexivity|].
  simpl in E. subst col. simpl. now rewrite IH.
Qed.

(** Every pair of a column label and a row label, the first below the
    second, is a candidate. *)
Lemma candidates_complete c a b :
  square_like c -> In (LStr a) (columns c) -> In (LStr b) (index c) ->
  String.ltb a b = true ->
  In (LStr a, LStr b) (map pair_names (candidates c)).
Proof.
  intros Hsq Ha Hb Hlt.
  assert (Hin : In (LStr a, LStr b) (map pair_names (entries c))).
  { rewrite entries_names by assumption. unfold unstack; cbn [s_index].
    rewrite numeric_labels_flat_map, square_numeric_labels by assumption.
    apply in_flat_map. exists (LStr a). split; [assumption|].
    apply in_map_iff. now exists (LStr b). }
  apply in_map_iff in Hin as [t [Et Ht]].
  apply in_map_iff. exists t. split; [assumption|].
  unfold candidates. apply List.filter_In. split; [assumption|].
  unfold is_candidate. unfold pair_names in Et. inversion Et as [[E1 E2]].
  rewrite E1, E2. cbn [label_ltb]. now rewrite Hlt.
Qed.

Lemma map_fst_combine {A B} (a : list A) (b : list B) :
  length a = length b -> map fst (combine a b) = a.
Proof.
  revert b. induction a as [|x a IH]; intros [|y b] H; simpl in *; try discriminate;
    [reflexivity|]. f_equal. apply IH. lia.
Qed.

(** The labels on both axes of the matrix are those of the float
    columns of the table. *)
Lemma correlation_labels cur :
  index (Pipeline.correlation cur) = map fst (numeric_data cur) /\
  columns (Pipeline.correlation cur) = map fst (numeric_data cur).
Proof.
  unfold Pipeline.correlation, round, corr, columns; cbn [index data]. split; [reflexivity|].
  rewrite map_map; cbn [fst].
  apply (map_fst_combine (map fst (numeric_data cur))).
  rewrite !length_map. now rewrite Corr_matrix_length, length_map.
Qed.

Lemma top3_enumerated d :
  has_fields d -> incl (map pair_names (top3 (Pipeline.correlation d))) enumerated_pairs.
Proof.
  intros Hd p Hp. rewrite <- (candidates_enumerated d Hd).
  apply in_map_iff in Hp as [t [<- Ht]]. apply in_map, top3_candidates, Ht.
Qed.

(** ** The example tables, computed *)

(** On the generated table of the concrete generator, with 20 rows, the
    sums of squared deviations meet the three conditions of
    [correlation_diagonal], and the diagonal is 1.0 throughout. *)
Lemma demo_diagonal a :
  In a field_names ->
  let cur := Pipeline.subset 20 Demo.table in
  let s := sum_sq_dev (field cur a) in
  is_finite s = true /\ is_zero s = false /\ PrimFloat.sqrt (s * s) = s /\
  cell (Pipeline.correlation cur) a a = Some (VNum 1).
Proof.
  intros Ha. each_field Ha; cbv zeta; (split; [|split; [|split]]); vm_compute; reflexivity.
Qed.

(** On the table [flat], six candidates are numbers and the three pairs
    shown are numbers. *)
Lemma flat_ranking :
  let c := Pipeline.correlation (Pipeline.subset 5 Examples.flat) in
  length (numbers (candidates c)) = 6%nat /\
  top3 c = [(LStr "Cost_Per_Unit", LStr "Order_Frequency", (-0.52)%float);
            (LStr "Inventory_Levels", LStr "Order_Frequency", (-0.431)%float);
            (LStr "Order_Frequency", LStr "Supplier_Lead_Time", 0.406%float)] /\
  map pair_names (drop 6 (ranking (candidates c))) =
    [(LStr "Delivery_Performance", LStr "Supplier_Lead_Time");
     (LStr "Delivery_Performance", LStr "Inventory_Levels");
     (LStr "Delivery_Performance", LStr "Order_Frequency");
     (LStr "Cost_Per_Unit", LStr "Delivery_Performance")].
Proof. cbv zeta. (split; [|split]); vm_compute; reflexivity. Qed.

(** ** The selector on a table of any size *)

(** The number of records [get_recent_df] keeps of a table of [size]. *)
Lemma kept_bounds (N : Z) (size : nat) :
  let k := kept N size in
  (k <= size)%nat /\ (2 <= size -> 2 <= k)%nat /\
  (2 <= N -> N <= Z.of_nat size -> Z.of_nat k = N).
Proof. unfold kept. cbv zeta. lia. Qed.

Lemma subset_unfold N d :
  Pipeline.subset N d = reset_index_drop (iloc_rows (len d - kept N (len d)) (len d) d).
Proof.
  unfold Pipeline.subset, kept. cbv zeta. do 3 f_equal.
  destruct (Z.ltb_spec N 2); lia.
Qed.

Lemma subset_len_any N d : len (Pipeline.subset N d) = kept N (len d).
Proof.
  rewrite subset_unfold. unfold len, reset_index_drop, iloc_rows, range_index; cbn [index].
  rewrite length_map, length_seq. unfold len; cbn [index].
  rewrite length_take, length_drop.
  pose proof (kept_bounds N (length (index d))) as [H _]. cbv zeta in H. lia.
Qed.

Lemma subset_records_any N d :
  records (Pipeline.subset N d) = drop (len d - kept N (len d)) (records d).
Proof.
  rewrite subset_unfold, records_iloc_rows. apply take_ge.
  rewrite length_drop, length_records. lia.
Qed.

Lemma subset_index N d : index (Pipeline.subset N d) = range_index (kept N (len d)).
Proof.
  rewrite <- subset_len_any, subset_unfold.
  unfold reset_index_drop at 1; cbn [index].
  unfold reset_index_drop, len; cbn [index].
  unfold range_index. now rewrite length_map, length_seq.
Qed.

Lemma subset_columns N d : columns (Pipeline.subset N d) = columns d.
Proof.
  unfold Pipeline.subset, reset_index_drop, iloc_rows, columns; cbn [data].
  rewrite map_map. reflexivity.
Qed.

Section SelectorAnySize.

Context {rng_state : Type}.
Implicit Types (σ : @state rng_state).

(** A call of [get_recent_df] adds a view and the frame of the subset,
    and returns the latter. *)
Lemma get_recent_df_subset σ l d (N : Z) :
  df_all σ = Some l -> heap σ !! l = Some (Own d) ->
  exists v,
    get_recent_df N σ =
      Some (S (length (heap σ)), set_heap (heap σ ++ [v; Own (Pipeline.subset N d)]) σ).
Proof.
  intros Hg Hl. eexists. exact (get_recent_df_run σ l d N Hg Hl).
Qed.

Lemma lookup_second_new (h : list object) (a b : object) :
  (h ++ [a; b]) !! S (length h) = Some b.
Proof.
  rewrite lookup_app_r by lia.
  now replace (S (length h) - length h)%nat with 1%nat by lia.
Qed.

End SelectorAnySize.

(** Each float column of the subset holds the last values of the
    table's column. *)
Lemma subset_getitem_num N d name v :
  well_formed d -> getitem_num name d = Some v ->
  getitem_num name (Pipeline.subset N d) = Some (drop (len d - kept N (len d)) v).
Proof.
  intros Hwf Hv. rewrite subset_unfold.
  unfold getitem_num, getitem, reset_index_drop, iloc_rows, well_formed in *; cbn [data] in *.
  induction (data d) as [|[k c] rest IH]; cbn [map lookup_column fst snd] in *; [discriminate|].
  apply Forall_cons_1 in Hwf as [Hc Hwf]. cbn [snd] in Hc.
  destruct (label_eqb name k).
  - destruct c as [w|w]; [|discriminate]. inversion Hv; subst w.
    cbn [col_rows col_length] in *. f_equal. apply take_ge. rewrite length_drop. lia.
  - now apply IH.
Qed.

(** ** The summary and the narrative *)

(** The summary of a table with the five fields: one row per field, the
    five statistics kept, each rounded to two decimals. *)
Lemma summary_cells ix c1 c2 c3 c4 c5 a :
  In a field_names ->
  let d := supply_table ix c1 c2 c3 c4 c5 in
  exists s,
    Pipeline.summary d = Some s /\
    index s = map LStr field_names /\
    columns s = [LStr "mean"; LStr "std"; LStr "min"; LStr "50%"; LStr "max"] /\
    loc_cell (LStr a) (LStr "mean") s = Some (VNum (Np.round 2 (Describe.mean (field d a)))) /\
    loc_cell (LStr a) (LStr "std") s = Some (VNum (Np.round 2 (Describe.std (field d a)))) /\
    loc_cell (LStr a) (LStr "min") s = Some (VNum (Np.round 2 (Describe.min (field d a)))) /\
    loc_cell (LStr a) (LStr "50%") s
      = Some (VNum (Np.round 2 (Describe.quartile 2 (field d a)))) /\
    loc_cell (LStr a) (LStr "max") s = Some (VNum (Np.round 2 (Describe.max (field d a)))) /\
    loc_cell (LStr a) (LStr "count") s = None /\
    loc_cell (LStr a) (LStr "25%") s = None /\
    loc_cell (LStr a) (LStr "75%") s = None.
Proof.
  intros Ha d. eexists. split; [reflexivity|].
  each_field Ha; repeat (split; [reflexivity|]); reflexivity.
Qed.

Lemma top3_cells d t :
  has_fields d -> In t (top3 (Pipeline.correlation d)) ->
  exists a b, In a field_names /\ In b field_names /\
              pair_names t = (LStr a, LStr b) /\
              cell (Pipeline.correlation d) a b = Some (VNum t.2) /\
              cell (Pipeline.correlation d) b a = Some (VNum t.2).
Proof.
  intros Hd Ht. apply top3_candidates in Ht.
  pose proof (candidates_cells d Hd) as Hall. rewrite List.Forall_forall in Hall.
  destruct (Hall t Ht) as (a & b & Ha & Hb & Hn & Hc).
  exists a, b. repeat (split; [assumption|]).
  now rewrite <- (correlation_symmetric d a b).
Qed.

(** ** A table without a quoted field *)

Lemma numeric_labels_subset N d :
  map fst (numeric_data (Pipeline.subset N d)) = map fst (numeric_data d).
Proof.
  rewrite subset_unfold. unfold numeric_data, reset_index_drop, iloc_rows; cbn [data].
  induction (data d) as [|[k c] rest IH]; [reflexivity|].
  cbn [map flat_map fst snd]. rewrite !map_app, IH. now destruct c.
Qed.

(** The rows of the summary are labelled by the float columns. *)
Lemma summary_index cur s :
  Pipeline.summary cur = Some s -> index s = map fst (numeric_data cur).
Proof.
  unfold Pipeline.summary. destruct (loc_rows _ (describe cur)) as [t|] eqn:Et; [|discriminate].
  cbn [mbind option_bind]. intros E. inversion E; subst s. clear E.
  unfold loc_rows in Et. destruct (positions_of _ _) as [ps|]; [|discriminate].
  inversion Et; subst t. unfold round, transpose, columns, take_rows, describe; cbn [index data].
  rewrite !map_map. reflexivity.
Qed.

Lemma loc_cell_no_row r c s : position r (index s) = None -> loc_cell r c s = None.
Proof. intros H. unfold loc_cell. now rewrite H. Qed.

(** Without a float column for one of the three fields quoted, nothing
    is shown. *)
Lemma outputs_missing_field N d name :
  In name quoted_fields ->
  position (LStr name) (map fst (numeric_data d)) = None ->
  Pipeline.outputs N d = None.
Proof.
  intros Hname Hpos. unfold Pipeline.outputs.
  destruct (Pipeline.summary (Pipeline.subset N d)) as [s|] eqn:Es; [|reflexivity].
  cbn [mbind option_bind]. unfold Pipeline.shown.
  destruct (Pipeline.top_pairs _) as [top|]; [|reflexivity].
  cbn [mbind option_bind].
  replace (Pipeline.markdown N s top) with (@None (list piece)); [reflexivity|].
  symmetry. unfold Pipeline.markdown.
  assert (Hrow : loc_cell (LStr name) (LStr "mean") s = None).
  { apply loc_cell_no_row. now rewrite (summary_index _ _ Es), numeric_labels_subset. }
  unfold quoted_fields in Hname. simpl in Hname.
  destruct Hname as [<-|[<-|[<-|[]]]].
  - now rewrite Hrow.
  - rewrite Hrow. now destruct (loc_cell (LStr "Supplier_Lead_Time") _ s).
  - rewrite Hrow. destruct (loc_cell (LStr "Supplier_Lead_Time") _ s); [|reflexivity].
    cbn [mbind option_bind]. now destruct (loc_cell (LStr "Inventory_Levels") _ s).
Qed.

(** ** The draws behind the table *)

Section DrawFacts.

Context {rng_state : Type}.
Variable init_by_seed : Z -> rng_state.
Variable legacy_gauss : rng_state -> float * rng_state.

Lemma normal_draws mu scale n s :
  normal legacy_gauss mu scale n s =
    (map (fun g => (mu + scale * g)%float) (gauss_draws legacy_gauss n s),
     after_draws legacy_gauss n s).
Proof.
  revert s. induction n as [|n IH]; intros s; simpl; [reflexivity|].
  destruct (legacy_gauss s) as [g s1]. rewrite IH. reflexivity.
Qed.

Lemma gauss_draws_app n m s :
  gauss_draws legacy_gauss (n + m) s =
    gauss_draws legacy_gauss n s ++ gauss_draws legacy_gauss m (after_draws legacy_gauss n s).
Proof.
  revert s. induction n as [|n IH]; intros s; simpl; [reflexivity|].
  destruct (legacy_gauss s) as [g s1]. simpl. now rewrite IH.
Qed.

Lemma after_draws_add n m s :
  after_draws legacy_gauss (n + m) s = after_draws legacy_gauss m (after_draws legacy_gauss n s).
Proof. revert s. induction n as [|n IH]; intros s; simpl; [reflexivity|]. apply IH. Qed.

Lemma gauss_draws_length n s : length (gauss_draws legacy_gauss n s) = n.
Proof.
  revert s. induction n as [|n IH]; intros s; simpl; [reflexivity|].
  destruct (legacy_gauss s) as [g s1]. simpl. now rewrite IH.
Qed.

(** The draw [i] of the column number [c] is the draw [74 c + i] of the
    stream. *)
Lemma gauss_draws_block c i s :
  (c < 5)%nat -> (i < n_rows)%nat ->
  nth i (gauss_draws legacy_gauss n_rows (after_draws legacy_gauss (c * n_rows) s)) nan
  = nth (c * n_rows + i) (gauss_draws legacy_gauss (5 * n_rows) s) nan.
Proof.
  unfold n_rows. intros Hc Hi.
  replace (5 * 74)%nat with (c * 74 + (74 + (4 - c) * 74))%nat by lia.
  rewrite gauss_draws_app, app_nth2 by (rewrite gauss_draws_length; lia).
  rewrite gauss_draws_length, gauss_draws_app.
  rewrite app_nth1 by (rewrite gauss_draws_length; lia).
  f_equal. lia.
Qed.

(** The generator states between the five columns of CELL 1. *)
Lemma column_states :
  let s0 := init_by_seed RND in
  g1 init_by_seed legacy_gauss = after_draws legacy_gauss (1 * n_rows) s0 /\
  g2 init_by_seed legacy_gauss = after_draws legacy_gauss (2 * n_rows) s0 /\
  g3 init_by_seed legacy_gauss = after_draws legacy_gauss (3 * n_rows) s0 /\
  g4 init_by_seed legacy_gauss = after_draws legacy_gauss (4 * n_rows) s0 /\
  g5 init_by_seed legacy_gauss = after_draws legacy_gauss (5 * n_rows) s0.
Proof.
  cbv zeta. unfold g5, g4, g3, g2, g1, g0, draw.
  rewrite !normal_draws. cbn [snd].
  change (1 * n_rows)%nat with (0 + n_rows)%nat.
  change (2 * n_rows)%nat with (n_rows + n_rows)%nat.
  change (3 * n_rows)%nat with (n_rows + n_rows + n_rows)%nat.
  change (4 * n_rows)%nat with (n_rows + n_rows + n_rows + n_rows)%nat.
  change (5 * n_rows)%nat with (n_rows + n_rows + n_rows + n_rows + n_rows)%nat.
  rewrite !after_draws_add. cbn [after_draws]. repeat split; reflexivity.
Qed.

End DrawFacts.

Lemma nth_map_lt {A B} (f : A -> B) (l : list A) (i : nat) (d : A) (d' : B) :
  (i < length l)%nat -> nth i (map f l) d' = f (nth i l d).
Proof.
  intros Hi. rewrite (nth_indep _ d' (f d)) by now rewrite length_map.
  apply map_nth.
Qed.

Section ColumnFacts.

Context {rng_state : Type}.
Variable init_by_seed : Z -> rng_state.
Variable legacy_gauss : rng_state -> float * rng_state.

(** A value of a column drawn from the state after [c] columns. *)
Lemma drawn_value (f : float -> float) mu scale c i :
  (c < 5)%nat -> (i < n_rows)%nat ->
  nth i (map f (fst (draw legacy_gauss mu scale
                       (after_draws legacy_gauss (c * n_rows) (init_by_seed RND))))) nan
  = f (mu + scale * draw_number init_by_seed legacy_gauss (c * n_rows + i))%float.
Proof.
  intros Hc Hi. unfold draw. rewrite normal_draws. cbn [fst]. rewrite map_map.
  rewrite (nth_map_lt _ _ i nan) by now rewrite gauss_draws_length.
  unfold draw_number. now rewrite gauss_draws_block.
Qed.

End ColumnFacts.

Lemma supply_table_fields ix c1 c2 c3 c4 c5 :
  let d := supply_table ix c1 c2 c3 c4 c5 in
  field d "Supplier_Lead_Time" = c1 /\ field d "Inventory_Levels" = c2 /\
  field d "Order_Frequency" = c3 /\ field d "Delivery_Performance" = c4 /\
  field d "Cost_Per_Unit" = c5.
Proof. cbv zeta. repeat split; reflexivity. Qed.

(** ** CELL 2 *)

Section SliderFacts.

Context {rng_state : Type}.
Implicit Types (σ : @state rng_state).

Lemma make_slider_run σ l d :
  df_all σ = Some l -> heap σ !! l = Some (Own d) -> (5 <= len d)%nat ->
  make_slider σ = Some (mkSlider (Z.min 20 (Z.of_nat (len d))) 5 (Z.of_nat (len d)) 1, σ).
Proof.
  intros Hg Hl Hlen. unfold make_slider. rewrite bind_run. unfold global_df_all at 1. rewrite Hg.
  rewrite bind_run, (read_run σ l d) by now apply resolve_own. cbv zeta.
  destruct (Z.ltb_spec (Z.of_nat (len d)) 5) as [H|H]; [lia|reflexivity].
Qed.

Lemma cell2_run σ l d :
  df_all σ = Some l -> heap σ !! l = Some (Own d) -> (5 <= len d)%nat ->
  let v := Z.min 20 (Z.of_nat (len d)) in
  cell2 σ = match render_analysis v σ with
            | Some (_, σ') => Some (mkSlider v 5 (Z.of_nat (len d)) 1, σ')
            | None => None
            end.
Proof.
  intros Hg Hl Hlen v. unfold cell2. rewrite bind_run, (make_slider_run σ l d Hg Hl Hlen).
  cbn [slider_value]. fold v. rewrite bind_run.
  destruct (render_analysis v σ) as [[u σ']|]; reflexivity.
Qed.

Lemma unbound_raises σ (N : Z) :
  df_all σ = None ->
  get_recent_df N σ = None /\ render_analysis N σ = None /\ cell2 σ = None.
Proof.
  intros Hg.
  assert (Hget : get_recent_df N σ = None).
  { unfold get_recent_df. rewrite bind_run. unfold global_df_all at 1. now rewrite Hg. }
  split; [exact Hget|]. split.
  - unfold render_analysis. rewrite bind_run. now rewrite Hget.
  - unfold cell2. rewrite bind_run. unfold make_slider. rewrite bind_run.
    unfold global_df_all at 1. now rewrite Hg.
Qed.

End SliderFacts.

(** ** Tables of at most one record *)

(** Two columns of at most one value have no coefficient: a value that
    is not finite is skipped, and one finite value has no variance. *)
Lemma coefficient_few x y :
  length x = length y -> (length x <= 1)%nat -> Corr.coefficient x y = nan.
Proof.
  intros Hlen Hx.
  destruct x as [|vx [|]]; destruct y as [|vy [|]]; simpl in Hlen, Hx;
    try discriminate; try lia; [reflexivity|].
  destruct (Np.isfinite vx && Np.isfinite vy) eqn:E.
  - apply andb_true_iff in E as [Fx Fy].
    apply CorrFacts.coefficient_zero_variance_l; [reflexivity| | |].
    + unfold all_finite; cbn [forallb]. now rewrite Fx.
    + unfold all_finite; cbn [forallb]. now rewrite Fy.
    + apply ConstantColumn.constant_zero_variance; [simpl; lia|].
      unfold constant; cbn [forallb hd]. rewrite andb_true_r.
      unfold Np.isfinite, is_finite in Fx.
      apply negb_true_iff, orb_false_iff in Fx as [Hn _].
      now apply FloatOrder.eqb_lex.
  - unfold Corr.coefficient, Corr.loop. cbn [combine fold_left Corr.step]. now rewrite E.
Qed.

Lemma correlation_few d a b :
  has_fields d -> well_formed d -> (len d <= 1)%nat ->
  In a field_names -> In b field_names ->
  cell (Pipeline.correlation d) a b = Some (VNum nan).
Proof.
  intros Hd Hwf Hlen Ha Hb.
  pose proof (field_length d a Hd Hwf Ha) as La.
  pose proof (field_length d b Hd Hwf Hb) as Lb.
  destruct Hd as (ix & c1 & c2 & c3 & c4 & c5 & ->).
  rewrite correlation_cell by assumption.
  rewrite field_nth in La, Lb by assumption.
  replace (Corr.entry _ _ _) with nan; [reflexivity|]. symmetry.
  unfold Corr.entry.
  destruct (Nat.max_spec (field_position a) (field_position b)) as [[Hlt ->]|[Hlt ->]];
    [rewrite Nat.min_l by lia|rewrite Nat.min_r by lia];
    apply coefficient_few; lia.
Qed.

(** Candidates that are all NaN stay in the order of the enumeration. *)
Lemma filter_seq_none (p : nat -> bool) k n :
  (forall i, (k <= i < k + n)%nat -> p i = false) -> List.filter p (seq k n) = [].
Proof.
  revert k. induction n as [|n IH]; intros k H; [reflexivity|].
  cbn [seq List.filter]. rewrite (H k) by lia. apply IH. intros i Hi. apply H. lia.
Qed.

Lemma filter_seq_all (p : nat -> bool) k n :
  (forall i, (k <= i < k + n)%nat -> p i = true) -> List.filter p (seq k n) = seq k n.
Proof.
  revert k. induction n as [|n IH]; intros k H; [reflexivity|].
  cbn [seq List.filter]. rewrite (H k) by lia. f_equal. apply IH. intros i Hi. apply H. lia.
Qed.

Lemma ranking_all_nan (cands : list triple) :
  List.Forall (fun t : triple => t.2 = nan) cands -> ranking cands = cands.
Proof.
  intros Hall. unfold ranking, Sort.nargsort. cbv zeta.
  rewrite length_map.
  assert (Hnan : forall i, (0 <= i < 0 + length cands)%nat ->
            is_nan (nth i (map abs_corr cands) nan) = true).
  { intros i Hi. rewrite List.Forall_forall in Hall.
    rewrite (nth_indep _ nan (abs_corr no_triple)) by (rewrite length_map; lia).
    rewrite map_nth. unfold abs_corr.
    rewrite (Hall (nth i cands no_triple)) by (apply nth_In; lia). reflexivity. }
  rewrite (filter_seq_none _ 0 (length cands))
    by (intros i Hi; now rewrite (Hnan i Hi)).
  rewrite (filter_seq_all _ 0 (length cands))
    by (intros i Hi; now rewrite (Hnan i Hi)).
  cbn [rev map Sort.argsort length seq fold_left app].
  apply NargsortFacts.map_nth_seq.
Qed.

Lemma top3_few d :
  has_fields d -> well_formed d -> (len d <= 1)%nat ->
  top3 (Pipeline.correlation d) =
    [(LStr "Inventory_Levels", LStr "Supplier_Lead_Time", nan);
     (LStr "Inventory_Levels", LStr "Order_Frequency", nan);
     (LStr "Order_Frequency", LStr "Supplier_Lead_Time", nan)].
Proof.
  intros Hd Hwf Hlen.
  assert (Hall : List.Forall (fun t : triple => t.2 = nan) (candidates (Pipeline.correlation d))).
  { pose proof (candidates_cells d Hd) as Hc. rewrite List.Forall_forall in Hc |- *.
    intros t Ht. destruct (Hc t Ht) as (a & b & Ha & Hb & _ & Hcell).
    rewrite (correlation_few d a b Hd Hwf Hlen Ha Hb) in Hcell. now inversion Hcell. }
  unfold top3. rewrite (ranking_all_nan _ Hall).
  pose proof (candidates_enumerated d Hd) as Hn.
  revert Hall Hn. generalize (candidates (Pipeline.correlation d)) as cs. clear.
  intros cs Hall Hn.
  do 3 (destruct cs as [|[[? ?] ?] cs]; [discriminate|];
        apply Forall_cons_1 in Hall as [E Hall]; cbn [snd] in E; subst;
        unfold pair_names in Hn; cbn [map fst snd] in Hn).
  unfold enumerated_pairs in Hn. inversion Hn; subst. reflexivity.
Qed.

(** The statistics of a column of at most one value. *)
Lemma std_few v : (length v <= 1)%nat -> Np.round 2 (Describe.std v) = nan.
Proof.
  intros H. unfold Describe.std, Describe.var.
  replace (length v <=? 1)%nat with true by (symmetry; now apply Nat.leb_le).
  reflexivity.
Qed.

(** * The claims *)

(** ** The subset selector *)

(** C1. For a table of 74 records, [get_recent_df N] returns a frame whose
    records are the last [clamp N 2 74] records of the table in their
    order: the last [N] for [5 <= N <= 74], the last two for [N < 2], and
    the whole table for [N >= 74]. *)
Theorem get_recent_df_last_records :
  forall (rng_state : Type) (σ : @state rng_state) (l : loc) (d : DataFrame) (N : Z),
    df_all σ = Some l -> heap σ !! l = Some (Own d) -> len d = 74%nat ->
    exists r σ' d',
      get_recent_df N σ = Some (r, σ') /\
      heap σ' !! r = Some (Own d') /\
      records d' = drop (74 - Z.to_nat (clamp N 2 74)) (records d) /\
      length (records d') = Z.to_nat (clamp N 2 74) /\
      (5 <= N <= 74 ->
       records d' = drop (74 - Z.to_nat N) (records d) /\ length (records d') = Z.to_nat N) /\
      (N < 2 -> records d' = drop 72 (records d) /\ length (records d') = 2%nat) /\
      (74 <= N -> records d' = records d).
Proof.
  intros R σ l d N Hg Hl Hlen.
  pose proof (get_recent_df_run σ l d N Hg Hl) as Hrun. cbv zeta in Hrun.
  rewrite Hlen in Hrun.
  set (n := if N <? 2 then 2 else N) in *.
  set (lo := (74 - Z.to_nat (Z.min n (Z.of_nat 74)))%nat) in *.
  assert (Hk : lo = (74 - Z.to_nat (clamp N 2 74))%nat).
  { subst lo n. unfold clamp. destruct (Z.ltb_spec N 2); lia. }
  eexists _, _, _. split; [exact Hrun|].
  assert (Hrec : records (reset_index_drop (iloc_rows lo 74 d))
                 = drop (74 - Z.to_nat (clamp N 2 74)) (records d)).
  { rewrite records_iloc_rows, <- Hk. apply take_ge.
    rewrite length_drop, length_records, Hlen. lia. }
  assert (Hlenr : length (records (reset_index_drop (iloc_rows lo 74 d)))
                  = Z.to_nat (clamp N 2 74)).
  { rewrite Hrec, length_drop, length_records, Hlen. unfold clamp. lia. }
  split.
  { simpl. rewrite lookup_app_r by lia.
    now replace (S (length (heap σ)) - length (heap σ))%nat with 1%nat by lia. }
  split; [exact Hrec|]. split; [exact Hlenr|].
  split; [|split].
  - intros HN. assert (E : clamp N 2 74 = N) by (unfold clamp; lia).
    rewrite E in Hrec, Hlenr. now split.
  - intros HN. assert (E : clamp N 2 74 = 2) by (unfold clamp; lia).
    rewrite E in Hrec, Hlenr. now split.
  - intros HN. assert (E : clamp N 2 74 = 74) by (unfold clamp; lia).
    rewrite E in Hrec. exact Hrec.
Qed.

(** On the generated table, with 5 rows asked. *)
Lemma get_recent_df_last_records_witness :
  exists r σ' d',
    get_recent_df 5 Demo.loaded = Some (r, σ') /\
    heap σ' !! r = Some (Own d') /\
    records d' = drop (74 - Z.to_nat (clamp 5 2 74)) (records Demo.table) /\
    length (records d') = Z.to_nat (clamp 5 2 74) /\
    (5 <= 5 <= 74 ->
     records d' = drop (74 - Z.to_nat 5) (records Demo.table) /\
     length (records d') = Z.to_nat 5) /\
    (5 < 2 -> records d' = drop 72 (records Demo.table) /\ length (records d') = 2%nat) /\
    (74 <= 5 -> records d' = records Demo.table).
Proof.
  apply (get_recent_df_last_records Z Demo.loaded 0%nat Demo.table 5).
  - reflexivity.
  - reflexivity.
  - apply dataset_len.
Defined.

(** ** The order of the ranking *)

(** C2 (as the callback does it). The ranking enumerates the ten
    unordered pairs of distinct fields, orders them by descending absolute
    value of the rounded coefficient with NaN last, and shows the first
    three.  Nothing more orders the pairs: between pairs of equal absolute
    value the callback applies no rule of its own, by name or otherwise. *)
Theorem ranked_pairs_descending :
  forall (rng_state : Type) (σ : @state rng_state) (l : loc) (d : DataFrame) (N : Z),
    df_all σ = Some l -> heap σ !! l = Some (Own d) -> has_fields d ->
    let cur := Pipeline.subset N d in
    let c := Pipeline.correlation cur in
    let cands := candidates c in
    exists objs s,
      render_analysis N σ =
        Some (tt, mkState (rng σ) (heap σ ++ objs) (df_all σ)
                    (report N (shown_mean cur "Supplier_Lead_Time")
                              (shown_mean cur "Inventory_Levels")
                              (shown_mean cur "Delivery_Performance") (top3 c) c s)) /\
      map pair_names cands = enumerated_pairs /\
      top3 c = take 3 (ranking cands) /\
      Permutation (ranking cands) cands /\
      (forall i j, (i < j < 10)%nat ->
         let x := abs_corr (nth i (ranking cands) no_triple) in
         let y := abs_corr (nth j (ranking cands) no_triple) in
         (is_nan x = true -> is_nan y = true) /\
         (is_nan x = false -> is_nan y = true \/ (y <=? x)%float = true)).
Proof.
  intros R σ l d N Hg Hl Hd cur c cands.
  destruct (render_analysis_report σ l d N Hg Hl Hd) as (objs & s & _ & Hrun).
  pose proof (subset_has_fields N d Hd) as Hcur. fold cur in Hcur.
  pose proof (candidates_ten cur Hcur) as Hten. fold c cands in Hten.
  exists objs, s. split; [exact Hrun|].
  split; [now apply candidates_enumerated|]. split; [reflexivity|].
  split; [apply ranking_perm|].
  intros i j Hij. apply ranking_descending. lia.
Qed.

(** On the generated table, with 20 rows asked. *)
Lemma ranked_pairs_descending_witness :
  let σ := Demo.loaded in
  let cur := Pipeline.subset 20 Demo.table in
  let c := Pipeline.correlation cur in
  let cands := candidates c in
  exists objs s,
    render_analysis 20 σ =
      Some (tt, mkState (rng σ) (heap σ ++ objs) (df_all σ)
                  (report 20 (shown_mean cur "Supplier_Lead_Time")
                             (shown_mean cur "Inventory_Levels")
                             (shown_mean cur "Delivery_Performance") (top3 c) c s)) /\
    map pair_names cands = enumerated_pairs /\
    top3 c = take 3 (ranking cands) /\
    Permutation (ranking cands) cands /\
    (forall i j, (i < j < 10)%nat ->
       let x := abs_corr (nth i (ranking cands) no_triple) in
       let y := abs_corr (nth j (ranking cands) no_triple) in
       (is_nan x = true -> is_nan y = true) /\
       (is_nan x = false -> is_nan y = true \/ (y <=? x)%float = true)).
Proof.
  apply (ranked_pairs_descending Z Demo.loaded 0%nat Demo.table 20).
  - reflexivity.
  - reflexivity.
  - apply dataset_has_fields.
Defined.

(** C2 (as stated) fails on a table whose last five records lie on one
    line: all ten coefficients are 1.0, the callback lists the first
    three pairs of its enumeration (as numpy's scalar sort leaves them),
    and a tie-break by name would list the pairs of Cost_Per_Unit. *)
Lemma tied_pairs_not_by_name :
  let c := Pipeline.correlation (Pipeline.subset 5 Examples.tied) in
  (exists rest,
     shown_by (render_analysis 5) (Examples.process Examples.tied) =
       Some (Markdown (narrative 5 (VNum 12) (VNum 320) (VNum 84) ++
                       triple_lines
                         [(LStr "Inventory_Levels", LStr "Supplier_Lead_Time", 1%float);
                          (LStr "Inventory_Levels", LStr "Order_Frequency", 1%float);
                          (LStr "Order_Frequency", LStr "Supplier_Lead_Time", 1%float)])
             :: rest)) /\
  top3 c = [(LStr "Inventory_Levels", LStr "Supplier_Lead_Time", 1%float);
            (LStr "Inventory_Levels", LStr "Order_Frequency", 1%float);
            (LStr "Order_Frequency", LStr "Supplier_Lead_Time", 1%float)] /\
  Claimed.top3_by_name c =
    [(LStr "Cost_Per_Unit", LStr "Delivery_Performance", 1%float);
     (LStr "Cost_Per_Unit", LStr "Inventory_Levels", 1%float);
     (LStr "Cost_Per_Unit", LStr "Order_Frequency", 1%float)] /\
  top3 c <> Claimed.top3_by_name c.
Proof.
  cbv zeta. split; [eexists; vm_compute; reflexivity|].
  split; [vm_compute; reflexivity|]. split; [vm_compute; reflexivity|].
  vm_compute. discriminate.
Qed.

(** ** Rounding *)

(** C3 (as the callback does it). The statistics are computed at full
    precision and rounded when the two tables are built; everything
    after that works on the rounded tables.  The means quoted are read
    from the summary rounded to 2 decimals, and the ranking compares the
    absolute values of the coefficients already rounded to 3 decimals. *)
Theorem ranking_uses_rounded_matrix :
  forall (rng_state : Type) (σ : @state rng_state) (l : loc) (d : DataFrame) (N : Z),
    df_all σ = Some l -> heap σ !! l = Some (Own d) -> has_fields d ->
    let cur := Pipeline.subset N d in
    let c := round 3 (corr cur) in
    exists objs t,
      loc_rows [LStr "mean"; LStr "std"; LStr "min"; LStr "50%"; LStr "max"] (describe cur)
        = Some t /\
      render_analysis N σ =
        Some (tt, mkState (rng σ) (heap σ ++ objs) (df_all σ)
                    (report N (VNum (Np.round 2 (Describe.mean (field cur "Supplier_Lead_Time"))))
                              (VNum (Np.round 2 (Describe.mean (field cur "Inventory_Levels"))))
                              (VNum (Np.round 2 (Describe.mean (field cur "Delivery_Performance"))))
                              (take 3 (ranking (candidates c))) c (round 2 (transpose t)))) /\
      candidates c = map (fun t : triple => (t.1, Np.round 3 t.2)) (candidates (corr cur)).
Proof.
  intros R σ l d N Hg Hl Hd cur c.
  destruct (render_analysis_report σ l d N Hg Hl Hd) as (objs & s & Hs & Hrun).
  fold cur in Hs, Hrun.
  pose proof (subset_has_fields N d Hd) as Hcur. fold cur in Hcur.
  unfold Pipeline.summary in Hs.
  destruct (loc_rows _ (describe cur)) as [t|] eqn:Et; [|discriminate].
  cbn [mbind option_bind] in Hs. inversion Hs; subst s.
  exists objs, t. split; [reflexivity|]. split; [exact Hrun|].
  now apply candidates_rounded.
Qed.

(** On the generated table, with 20 rows asked. *)
Lemma ranking_uses_rounded_matrix_witness :
  let σ := Demo.loaded in
  let cur := Pipeline.subset 20 Demo.table in
  let c := round 3 (corr cur) in
  exists objs t,
    loc_rows [LStr "mean"; LStr "std"; LStr "min"; LStr "50%"; LStr "max"] (describe cur)
      = Some t /\
    render_analysis 20 σ =
      Some (tt, mkState (rng σ) (heap σ ++ objs) (df_all σ)
                  (report 20 (VNum (Np.round 2 (Describe.mean (field cur "Supplier_Lead_Time"))))
                             (VNum (Np.round 2 (Describe.mean (field cur "Inventory_Levels"))))
                             (VNum (Np.round 2 (Describe.mean (field cur "Delivery_Performance"))))
                             (take 3 (ranking (candidates c))) c (round 2 (transpose t)))) /\
    candidates c = map (fun t : triple => (t.1, Np.round 3 t.2)) (candidates (corr cur)).
Proof.
  apply (ranking_uses_rounded_matrix Z Demo.loaded 0%nat Demo.table 20).
  - reflexivity.
  - reflexivity.
  - apply dataset_has_fields.
Defined.

(** C3 (as stated) fails where rounding creates ties.  In the table
    [near] three fields lie on one line and Inventory_Levels is slightly
    off it: its coefficients are 0.99995, the others are 1, and all six
    round to 1.0.  The callback lists the pairs of Inventory_Levels first;
    a ranking on the unrounded coefficients would not list them at all. *)
Lemma rounding_changes_ranking :
  let cur := Pipeline.subset 5 Examples.near in
  (exists rest,
     shown_by (render_analysis 5) (Examples.process Examples.near) =
       Some (Markdown (narrative 5 (VNum 30) (VNum 320.1) (VNum 84) ++
                       triple_lines
                         [(LStr "Inventory_Levels", LStr "Supplier_Lead_Time", 1%float);
                          (LStr "Inventory_Levels", LStr "Order_Frequency", 1%float);
                          (LStr "Order_Frequency", LStr "Supplier_Lead_Time", 1%float)])
             :: rest)) /\
  map pair_names (top3 (Pipeline.correlation cur)) =
    [(LStr "Inventory_Levels", LStr "Supplier_Lead_Time");
     (LStr "Inventory_Levels", LStr "Order_Frequency");
     (LStr "Order_Frequency", LStr "Supplier_Lead_Time")] /\
  Claimed.top3_full_precision cur =
    [(LStr "Order_Frequency", LStr "Supplier_Lead_Time");
     (LStr "Delivery_Performance", LStr "Supplier_Lead_Time");
     (LStr "Delivery_Performance", LStr "Order_Frequency")] /\
  map pair_names (top3 (Pipeline.correlation cur)) <> Claimed.top3_full_precision cur.
Proof.
  cbv zeta. split; [eexists; vm_compute; reflexivity|].
  split; [vm_compute; reflexivity|]. split; [vm_compute; reflexivity|].
  vm_compute. discriminate.
Qed.

(** ** A field without variance *)

(** C4. When a field of the subset has no variance (it is constant, or
    its sum of squared deviations is computed as zero), the callback
    still returns and shows the matrix; every cell in the row and in the
    column of that field is NaN; each of the candidate pairs with that
    field, four of the ten, carries NaN.  The ranking rearranges the ten
    candidates: those that are numbers come first, those with NaN follow
    in the order of the enumeration, so that every pair of the field is
    ranked after every number, and the numbers are in descending order
    of absolute value.  Three pairs are shown, the first three of the
    ranking, NaN last among them; with three candidates that are numbers,
    none of the three is NaN or a pair of the field. *)
Theorem zero_variance_is_nan_and_ranked_last :
  forall (rng_state : Type) (σ : @state rng_state) (l : loc) (d : DataFrame) (N : Z)
         (a : string),
    df_all σ = Some l -> heap σ !! l = Some (Own d) ->
    has_fields d -> well_formed d -> len d = 74%nat ->
    let cur := Pipeline.subset N d in
    let c := Pipeline.correlation cur in
    let cands := candidates c in
    table_finite cur = true ->
    In a field_names ->
    constant (field cur a) = true \/ zero_variance (field cur a) = true ->
    (exists objs s,
       render_analysis N σ =
         Some (tt, mkState (rng σ) (heap σ ++ objs) (df_all σ)
                     (report N (shown_mean cur "Supplier_Lead_Time")
                               (shown_mean cur "Inventory_Levels")
                               (shown_mean cur "Delivery_Performance") (top3 c) c s))) /\
    (forall b, In b field_names ->
       cell c a b = Some (VNum nan) /\ cell c b a = Some (VNum nan)) /\
    (forall t, In t cands -> involves a t -> t.2 = nan /\ In t (nans cands)) /\
    length cands = 10%nat /\
    (4 <= length (nans cands))%nat /\
    Permutation (ranking cands) cands /\
    (exists front,
       ranking cands = front ++ nans cands /\ Permutation front (numbers cands)) /\
    (forall i j, (i < 10)%nat -> (j < 10)%nat ->
       involves a (nth i (ranking cands) no_triple) ->
       is_nan (nth j (ranking cands) no_triple).2 = false -> (j < i)%nat) /\
    nan_last (ranking cands) /\
    (forall i j, (i < j < 10)%nat ->
       let x := abs_corr (nth i (ranking cands) no_triple) in
       let y := abs_corr (nth j (ranking cands) no_triple) in
       is_nan x = false -> is_nan y = true \/ (y <=? x)%float = true) /\
    top3 c = take 3 (ranking cands) /\
    length (top3 c) = 3%nat /\
    nan_last (top3 c) /\
    ((3 <= length (numbers cands))%nat ->
     List.Forall (fun t : triple => is_nan t.2 = false /\ ~ involves a t) (top3 c)).
Proof.
  intros R σ l d N a Hg Hl Hd Hwf Hlen cur c cands Hfin Ha Hvar.
  pose proof (no_variance N d a Hd Hwf Hlen Ha Hvar) as Hz. fold cur in Hz.
  pose proof (subset_has_fields N d Hd) as Hcur. fold cur in Hcur.
  pose proof (subset_well_formed N d Hwf) as Hwcur. fold cur in Hwcur.
  assert (Hcells : forall b, In b field_names ->
            cell c a b = Some (VNum nan) /\ cell c b a = Some (VNum nan)).
  { intros b Hb. now apply correlation_zero_variance. }
  assert (Hnan : forall t, In t cands -> involves a t -> t.2 = nan).
  { intros t Ht Hinv.
    pose proof (candidates_cells cur Hcur) as Hall. fold c cands in Hall.
    rewrite List.Forall_forall in Hall.
    destruct (Hall t Ht) as (x & y & Hx & Hy & Hn & Hc).
    unfold pair_names in Hn. inversion Hn as [[H1 H2]].
    assert (Ecell : cell c x y = Some (VNum nan)).
    { destruct Hinv as [E|E]; rewrite E in *.
      - inversion H1; subst x. now apply Hcells.
      - inversion H2; subst y. now apply Hcells. }
    rewrite Hc in Ecell. now inversion Ecell. }
  pose proof (candidates_ten cur Hcur) as Hten. fold c cands in Hten.
  pose proof (candidates_enumerated cur Hcur) as Hnames. fold c cands in Hnames.
  pose proof (ranking_nan_last cands) as Hlast.
  pose proof (ranking_perm cands) as Hperm.
  pose proof (top3_length c) as Htop. fold cands in Htop. rewrite Hten in Htop.
  assert (Htop3 : top3 c = take 3 (ranking cands)) by reflexivity.
  assert (Hdesc : forall i j, (i < j < 10)%nat ->
            let x := abs_corr (nth i (ranking cands) no_triple) in
            let y := abs_corr (nth j (ranking cands) no_triple) in
            is_nan x = false -> is_nan y = true \/ (y <=? x)%float = true).
  { intros i j Hij. rewrite <- Hten in Hij.
    exact (proj2 (ranking_descending cands i j Hij)). }
  split.
  { destruct (render_analysis_report σ l d N Hg Hl Hd) as (objs & s & _ & Hrun).
    now exists objs, s. }
  assert (Ec : cands = candidates c) by reflexivity.
  clearbody cands c. clear Hcur Hwcur Hz Hvar Hfin.
  split; [exact Hcells|]. split; [|split; [exact Hten|split]].
  3: split; [exact Hperm|]; split; [exact (ranking_split cands)|]; split.
  4: split; [exact Hlast|]; split; [exact Hdesc|]; split; [exact Htop3|];
     split; [exact Htop|]; split; [exact (top3_nan_last c)|].
  - intros t Ht Hinv. pose proof (Hnan t Ht Hinv) as E. split; [exact E|].
    unfold nans. apply List.filter_In. split; [exact Ht|]. rewrite E. reflexivity.
  - exact (nans_of_field cands a Hnames Ha Hnan).
  - intros i j Hi Hj Hinv Hnum.
    assert (Ei : is_nan (nth i (ranking cands) no_triple).2 = true).
    { rewrite (Hnan (nth i (ranking cands) no_triple)); [reflexivity| |exact Hinv].
      apply (Permutation_in _ Hperm), nth_In. rewrite (Permutation_length Hperm). lia. }
    destruct (Nat.lt_trichotomy i j) as [H|[H|H]]; [|subst; congruence|exact H].
    rewrite (Hlast i j) in Hnum; [discriminate| |exact Ei].
    rewrite (Permutation_length Hperm). lia.
  - intros H3. subst cands. pose proof (top3_numbers c H3) as Hn3.
    rewrite List.Forall_forall in Hn3 |- *. intros t Ht.
    split; [exact (Hn3 t Ht)|]. intros Hinv.
    specialize (Hn3 t Ht).
    rewrite (Hnan t (top3_candidates c t Ht) Hinv) in Hn3. discriminate.
Qed.

(** On the table [flat], whose last five records have
    Delivery_Performance at 100. *)
Lemma zero_variance_is_nan_and_ranked_last_witness :
  let σ := Examples.process Examples.flat in
  let N := 5 in
  let a := "Delivery_Performance"%string in
  let cur := Pipeline.subset N Examples.flat in
  let c := Pipeline.correlation cur in
  let cands := candidates c in
  (exists objs s,
     render_analysis N σ =
       Some (tt, mkState (rng σ) (heap σ ++ objs) (df_all σ)
                   (report N (shown_mean cur "Supplier_Lead_Time")
                             (shown_mean cur "Inventory_Levels")
                             (shown_mean cur "Delivery_Performance") (top3 c) c s))) /\
  (forall b, In b field_names ->
     cell c a b = Some (VNum nan) /\ cell c b a = Some (VNum nan)) /\
  (forall t, In t cands -> involves a t -> t.2 = nan /\ In t (nans cands)) /\
  length cands = 10%nat /\
  (4 <= length (nans cands))%nat /\
  Permutation (ranking cands) cands /\
  (exists front,
     ranking cands = front ++ nans cands /\ Permutation front (numbers cands)) /\
  (forall i j, (i < 10)%nat -> (j < 10)%nat ->
     involves a (nth i (ranking cands) no_triple) ->
     is_nan (nth j (ranking cands) no_triple).2 = false -> (j < i)%nat) /\
  nan_last (ranking cands) /\
  (forall i j, (i < j < 10)%nat ->
     let x := abs_corr (nth i (ranking cands) no_triple) in
     let y := abs_corr (nth j (ranking cands) no_triple) in
     is_nan x = false -> is_nan y = true \/ (y <=? x)%float = true) /\
  top3 c = take 3 (ranking cands) /\
  length (top3 c) = 3%nat /\
  nan_last (top3 c) /\
  ((3 <= length (numbers cands))%nat ->
   List.Forall (fun t : triple => is_nan t.2 = false /\ ~ involves a t) (top3 c)).
Proof.
  apply (zero_variance_is_nan_and_ranked_last unit (Examples.process Examples.flat) 0%nat
           Examples.flat 5 "Delivery_Performance").
  - reflexivity.
  - reflexivity.
  - exact flat_has_fields.
  - exact flat_well_formed.
  - reflexivity.
  - vm_compute. reflexivity.
  - simpl. tauto.
  - left. vm_compute. reflexivity.
Defined.

(** ** The generated table *)

(** C5. CELL 1 builds a table of exactly 74 records of 5 float fields, and
    (the draws being numbers) every record is within the clamping bounds:
    Supplier_Lead_Time >= 1, Inventory_Levels >= 0, Order_Frequency >= 0.5,
    40 <= Delivery_Performance <= 100, Cost_Per_Unit >= 1. *)
Theorem dataset_records_and_bounds :
  forall (rng_state : Type) (init_by_seed : Z -> rng_state)
         (legacy_gauss : rng_state -> float * rng_state) (σ : @state rng_state),
    draws_are_numbers init_by_seed legacy_gauss = true ->
    exists l d σ',
      cell1 init_by_seed legacy_gauss σ = Some (tt, σ') /\
      df_all σ' = Some l /\ heap σ' !! l = Some (Own d) /\
      length (records d) = 74%nat /\
      columns d = map LStr field_names /\
      has_fields d /\ well_formed d /\ in_bounds d.
Proof.
  intros R init gauss σ Hnum.
  exists (length (heap σ)), (dataset init gauss). eexists.
  split; [apply cell1_run|]. cbn [df_all heap].
  split; [reflexivity|]. split; [apply lookup_first_new|].
  split; [rewrite length_records; apply dataset_len|].
  split; [reflexivity|].
  split; [apply dataset_has_fields|]. split; [apply dataset_well_formed|].
  unfold draws_are_numbers, raw_draws in Hnum. cbn [forallb] in Hnum.
  repeat (apply andb_true_iff in Hnum as [? Hnum]).
  unfold in_bounds, dataset, field, supply_table, getitem_num, getitem.
  cbn [data lookup_column label_eqb fst snd].
  repeat split.
  - apply Forall_map_numbers; [|assumption]. intros x Hx. now apply maximum_at_least.
  - apply Forall_map_numbers; [|assumption]. intros x Hx. now apply maximum_at_least.
  - apply Forall_map_numbers; [|assumption]. intros x Hx. now apply maximum_at_least.
  - apply Forall_map_numbers; [|assumption]. intros x Hx. now apply npy_clip_within.
  - apply Forall_map_numbers; [|assumption]. intros x Hx. now apply maximum_at_least.
Qed.

(** With the concrete generator, from a fresh process. *)
Lemma dataset_records_and_bounds_witness :
  exists l d σ',
    cell1 Demo.seed Demo.gauss Demo.fresh = Some (tt, σ') /\
    df_all σ' = Some l /\ heap σ' !! l = Some (Own d) /\
    length (records d) = 74%nat /\
    columns d = map LStr field_names /\
    has_fields d /\ well_formed d /\ in_bounds d.
Proof.
  apply (dataset_records_and_bounds Z Demo.seed Demo.gauss Demo.fresh).
  vm_compute. reflexivity.
Defined.

(** ** The correlation matrix *)

(** C6 (as the callback computes it). The matrix shown has the five
    fields on both axes and a float in each of its 25 cells; it is
    symmetric; the diagonal cell of a field is exactly 1.0 when the sum
    of squared deviations [s] of the field is finite, not zero and
    squared without loss, and it is NaN when the field has no variance. *)
Theorem correlation_matrix_symmetric_unit_diagonal :
  forall (rng_state : Type) (σ : @state rng_state) (l : loc) (d : DataFrame) (N : Z),
    df_all σ = Some l -> heap σ !! l = Some (Own d) ->
    has_fields d -> well_formed d ->
    let cur := Pipeline.subset N d in
    let c := Pipeline.correlation cur in
    table_finite cur = true ->
    (exists objs s,
       render_analysis N σ =
         Some (tt, mkState (rng σ) (heap σ ++ objs) (df_all σ)
                     (report N (shown_mean cur "Supplier_Lead_Time")
                               (shown_mean cur "Inventory_Levels")
                               (shown_mean cur "Delivery_Performance") (top3 c) c s))) /\
    index c = map LStr field_names /\
    columns c = map LStr field_names /\
    (forall a b, In a field_names -> In b field_names ->
       (exists x, cell c a b = Some (VNum x)) /\ cell c a b = cell c b a) /\
    (forall a, In a field_names ->
       let s := sum_sq_dev (field cur a) in
       (is_finite s = true -> is_zero s = false -> PrimFloat.sqrt (s * s) = s ->
        cell c a a = Some (VNum 1)) /\
       (is_zero s = true -> cell c a a = Some (VNum nan))).
Proof.
  intros R σ l d N Hg Hl Hd Hwf cur c Hfin.
  pose proof (subset_has_fields N d Hd) as Hcur. fold cur in Hcur.
  pose proof (subset_well_formed N d Hwf) as Hwcur. fold cur in Hwcur.
  split; [|split; [|split; [|split]]].
  - destruct (render_analysis_report σ l d N Hg Hl Hd) as (objs & s & _ & Hrun).
    now exists objs, s.
  - now apply matrix_shape.
  - now apply matrix_shape.
  - intros a b Ha Hb. split; [|now apply correlation_symmetric].
    destruct Hcur as (ix & c1 & c2 & c3 & c4 & c5 & E). subst c. rewrite E.
    rewrite correlation_cell by assumption. eauto.
  - intros a Ha s. split.
    + intros Hf Hz Hs. now apply correlation_diagonal.
    + intros Hz. now apply (correlation_zero_variance cur a a).
Qed.

(** On the generated table, with 20 rows asked. *)
Lemma correlation_matrix_symmetric_unit_diagonal_witness :
  let σ := Demo.loaded in
  let cur := Pipeline.subset 20 Demo.table in
  let c := Pipeline.correlation cur in
  (exists objs s,
     render_analysis 20 σ =
       Some (tt, mkState (rng σ) (heap σ ++ objs) (df_all σ)
                   (report 20 (shown_mean cur "Supplier_Lead_Time")
                              (shown_mean cur "Inventory_Levels")
                              (shown_mean cur "Delivery_Performance") (top3 c) c s))) /\
  index c = map LStr field_names /\
  columns c = map LStr field_names /\
  (forall a b, In a field_names -> In b field_names ->
     (exists x, cell c a b = Some (VNum x)) /\ cell c a b = cell c b a) /\
  (forall a, In a field_names ->
     let s := sum_sq_dev (field cur a) in
     (is_finite s = true -> is_zero s = false -> PrimFloat.sqrt (s * s) = s ->
      cell c a a = Some (VNum 1)) /\
     (is_zero s = true -> cell c a a = Some (VNum nan))).
Proof.
  apply (correlation_matrix_symmetric_unit_diagonal Z Demo.loaded 0%nat Demo.table 20).
  - reflexivity.
  - reflexivity.
  - apply dataset_has_fields.
  - apply dataset_well_formed.
  - vm_compute. reflexivity.
Defined.

(** C6 (as stated) fails for a field without variance: with
    Delivery_Performance at 100 in the last five records, the matrix the
    callback shows has NaN, not 1.0, in the diagonal cell of that field. *)
Lemma diagonal_nan_without_variance :
  let c := Pipeline.correlation (Pipeline.subset 5 Examples.flat) in
  (exists out,
     shown_by (render_analysis 5) (Examples.process Examples.flat) = Some out /\
     out !! 2%nat = Some (Table c)) /\
  cell c "Delivery_Performance" "Delivery_Performance" = Some (VNum nan) /\
  cell c "Delivery_Performance" "Delivery_Performance" <> Some (VNum 1).
Proof.
  cbv zeta. split; [eexists; split; vm_compute; reflexivity|].
  split; [vm_compute; reflexivity|]. vm_compute. discriminate.
Qed.

(** ** The pairs listed *)

(** C7. The pairs the callback lists are the first three of the ranking
    of the matrix of the subset: exactly three, among the ten pairs of
    the five fields.  For any table [t] with named float columns, the
    list computed from its matrix has at most three triples, each with
    two field names, the first below the second; no pair of names occurs
    twice, none together with its mirror image, none with twice the same
    field; every two distinct fields are a candidate in one of the two
    orders; and with fewer than three candidates all are listed. *)
Theorem ranked_pairs_three_ordered_distinct :
  forall (rng_state : Type) (σ : @state rng_state) (l : loc) (d : DataFrame) (N : Z)
         (t : DataFrame),
    df_all σ = Some l -> heap σ !! l = Some (Own d) -> has_fields d ->
    named t -> List.NoDup (map fst (numeric_data t)) ->
    let cur := Pipeline.subset N d in
    let c := Pipeline.correlation cur in
    let g := Pipeline.correlation t in
    (exists objs s,
       render_analysis N σ =
         Some (tt, mkState (rng σ) (heap σ ++ objs) (df_all σ)
                     (report N (shown_mean cur "Supplier_Lead_Time")
                               (shown_mean cur "Inventory_Levels")
                               (shown_mean cur "Delivery_Performance") (top3 c) c s))) /\
    length (top3 c) = 3%nat /\
    incl (map pair_names (top3 c)) enumerated_pairs /\
    List.NoDup (map pair_names (top3 c)) /\
    (exists top, Pipeline.top_pairs g = Some top /\ triples top = top3 g) /\
    (length (top3 g) <= 3)%nat /\
    (forall u, In u (top3 g) ->
       exists a b, pair_names u = (LStr a, LStr b) /\ String.ltb a b = true) /\
    List.NoDup (map pair_names (top3 g)) /\
    (forall u v, In u (top3 g) -> In v (top3 g) ->
       pair_names u <> (snd (pair_names v), fst (pair_names v))) /\
    (forall u, In u (top3 g) -> fst (pair_names u) <> snd (pair_names u)) /\
    (forall a b, In (LStr a) (map fst (numeric_data t)) ->
                 In (LStr b) (map fst (numeric_data t)) -> a <> b ->
       In (LStr a, LStr b) (map pair_names (candidates g)) \/
       In (LStr b, LStr a) (map pair_names (candidates g))) /\
    ((length (candidates g) < 3)%nat -> Permutation (top3 g) (candidates g)).
Proof.
  intros R σ l d N t Hg Hl Hd Hn Hnd cur c g.
  pose proof (subset_has_fields N d Hd) as Hcur. fold cur in Hcur.
  pose proof (correlation_square t Hn) as Hsq. fold g in Hsq.
  destruct (correlation_labels t) as [Hix Hcol]. fold g in Hix, Hcol.
  assert (Hc : List.NoDup (columns g)) by now rewrite Hcol.
  assert (Hi : List.NoDup (index g)) by now rewrite Hix.
  split; [|split; [|split; [|split; [|split; [|split; [|split; [|split; [|split; [|split;
    [|split]]]]]]]]]].
  - destruct (render_analysis_report σ l d N Hg Hl Hd) as (objs & s & _ & Hrun).
    now exists objs, s.
  - rewrite top3_length. subst c. now rewrite candidates_ten.
  - now apply top3_enumerated.
  - pose proof (correlation_square cur (has_fields_named cur Hcur)) as Hsqc. fold c in Hsqc.
    destruct (matrix_shape cur Hcur) as [E1 E2]. fold c in E1, E2.
    apply top3_NoDup; [assumption| |]; [rewrite E2|rewrite E1];
      repeat constructor; simpl; intuition discriminate.
  - destruct (top_pairs_spec g Hsq) as (top & Htop & Htr & _). now exists top.
  - rewrite top3_length. lia.
  - intros u Hu. exact (top3_ordered g Hsq u Hu).
  - exact (top3_NoDup g Hsq Hc Hi).
  - intros u v Hu Hv. exact (top3_no_mirror g Hsq u v Hu Hv).
  - intros u Hu. exact (top3_no_self g Hsq u Hu).
  - intros a b Ha Hb Hne. rewrite <- Hcol in Ha, Hb.
    destruct (string_ltb_total a b Hne) as [Hlt|Hlt]; [left|right];
      apply candidates_complete; try assumption; rewrite Hix, <- Hcol; assumption.
  - apply top3_all.
Qed.

(** On the generated table with all 74 rows, and on a table of two
    fields. *)
Lemma ranked_pairs_three_ordered_distinct_witness :
  let σ := Demo.loaded in
  let t := Examples.two_fields in
  let cur := Pipeline.subset 74 Demo.table in
  let c := Pipeline.correlation cur in
  let g := Pipeline.correlation t in
  (exists objs s,
     render_analysis 74 σ =
       Some (tt, mkState (rng σ) (heap σ ++ objs) (df_all σ)
                   (report 74 (shown_mean cur "Supplier_Lead_Time")
                              (shown_mean cur "Inventory_Levels")
                              (shown_mean cur "Delivery_Performance") (top3 c) c s))) /\
  length (top3 c) = 3%nat /\
  incl (map pair_names (top3 c)) enumerated_pairs /\
  List.NoDup (map pair_names (top3 c)) /\
  (exists top, Pipeline.top_pairs g = Some top /\ triples top = top3 g) /\
  (length (top3 g) <= 3)%nat /\
  (forall u, In u (top3 g) ->
     exists a b, pair_names u = (LStr a, LStr b) /\ String.ltb a b = true) /\
  List.NoDup (map pair_names (top3 g)) /\
  (forall u v, In u (top3 g) -> In v (top3 g) ->
     pair_names u <> (snd (pair_names v), fst (pair_names v))) /\
  (forall u, In u (top3 g) -> fst (pair_names u) <> snd (pair_names u)) /\
  (forall a b, In (LStr a) (map fst (numeric_data t)) ->
               In (LStr b) (map fst (numeric_data t)) -> a <> b ->
     In (LStr a, LStr b) (map pair_names (candidates g)) \/
     In (LStr b, LStr a) (map pair_names (candidates g))) /\
  ((length (candidates g) < 3)%nat -> Permutation (top3 g) (candidates g)).
Proof.
  apply (ranked_pairs_three_ordered_distinct Z Demo.loaded 0%nat Demo.table 74
           Examples.two_fields).
  - reflexivity.
  - reflexivity.
  - apply dataset_has_fields.
  - reflexivity.
  - simpl. repeat constructor; simpl; intuition discriminate.
Defined.

(** ** Determinism *)

(** C8. Generation does not depend on the state it starts from: CELL 1
    reseeds the generator with 42, so two runs bind [df_all] to the same
    table, and what the notebook then shows for a row count [N] is the
    same in both runs. *)
Theorem generation_is_deterministic :
  forall (rng_state : Type) (init_by_seed : Z -> rng_state)
         (legacy_gauss : rng_state -> float * rng_state) (σ1 σ2 : @state rng_state),
    (exists d σ1' σ2',
        cell1 init_by_seed legacy_gauss σ1 = Some (tt, σ1') /\
        cell1 init_by_seed legacy_gauss σ2 = Some (tt, σ2') /\
        the_table σ1' = Some d /\ the_table σ2' = Some d /\
        rng σ1' = rng σ2') /\
    forall N : Z,
      shown_by (session init_by_seed legacy_gauss N) σ1 =
      shown_by (session init_by_seed legacy_gauss N) σ2.
Proof.
  intros R init gauss σ1 σ2. split.
  - exists (dataset init gauss). eexists. eexists.
    split; [apply cell1_run|]. split; [apply cell1_run|].
    unfold the_table. cbn [df_all heap rng].
    split; [|split; [|reflexivity]]; apply resolve_own, lookup_first_new.
  - intros N. now rewrite !session_shows.
Qed.

(** ** The table is not written to *)

(** C9. [get_recent_df] returns a new object that owns its data: the
    object of [df_all] is as before, and a write into any cell of the
    result leaves it as before.  Whatever a run of [render_analysis]
    returns, it leaves [df_all] bound to the same object and every object
    that existed before, the table included, exactly as it was; on a
    table with the five fields the run does return. *)
Theorem dataset_not_mutated :
  forall (rng_state : Type) (σ : @state rng_state) (l : loc) (d : DataFrame) (N : Z),
    df_all σ = Some l -> heap σ !! l = Some (Own d) ->
    (exists r σ1 d',
       get_recent_df N σ = Some (r, σ1) /\
       (length (heap σ) <= r)%nat /\
       heap σ1 !! r = Some (Own d') /\
       df_all σ1 = Some l /\
       the_table σ1 = Some d /\
       (forall k o, heap σ !! k = Some o -> heap σ1 !! k = Some o) /\
       (forall i name x,
          exists σ2,
            df_set_cell i name x r σ1 = Some (tt, σ2) /\
            resolve (heap σ2) r = Some (set_cell i name x d') /\
            df_all σ2 = Some l /\
            the_table σ2 = Some d)) /\
    (forall u σ',
       render_analysis N σ = Some (u, σ') ->
       df_all σ' = Some l /\
       the_table σ' = Some d /\
       (forall k o, heap σ !! k = Some o -> heap σ' !! k = Some o)) /\
    (has_fields d -> exists σ', render_analysis N σ = Some (tt, σ')).
Proof.
  intros R σ l d N Hg Hl. split; [|split].
  - pose proof (get_recent_df_run σ l d N Hg Hl) as Hrun. cbv zeta in Hrun.
    set (lo := (len d - _)%nat) in Hrun.
    set (d' := reset_index_drop (iloc_rows lo (len d) d)) in Hrun.
    pose proof (lookup_lt_Some _ _ _ Hl) as Hlt.
    assert (Hr : (heap σ ++ [View l lo (len d); Own d']) !! S (length (heap σ)) = Some (Own d')).
    { rewrite lookup_app_r by lia.
      now replace (S (length (heap σ)) - length (heap σ))%nat with 1%nat by lia. }
    assert (Hl1 : (heap σ ++ [View l lo (len d); Own d']) !! l = Some (Own d))
      by now apply lookup_app_l_Some.
    eexists _, _, d'. split; [exact Hrun|].
    split; [lia|]. split; [exact Hr|]. split; [exact Hg|].
    split; [|split].
    + unfold the_table, set_heap; cbn [df_all heap]. rewrite Hg. now apply resolve_own.
    + intros k o Hk. unfold set_heap; cbn [heap]. now apply lookup_app_l_Some.
    + intros i name x. eexists. split.
      * apply df_set_cell_own. exact Hr.
      * unfold set_heap; cbn [heap df_all].
        assert (Hlen : (S (length (heap σ)) < length (heap σ ++ [View l lo (len d); Own d']))%nat)
          by (rewrite length_app; simpl; lia).
        split; [|split; [exact Hg|]].
        -- apply resolve_own. now apply list_lookup_insert_eq.
        -- unfold the_table; cbn [df_all heap]. rewrite Hg. apply resolve_own.
           rewrite list_lookup_insert_ne by lia. exact Hl1.
  - intros u σ' Hrun.
    destruct (render_analysis_frame σ l d N u σ' Hg Hl Hrun) as (_ & Hdf & objs & Hheap).
    rewrite Hdf. split; [exact Hg|]. split.
    + unfold the_table. rewrite Hdf, Hg, Hheap.
      apply resolve_own. now apply lookup_app_l_Some.
    + intros k o Hk. rewrite Hheap. now apply lookup_app_l_Some.
  - intros Hd.
    destruct (render_analysis_report σ l d N Hg Hl Hd) as (objs & s & _ & Hrun).
    eexists. exact Hrun.
Qed.

(** On the generated table, with 20 rows asked. *)
Lemma dataset_not_mutated_witness :
  let σ := Demo.loaded in
  let l := 0%nat in
  let d := Demo.table in
  (exists r σ1 d',
     get_recent_df 20 σ = Some (r, σ1) /\
     (length (heap σ) <= r)%nat /\
     heap σ1 !! r = Some (Own d') /\
     df_all σ1 = Some l /\
     the_table σ1 = Some d /\
     (forall k o, heap σ !! k = Some o -> heap σ1 !! k = Some o) /\
     (forall i name x,
        exists σ2,
          df_set_cell i name x r σ1 = Some (tt, σ2) /\
          resolve (heap σ2) r = Some (set_cell i name x d') /\
          df_all σ2 = Some l /\
          the_table σ2 = Some d)) /\
  (forall u σ',
     render_analysis 20 σ = Some (u, σ') ->
     df_all σ' = Some l /\
     the_table σ' = Some d /\
     (forall k o, heap σ !! k = Some o -> heap σ' !! k = Some o)) /\
  (has_fields d -> exists σ', render_analysis 20 σ = Some (tt, σ')).
Proof.
  apply (dataset_not_mutated Z Demo.loaded 0%nat Demo.table 20).
  - reflexivity.
  - reflexivity.
Defined.

(** ** The count the narrative shows *)

(** C10. The heading of the narrative and the title of the heatmap
    carry the requested count [N] as it was passed, while every statistic
    is computed on the subset, which has [clamp N 2 74] records: below 2
    the subset has the last two records and the text shown names another
    count. *)
Theorem narrative_reports_requested_count :
  forall (rng_state : Type) (σ : @state rng_state) (l : loc) (d : DataFrame) (N : Z),
    df_all σ = Some l -> heap σ !! l = Some (Own d) -> has_fields d -> len d = 74%nat ->
    let cur := Pipeline.subset N d in
    let c := Pipeline.correlation cur in
    exists objs s rest,
      Pipeline.summary cur = Some s /\
      render_analysis N σ =
        Some (tt, mkState (rng σ) (heap σ ++ objs) (df_all σ)
                    [Markdown (Text (nl +:+ "### Interactive analysis (using last **")
                               :: Text (pretty N) :: rest);
                     Markdown [Text "**Correlation matrix:**"];
                     Table c;
                     Heatmap [Text ("Correlation Heatmap " +:+ emdash +:+ " last ");
                              Text (pretty N); Text " rows"] c (-1) 1;
                     Markdown [Text "**Summary statistics (selected subset):**"];
                     Table s]) /\
      records cur = drop (74 - Z.to_nat (clamp N 2 74)) (records d) /\
      len cur = Z.to_nat (clamp N 2 74) /\
      (2 <= N <= 74 -> Z.of_nat (len cur) = N) /\
      (N < 2 -> len cur = 2%nat /\ records cur = drop 72 (records d) /\
                pretty N <> pretty (Z.of_nat (len cur))).
Proof.
  intros R σ l d N Hg Hl Hd Hlen cur c.
  destruct (render_analysis_report σ l d N Hg Hl Hd) as (objs & s & Hs & Hrun).
  destruct (subset_records N d Hlen) as [Hrec Hcur]. fold cur in Hs, Hrun, Hrec, Hcur.
  exists objs, s. eexists. split; [exact Hs|]. split; [exact Hrun|].
  split; [exact Hrec|]. split; [exact Hcur|]. split.
  - intros HN. rewrite Hcur. unfold clamp. lia.
  - intros HN. assert (E : clamp N 2 74 = 2) by (unfold clamp; lia).
    rewrite E in Hcur, Hrec. split; [exact Hcur|]. split; [exact Hrec|].
    rewrite Hcur. intros Hp. apply (inj pretty) in Hp. lia.
Qed.

(** On the generated table, with 1 row asked. *)
Lemma narrative_reports_requested_count_witness :
  let σ := Demo.loaded in
  let d := Demo.table in
  let N := 1 in
  let cur := Pipeline.subset N d in
  let c := Pipeline.correlation cur in
  exists objs s rest,
    Pipeline.summary cur = Some s /\
    render_analysis N σ =
      Some (tt, mkState (rng σ) (heap σ ++ objs) (df_all σ)
                  [Markdown (Text (nl +:+ "### Interactive analysis (using last **")
                             :: Text (pretty N) :: rest);
                   Markdown [Text "**Correlation matrix:**"];
                   Table c;
                   Heatmap [Text ("Correlation Heatmap " +:+ emdash +:+ " last ");
                            Text (pretty N); Text " rows"] c (-1) 1;
                   Markdown [Text "**Summary statistics (selected subset):**"];
                   Table s]) /\
    records cur = drop (74 - Z.to_nat (clamp N 2 74)) (records d) /\
    len cur = Z.to_nat (clamp N 2 74) /\
    (2 <= N <= 74 -> Z.of_nat (len cur) = N) /\
    (N < 2 -> len cur = 2%nat /\ records cur = drop 72 (records d) /\
              pretty N <> pretty (Z.of_nat (len cur))).
Proof.
  apply (narrative_reports_requested_count Z Demo.loaded 0%nat Demo.table 1).
  - reflexivity.
  - reflexivity.
  - apply dataset_has_fields.
  - apply dataset_len.
Defined.

(** * Further properties of the code *)

(** ** The selector beyond 74 records *)

(** X1. On a table of any size, [get_recent_df N] returns the last
    [kept N (len d)] records: [N] raised to 2 and capped by the size of
    the table.  A table of at most two records is returned whole whatever
    [N] is (the guard [n < 2] cannot make records), and a table of two or
    more always yields at least two. *)
Theorem get_recent_df_any_size :
  forall (rng_state : Type) (σ : @state rng_state) (l : loc) (d : DataFrame) (N : Z),
    df_all σ = Some l -> heap σ !! l = Some (Own d) ->
    exists r σ' d',
      get_recent_df N σ = Some (r, σ') /\
      heap σ' !! r = Some (Own d') /\
      records d' = drop (len d - kept N (len d)) (records d) /\
      length (records d') = kept N (len d) /\
      ((len d <= 2)%nat -> records d' = records d) /\
      ((2 <= len d)%nat -> (2 <= length (records d'))%nat) /\
      (Z.of_nat (len d) <= N -> records d' = records d).
Proof.
  intros R σ l d N Hg Hl.
  destruct (get_recent_df_subset σ l d N Hg Hl) as [v Hrun].
  eexists _, _, (Pipeline.subset N d). split; [exact Hrun|].
  split; [apply lookup_second_new|].
  pose proof (subset_records_any N d) as Hrec.
  assert (Hlen : length (records (Pipeline.subset N d)) = kept N (len d))
    by (rewrite length_records; apply subset_len_any).
  split; [exact Hrec|]. split; [exact Hlen|].
  split; [|split].
  - intros Hs. rewrite Hrec. unfold kept.
    replace (len d - _)%nat with 0%nat by lia. reflexivity.
  - intros Hs. rewrite Hlen. unfold kept. lia.
  - intros Hs. rewrite Hrec. unfold kept.
    replace (len d - _)%nat with 0%nat by lia. reflexivity.
Qed.

(** On a table of one record, with 7 rows asked. *)
Lemma get_recent_df_any_size_witness :
  let d := single_record in
  exists r σ' d',
    get_recent_df 7 (Examples.process d) = Some (r, σ') /\
    heap σ' !! r = Some (Own d') /\
    records d' = drop (len d - kept 7 (len d)) (records d) /\
    length (records d') = kept 7 (len d) /\
    ((len d <= 2)%nat -> records d' = records d) /\
    ((2 <= len d)%nat -> (2 <= length (records d'))%nat) /\
    (Z.of_nat (len d) <= 7 -> records d' = records d).
Proof.
  apply (get_recent_df_any_size unit (Examples.process single_record) 0%nat
           single_record 7).
  - reflexivity.
  - reflexivity.
Defined.

(** X2. The frame [get_recent_df] returns is labelled anew: its rows are
    numbered from 0, whatever labels the rows had in the table; its
    columns are those of the table, in the same order; each float column
    holds the last values of the table's column; and it is well formed
    when the table is. *)
Theorem get_recent_df_relabelled :
  forall (rng_state : Type) (σ : @state rng_state) (l : loc) (d : DataFrame) (N : Z),
    df_all σ = Some l -> heap σ !! l = Some (Own d) -> well_formed d ->
    exists r σ' d',
      get_recent_df N σ = Some (r, σ') /\
      heap σ' !! r = Some (Own d') /\
      index d' = range_index (kept N (len d)) /\
      columns d' = columns d /\
      well_formed d' /\
      (forall name v, getitem_num name d = Some v ->
         getitem_num name d' = Some (drop (len d - kept N (len d)) v)).
Proof.
  intros R σ l d N Hg Hl Hwf.
  destruct (get_recent_df_subset σ l d N Hg Hl) as [v Hrun].
  eexists _, _, (Pipeline.subset N d). split; [exact Hrun|].
  split; [apply lookup_second_new|].
  split; [apply subset_index|]. split; [apply subset_columns|].
  split; [now apply subset_well_formed|].
  intros name col Hcol. now apply subset_getitem_num.
Qed.

(** On a table whose rows are labelled 0 to 73, with 5 rows asked: the
    rows 69 to 73 come back numbered 0 to 4. *)
Lemma get_recent_df_relabelled_witness :
  let d := Examples.flat in
  exists r σ' d',
    get_recent_df 5 (Examples.process d) = Some (r, σ') /\
    heap σ' !! r = Some (Own d') /\
    index d' = range_index (kept 5 (len d)) /\
    columns d' = columns d /\
    well_formed d' /\
    (forall name v, getitem_num name d = Some v ->
       getitem_num name d' = Some (drop (len d - kept 5 (len d)) v)).
Proof.
  apply (get_recent_df_relabelled unit (Examples.process Examples.flat) 0%nat
           Examples.flat 5).
  - reflexivity.
  - reflexivity.
  - exact flat_well_formed.
Defined.

(** X3. Subsets are nested, and a call does not disturb the other: after
    a call with [M], a call with [N <= M] returns a second frame, holding
    the last records of the frame the first call returned, which is still
    there as it was. *)
Theorem get_recent_df_nested :
  forall (rng_state : Type) (σ : @state rng_state) (l : loc) (d : DataFrame) (N M : Z),
    df_all σ = Some l -> heap σ !! l = Some (Own d) -> N <= M ->
    exists r1 σ1 d1 r2 σ2 d2,
      get_recent_df M σ = Some (r1, σ1) /\
      heap σ1 !! r1 = Some (Own d1) /\
      get_recent_df N σ1 = Some (r2, σ2) /\
      heap σ2 !! r1 = Some (Own d1) /\
      heap σ2 !! r2 = Some (Own d2) /\
      r1 <> r2 /\
      (length (records d2) <= length (records d1))%nat /\
      records d2 = drop (length (records d1) - length (records d2)) (records d1).
Proof.
  intros R σ l d N M Hg Hl HNM.
  destruct (get_recent_df_subset σ l d M Hg Hl) as [v1 Hrun1].
  set (σ1 := set_heap (heap σ ++ [v1; Own (Pipeline.subset M d)]) σ) in *.
  assert (Hg1 : df_all σ1 = Some l) by exact Hg.
  assert (Hl1 : heap σ1 !! l = Some (Own d))
    by (unfold σ1, set_heap; cbn [heap]; now apply lookup_app_l_Some).
  destruct (get_recent_df_subset σ1 l d N Hg1 Hl1) as [v2 Hrun2].
  eexists _, _, (Pipeline.subset M d), _, _, (Pipeline.subset N d).
  split; [exact Hrun1|].
  split; [unfold σ1, set_heap; cbn [heap]; apply lookup_second_new|].
  split; [exact Hrun2|].
  assert (Hh : length (heap σ1) = S (S (length (heap σ))))
    by (unfold σ1, set_heap; cbn [heap]; rewrite length_app; simpl; lia).
  split; [|split; [|split; [|split]]].
  - unfold set_heap; cbn [heap]. apply lookup_app_l_Some.
    unfold σ1, set_heap; cbn [heap]. apply lookup_second_new.
  - unfold set_heap; cbn [heap]. apply lookup_second_new.
  - lia.
  - rewrite !length_records, !subset_len_any. unfold kept. lia.
  - rewrite !length_records, !subset_len_any, !subset_records_any.
    rewrite drop_drop. f_equal. unfold kept. lia.
Qed.

(** On the generated table: 20 rows, then 5. *)
Lemma get_recent_df_nested_witness :
  exists r1 σ1 d1 r2 σ2 d2,
    get_recent_df 20 Demo.loaded = Some (r1, σ1) /\
    heap σ1 !! r1 = Some (Own d1) /\
    get_recent_df 5 σ1 = Some (r2, σ2) /\
    heap σ2 !! r1 = Some (Own d1) /\
    heap σ2 !! r2 = Some (Own d2) /\
    r1 <> r2 /\
    (length (records d2) <= length (records d1))%nat /\
    records d2 = drop (length (records d1) - length (records d2)) (records d1).
Proof.
  apply (get_recent_df_nested Z Demo.loaded 0%nat Demo.table 5 20).
  - reflexivity.
  - reflexivity.
  - lia.
Defined.

(** ** What successive calls show *)

(** X4. A call replaces what the previous call showed: after a call
    with [N1] and a call with [N2], the output area holds exactly the six
    outputs of the second, the same as if it had been the only call, and
    the random generator is where it was. *)
Theorem render_analysis_replaces_output :
  forall (rng_state : Type) (σ : @state rng_state) (l : loc) (d : DataFrame) (N1 N2 : Z),
    df_all σ = Some l -> heap σ !! l = Some (Own d) -> has_fields d ->
    exists σ1 σ2,
      render_analysis N1 σ = Some (tt, σ1) /\
      render_analysis N2 σ1 = Some (tt, σ2) /\
      Some (console σ2) = Pipeline.outputs N2 d /\
      shown_by (render_analysis N2) σ = Some (console σ2) /\
      length (console σ2) = 6%nat /\
      rng σ2 = rng σ /\
      the_table σ2 = Some d.
Proof.
  intros R σ l d N1 N2 Hg Hl Hd.
  destruct (render_analysis_report σ l d N1 Hg Hl Hd) as (objs1 & s1 & _ & Hrun1).
  set (σ1 := mkState (rng σ) (heap σ ++ objs1) (df_all σ) _) in Hrun1.
  assert (Hg1 : df_all σ1 = Some l) by exact Hg.
  assert (Hl1 : heap σ1 !! l = Some (Own d))
    by (unfold σ1; cbn [heap]; now apply lookup_app_l_Some).
  destruct (render_analysis_report σ1 l d N2 Hg1 Hl1 Hd) as (objs2 & s2 & Hs2 & Hrun2).
  destruct (render_analysis_report σ l d N2 Hg Hl Hd) as (objs & s & Hs & Hrun).
  destruct (outputs_has_fields N2 d Hd) as (s' & Hs' & Hout).
  assert (s2 = s') by congruence. assert (s = s') by congruence. subst s2 s.
  eexists _, _. split; [exact Hrun1|]. split; [exact Hrun2|]. cbn [console rng].
  split; [now rewrite Hout|]. split.
  - unfold shown_by. now rewrite Hrun.
  - split; [reflexivity|]. split; [reflexivity|].
    unfold the_table; cbn [df_all heap]. rewrite Hg1.
    apply resolve_own. apply lookup_app_l_Some. exact Hl1.
Qed.

(** On the generated table: 74 rows, then 20. *)
Lemma render_analysis_replaces_output_witness :
  exists σ1 σ2,
    render_analysis 74 Demo.loaded = Some (tt, σ1) /\
    render_analysis 20 σ1 = Some (tt, σ2) /\
    Some (console σ2) = Pipeline.outputs 20 Demo.table /\
    shown_by (render_analysis 20) Demo.loaded = Some (console σ2) /\
    length (console σ2) = 6%nat /\
    rng σ2 = rng Demo.loaded /\
    the_table σ2 = Some Demo.table.
Proof.
  apply (render_analysis_replaces_output Z Demo.loaded 0%nat Demo.table 74 20).
  - reflexivity.
  - reflexivity.
  - apply dataset_has_fields.
Defined.

(** ** The narrative and the tables *)

(** X5. The narrative quotes the tables shown below it: the three means
    are the cells of the column [mean] of the summary table for the three
    fields, and the coefficient of each of the three pairs listed is the
    cell of the correlation table for its two fields, in either order. *)
Theorem narrative_quotes_tables :
  forall (rng_state : Type) (σ : @state rng_state) (l : loc) (d : DataFrame) (N : Z),
    df_all σ = Some l -> heap σ !! l = Some (Own d) -> has_fields d ->
    exists objs lead inventory delivery top c s,
      render_analysis N σ =
        Some (tt, mkState (rng σ) (heap σ ++ objs) (df_all σ)
                    [Markdown (narrative N lead inventory delivery ++ triple_lines top);
                     Markdown [Text "**Correlation matrix:**"];
                     Table c;
                     Heatmap (heatmap_title N) c (-1) 1;
                     Markdown [Text "**Summary statistics (selected subset):**"];
                     Table s]) /\
      loc_cell (LStr "Supplier_Lead_Time") (LStr "mean") s = Some lead /\
      loc_cell (LStr "Inventory_Levels") (LStr "mean") s = Some inventory /\
      loc_cell (LStr "Delivery_Performance") (LStr "mean") s = Some delivery /\
      length top = 3%nat /\
      (forall t, In t top ->
         exists a b, In a field_names /\ In b field_names /\
                     pair_names t = (LStr a, LStr b) /\
                     cell c a b = Some (VNum t.2) /\ cell c b a = Some (VNum t.2)).
Proof.
  intros R σ l d N Hg Hl Hd.
  destruct (render_analysis_report σ l d N Hg Hl Hd) as (objs & s & Hs & Hrun).
  pose proof (subset_has_fields N d Hd) as Hcur.
  set (cur := Pipeline.subset N d) in *.
  exists objs, (shown_mean cur "Supplier_Lead_Time"), (shown_mean cur "Inventory_Levels"),
    (shown_mean cur "Delivery_Performance"), (top3 (Pipeline.correlation cur)),
    (Pipeline.correlation cur), s.
  split; [exact Hrun|].
  assert (Hmeans :
    loc_cell (LStr "Supplier_Lead_Time") (LStr "mean") s
      = Some (shown_mean cur "Supplier_Lead_Time") /\
    loc_cell (LStr "Inventory_Levels") (LStr "mean") s
      = Some (shown_mean cur "Inventory_Levels") /\
    loc_cell (LStr "Delivery_Performance") (LStr "mean") s
      = Some (shown_mean cur "Delivery_Performance")).
  { clear Hrun. revert Hs. generalize cur Hcur. clear. intros cur Hcur Hs.
    destruct Hcur as (ix & c1 & c2 & c3 & c4 & c5 & ->).
    destruct (summary_has_fields ix c1 c2 c3 c4 c5) as (s' & Es & L1 & L2 & L3).
    assert (E : s = s') by congruence. rewrite E.
    split; [exact L1|]. split; [exact L2|exact L3]. }
  destruct Hmeans as (L1 & L2 & L3).
  split; [exact L1|]. split; [exact L2|]. split; [exact L3|]. split.
  - rewrite top3_length, (candidates_ten cur Hcur). reflexivity.
  - intros t Ht. exact (top3_cells cur t Hcur Ht).
Qed.

(** On the generated table, with 20 rows asked. *)
Lemma narrative_quotes_tables_witness :
  let σ := Demo.loaded in
  let N := 20 in
  exists objs lead inventory delivery top c s,
    render_analysis N σ =
      Some (tt, mkState (rng σ) (heap σ ++ objs) (df_all σ)
                  [Markdown (narrative N lead inventory delivery ++ triple_lines top);
                   Markdown [Text "**Correlation matrix:**"];
                   Table c;
                   Heatmap (heatmap_title N) c (-1) 1;
                   Markdown [Text "**Summary statistics (selected subset):**"];
                   Table s]) /\
    loc_cell (LStr "Supplier_Lead_Time") (LStr "mean") s = Some lead /\
    loc_cell (LStr "Inventory_Levels") (LStr "mean") s = Some inventory /\
    loc_cell (LStr "Delivery_Performance") (LStr "mean") s = Some delivery /\
    length top = 3%nat /\
    (forall t, In t top ->
       exists a b, In a field_names /\ In b field_names /\
                   pair_names t = (LStr a, LStr b) /\
                   cell c a b = Some (VNum t.2) /\ cell c b a = Some (VNum t.2)).
Proof.
  apply (narrative_quotes_tables Z Demo.loaded 0%nat Demo.table 20).
  - reflexivity.
  - reflexivity.
  - apply dataset_has_fields.
Defined.

(** ** The summary table *)

(** X6. On a subset of finite numbers (no value missing), the summary
    table shown has one row per field, in the order of the table's
    columns, and the five columns mean, std, min, 50% and max in this
    order; each cell is the statistic of the field over the subset,
    rounded to two decimals; count and the quartiles 25% and 75% of
    [describe] are not in it. *)
Theorem summary_table_shape :
  forall (rng_state : Type) (σ : @state rng_state) (l : loc) (d : DataFrame) (N : Z)
         (a : string),
    df_all σ = Some l -> heap σ !! l = Some (Own d) -> has_fields d ->
    In a field_names ->
    let cur := Pipeline.subset N d in
    table_finite cur = true ->
    exists σ' s,
      render_analysis N σ = Some (tt, σ') /\
      console σ' !! 5%nat = Some (Table s) /\
      index s = map LStr field_names /\
      columns s = [LStr "mean"; LStr "std"; LStr "min"; LStr "50%"; LStr "max"] /\
      loc_cell (LStr a) (LStr "mean") s
        = Some (VNum (Np.round 2 (Describe.mean (field cur a)))) /\
      loc_cell (LStr a) (LStr "std") s
        = Some (VNum (Np.round 2 (Describe.std (field cur a)))) /\
      loc_cell (LStr a) (LStr "min") s
        = Some (VNum (Np.round 2 (Describe.min (field cur a)))) /\
      loc_cell (LStr a) (LStr "50%") s
        = Some (VNum (Np.round 2 (Describe.quartile 2 (field cur a)))) /\
      loc_cell (LStr a) (LStr "max") s
        = Some (VNum (Np.round 2 (Describe.max (field cur a)))) /\
      loc_cell (LStr a) (LStr "count") s = None /\
      loc_cell (LStr a) (LStr "25%") s = None /\
      loc_cell (LStr a) (LStr "75%") s = None.
Proof.
  intros R σ l d N a Hg Hl Hd Ha cur _.
  destruct (render_analysis_report σ l d N Hg Hl Hd) as (objs & s & Hs & Hrun).
  pose proof (subset_has_fields N d Hd) as Hcur. fold cur in Hs, Hrun, Hcur.
  destruct Hcur as (ix & c1 & c2 & c3 & c4 & c5 & E).
  destruct (summary_cells ix c1 c2 c3 c4 c5 a Ha) as (s' & Es & Hshape). cbv zeta in Hshape.
  rewrite <- E in Es, Hshape. assert (s' = s) by congruence. subst s'.
  eexists _, s. split; [exact Hrun|]. split; [reflexivity|]. exact Hshape.
Qed.

(** On the generated table, with 20 rows asked, for Cost_Per_Unit. *)
Lemma summary_table_shape_witness :
  let σ := Demo.loaded in
  let a := "Cost_Per_Unit"%string in
  let cur := Pipeline.subset 20 Demo.table in
  exists σ' s,
    render_analysis 20 σ = Some (tt, σ') /\
    console σ' !! 5%nat = Some (Table s) /\
    index s = map LStr field_names /\
    columns s = [LStr "mean"; LStr "std"; LStr "min"; LStr "50%"; LStr "max"] /\
    loc_cell (LStr a) (LStr "mean") s
      = Some (VNum (Np.round 2 (Describe.mean (field cur a)))) /\
    loc_cell (LStr a) (LStr "std") s
      = Some (VNum (Np.round 2 (Describe.std (field cur a)))) /\
    loc_cell (LStr a) (LStr "min") s
      = Some (VNum (Np.round 2 (Describe.min (field cur a)))) /\
    loc_cell (LStr a) (LStr "50%") s
      = Some (VNum (Np.round 2 (Describe.quartile 2 (field cur a)))) /\
    loc_cell (LStr a) (LStr "max") s
      = Some (VNum (Np.round 2 (Describe.max (field cur a)))) /\
    loc_cell (LStr a) (LStr "count") s = None /\
    loc_cell (LStr a) (LStr "25%") s = None /\
    loc_cell (LStr a) (LStr "75%") s = None.
Proof.
  apply (summary_table_shape Z Demo.loaded 0%nat Demo.table 20 "Cost_Per_Unit").
  - reflexivity.
  - reflexivity.
  - apply dataset_has_fields.
  - simpl. tauto.
  - vm_compute. reflexivity.
Defined.

(** ** The table, draw by draw *)

(** X7. CELL 1 fills the table column by column from one stream of
    standard normal draws started by the seed 42: record [i] of the
    column number [c] (from 0, in the order of the dictionary) is made
    from the draw number [74 c + i], scaled, shifted and clamped; 370
    draws are taken in all, from any state the cell is run in. *)
Theorem dataset_cells_from_draws :
  forall (rng_state : Type) (init_by_seed : Z -> rng_state)
         (legacy_gauss : rng_state -> float * rng_state) (σ : @state rng_state),
    exists σ' d,
      cell1 init_by_seed legacy_gauss σ = Some (tt, σ') /\
      the_table σ' = Some d /\
      rng σ' = after_draws legacy_gauss 370 (init_by_seed 42) /\
      forall i, (i < 74)%nat ->
        let g := fun c => draw_number init_by_seed legacy_gauss (c * 74 + i) in
        nth i (field d "Supplier_Lead_Time") nan = Np.maximum (12 + 5 * g 0%nat) 1 /\
        nth i (field d "Inventory_Levels") nan = Np.maximum (300 + 90 * g 1%nat) 0 /\
        nth i (field d "Order_Frequency") nan = Np.maximum (6 + 2.5 * g 2%nat) 0.5 /\
        nth i (field d "Delivery_Performance") nan = Np.npy_clip (85 + 8 * g 3%nat) 40 100 /\
        nth i (field d "Cost_Per_Unit") nan = Np.maximum (28 + 7 * g 4%nat) 1.
Proof.
  intros R init gauss σ.
  eexists _, (dataset init gauss). split; [apply cell1_run|].
  destruct (column_states init gauss) as (E1 & E2 & E3 & E4 & E5). cbv zeta in *.
  split; [|split].
  - unfold the_table; cbn [df_all heap]. apply resolve_own, lookup_first_new.
  - cbn [rng]. exact E5.
  - intros i Hi. unfold dataset.
    match goal with
    | |- context [supply_table ?ix ?c1 ?c2 ?c3 ?c4 ?c5] =>
        destruct (supply_table_fields ix c1 c2 c3 c4 c5) as (F1 & F2 & F3 & F4 & F5)
    end.
    cbv zeta in *. rewrite F1, F2, F3, F4, F5. clear F1 F2 F3 F4 F5.
    rewrite E1, E2, E3, E4.
    change (g0 init) with (after_draws gauss (0 * n_rows) (init RND)).
    rewrite !(drawn_value init gauss) by (unfold n_rows; lia).
    unfold n_rows. repeat split; reflexivity.
Qed.

(** ** When the callback raises *)

(** X8. The callback needs the three fields it quotes: bound to a table
    without a float column named Supplier_Lead_Time, Inventory_Levels or
    Delivery_Performance, [render_analysis] raises, before its first
    display, although [get_recent_df] itself returns the subset of that
    table. *)
Theorem render_analysis_needs_quoted_fields :
  forall (rng_state : Type) (σ : @state rng_state) (l : loc) (d : DataFrame) (N : Z)
         (name : string),
    df_all σ = Some l -> heap σ !! l = Some (Own d) ->
    In name quoted_fields ->
    position (LStr name) (map fst (numeric_data d)) = None ->
    render_analysis N σ = None /\
    exists r σ', get_recent_df N σ = Some (r, σ') /\
                 heap σ' !! r = Some (Own (Pipeline.subset N d)).
Proof.
  intros R σ l d N name Hg Hl Hname Hpos. split.
  - pose proof (render_analysis_run σ l d N Hg Hl) as Hrun.
    now rewrite (outputs_missing_field N d name Hname Hpos) in Hrun.
  - destruct (get_recent_df_subset σ l d N Hg Hl) as [v Hrun].
    eexists _, _. split; [exact Hrun|]. apply lookup_second_new.
Qed.

(** On a table with the two fields cost and delay. *)
Lemma render_analysis_needs_quoted_fields_witness :
  let σ := Examples.process Examples.two_fields in
  render_analysis 5 σ = None /\
  exists r σ', get_recent_df 5 σ = Some (r, σ') /\
               heap σ' !! r = Some (Own (Pipeline.subset 5 Examples.two_fields)).
Proof.
  apply (render_analysis_needs_quoted_fields unit (Examples.process Examples.two_fields)
           0%nat Examples.two_fields 5 "Inventory_Levels").
  - reflexivity.
  - reflexivity.
  - simpl. tauto.
  - reflexivity.
Defined.

(** ** The slider *)

(** X9. On a table of five records or more, CELL 2 makes a slider from
    5 to the number of records of the table, at 20 or, on a shorter
    table, at that number (the widget caps the value), and shows at once
    what the callback shows for the slider's value.  For every value
    between the slider's bounds, the first included, the callback
    analyses exactly that many records: through the slider, the count in
    the heading is the count of records behind the statistics. *)
Theorem slider_values_are_exact :
  forall (rng_state : Type) (σ : @state rng_state) (l : loc) (d : DataFrame),
    df_all σ = Some l -> heap σ !! l = Some (Own d) -> has_fields d ->
    (5 <= len d)%nat ->
    exists s σ',
      cell2 σ = Some (s, σ') /\
      s = mkSlider (Z.min 20 (Z.of_nat (len d))) 5 (Z.of_nat (len d)) 1 /\
      slider_min s <= slider_value s <= slider_max s /\
      shown_by (render_analysis (slider_value s)) σ = Some (console σ') /\
      the_table σ' = Some d /\
      forall v, slider_min s <= v <= slider_max s ->
        let cur := Pipeline.subset v d in
        let c := Pipeline.correlation cur in
        Z.of_nat (length (records cur)) = v /\
        exists σ'' summary,
          render_analysis v σ' = Some (tt, σ'') /\
          console σ'' = report v (shown_mean cur "Supplier_Lead_Time")
                                 (shown_mean cur "Inventory_Levels")
                                 (shown_mean cur "Delivery_Performance") (top3 c) c summary.
Proof.
  intros R σ l d Hg Hl Hd Hlen.
  set (v0 := Z.min 20 (Z.of_nat (len d))).
  destruct (render_analysis_report σ l d v0 Hg Hl Hd) as (objs & s0 & _ & Hrun).
  pose proof (cell2_run σ l d Hg Hl Hlen) as Hc. cbv zeta in Hc. fold v0 in Hc.
  rewrite Hrun in Hc.
  eexists _, _. split; [exact Hc|]. split; [reflexivity|].
  assert (Hl' : (heap σ ++ objs) !! l = Some (Own d)) by now apply lookup_app_l_Some.
  split; [cbn [slider_min slider_max slider_value]; unfold v0; lia|]. split; [|split].
  - unfold shown_by. cbn [slider_value]. now rewrite Hrun.
  - unfold the_table; cbn [df_all heap]. rewrite Hg. now apply resolve_own.
  - intros v Hv cur c. cbn [slider_min slider_max] in Hv. split.
    + unfold cur. rewrite length_records, subset_len_any. unfold kept. lia.
    + match goal with
      | |- context [render_analysis v ?st] =>
          destruct (render_analysis_report st l d v Hg Hl' Hd) as (objs' & s' & _ & Hrun')
      end.
      eexists _, s'. split; [exact Hrun'|]. reflexivity.
Qed.

(** On the last ten records of the generated table: the slider goes
    from 5 to 10, at 10. *)
Lemma slider_values_are_exact_witness :
  let d := Pipeline.subset 10 Demo.table in
  let σ := Examples.process d in
  exists s σ',
    cell2 σ = Some (s, σ') /\
    s = mkSlider (Z.min 20 (Z.of_nat (len d))) 5 (Z.of_nat (len d)) 1 /\
    slider_min s <= slider_value s <= slider_max s /\
    shown_by (render_analysis (slider_value s)) σ = Some (console σ') /\
    the_table σ' = Some d /\
    forall v, slider_min s <= v <= slider_max s ->
      let cur := Pipeline.subset v d in
      let c := Pipeline.correlation cur in
      Z.of_nat (length (records cur)) = v /\
      exists σ'' summary,
        render_analysis v σ' = Some (tt, σ'') /\
        console σ'' = report v (shown_mean cur "Supplier_Lead_Time")
                               (shown_mean cur "Inventory_Levels")
                               (shown_mean cur "Delivery_Performance") (top3 c) c summary.
Proof.
  apply (slider_values_are_exact unit (Examples.process (Pipeline.subset 10 Demo.table))
           0%nat (Pipeline.subset 10 Demo.table)).
  - reflexivity.
  - reflexivity.
  - apply subset_has_fields, dataset_has_fields.
  - vm_compute. lia.
Defined.

(** ** The cells in order *)

(** X10. CELL 2 needs CELL 1: while [df_all] is unbound the selector,
    the callback and the creation of the slider all raise; CELL 1 then
    CELL 2 returns a slider from 5 to 74 at 20 and shows six outputs. *)
Theorem cell2_needs_cell1 :
  forall (rng_state : Type) (init_by_seed : Z -> rng_state)
         (legacy_gauss : rng_state -> float * rng_state) (σ : @state rng_state) (N : Z),
    df_all σ = None ->
    get_recent_df N σ = None /\
    render_analysis N σ = None /\
    cell2 σ = None /\
    exists σ',
      (_ ← cell1 init_by_seed legacy_gauss; cell2) σ = Some (mkSlider 20 5 74 1, σ') /\
      length (console σ') = 6%nat /\
      the_table σ' = Some (dataset init_by_seed legacy_gauss).
Proof.
  intros R init gauss σ N Hg.
  destruct (unbound_raises σ N Hg) as (H1 & H2 & H3).
  split; [exact H1|]. split; [exact H2|]. split; [exact H3|].
  rewrite bind_run, cell1_run.
  match goal with
  | |- context [cell2 ?st] => set (σ1 := st)
  end.
  assert (Hg1 : df_all σ1 = Some (length (heap σ))) by reflexivity.
  assert (Hl1 : heap σ1 !! length (heap σ) = Some (Own (dataset init gauss)))
    by apply lookup_first_new.
  pose proof (dataset_has_fields init gauss) as Hd.
  destruct (render_analysis_report σ1 _ _ 20 Hg1 Hl1 Hd) as (objs & s0 & _ & Hrun).
  assert (Hfive : (5 <= len (dataset init gauss))%nat) by (rewrite dataset_len; lia).
  pose proof (cell2_run σ1 _ _ Hg1 Hl1 Hfive) as Hc. cbv zeta in Hc.
  rewrite dataset_len in Hc. change (Z.min 20 (Z.of_nat 74)) with 20 in Hc.
  rewrite Hrun in Hc. rewrite Hc.
  eexists. split; [reflexivity|]. cbn [console df_all heap]. split; [reflexivity|].
  unfold the_table; cbn [df_all heap]. rewrite Hg1.
  apply resolve_own. now apply lookup_app_l_Some.
Qed.

(** From a fresh process, with the concrete generator. *)
Lemma cell2_needs_cell1_witness :
  get_recent_df 20 Demo.fresh = None /\
  render_analysis 20 Demo.fresh = None /\
  cell2 Demo.fresh = None /\
  exists σ',
    (_ ← cell1 Demo.seed Demo.gauss; cell2) Demo.fresh = Some (mkSlider 20 5 74 1, σ') /\
    length (console σ') = 6%nat /\
    the_table σ' = Some (dataset Demo.seed Demo.gauss).
Proof.
  apply (cell2_needs_cell1 Z Demo.seed Demo.gauss Demo.fresh 20).
  reflexivity.
Defined.

(** ** A table shorter than the minimum *)

(** X11. The minimum of two records cannot be met on a table of one
    record or none: the selector returns what there is and the callback
    still returns.  Every standard deviation of the summary and every
    cell of the correlation matrix is then NaN, and the three pairs
    listed are the first three of the enumeration, each with NaN. *)
Theorem short_table_shows_nan :
  forall (rng_state : Type) (σ : @state rng_state) (l : loc) (d : DataFrame) (N : Z),
    df_all σ = Some l -> heap σ !! l = Some (Own d) ->
    has_fields d -> well_formed d -> (len d <= 1)%nat ->
    let cur := Pipeline.subset N d in
    let c := Pipeline.correlation cur in
    records cur = records d /\
    (exists objs s,
       render_analysis N σ =
         Some (tt, mkState (rng σ) (heap σ ++ objs) (df_all σ)
                     (report N (shown_mean cur "Supplier_Lead_Time")
                               (shown_mean cur "Inventory_Levels")
                               (shown_mean cur "Delivery_Performance") (top3 c) c s)) /\
       forall a, In a field_names -> loc_cell (LStr a) (LStr "std") s = Some (VNum nan)) /\
    (forall a b, In a field_names -> In b field_names -> cell c a b = Some (VNum nan)) /\
    top3 c = [(LStr "Inventory_Levels", LStr "Supplier_Lead_Time", nan);
              (LStr "Inventory_Levels", LStr "Order_Frequency", nan);
              (LStr "Order_Frequency", LStr "Supplier_Lead_Time", nan)].
Proof.
  intros R σ l d N Hg Hl Hd Hwf Hlen cur c.
  pose proof (subset_has_fields N d Hd) as Hcur. fold cur in Hcur.
  pose proof (subset_well_formed N d Hwf) as Hwcur. fold cur in Hwcur.
  assert (Hk : kept N (len d) = len d) by (unfold kept; lia).
  assert (Hlcur : (len cur <= 1)%nat) by (unfold cur; rewrite subset_len_any; lia).
  split; [|split; [|split]].
  - unfold cur. rewrite subset_records_any, Hk, Nat.sub_diag. reflexivity.
  - destruct (render_analysis_report σ l d N Hg Hl Hd) as (objs & s & Hs & Hrun).
    exists objs, s. split; [exact Hrun|].
    fold cur in Hs. intros a Ha.
    pose proof (field_length cur a Hcur Hwcur Ha) as La.
    revert Hs La. generalize cur Hcur Hlcur. clear - Ha. intros cur Hcur Hlcur Hs La.
    destruct Hcur as (ix & c1 & c2 & c3 & c4 & c5 & ->).
    destruct (summary_cells ix c1 c2 c3 c4 c5 a Ha) as (s' & Hs' & _ & _ & _ & Hstd & _).
    assert (s' = s) by congruence. subst s'.
    rewrite Hstd, std_few by lia. reflexivity.
  - intros a b Ha Hb. exact (correlation_few cur a b Hcur Hwcur Hlcur Ha Hb).
  - exact (top3_few cur Hcur Hwcur Hlcur).
Qed.

(** On a table of one record, asked for 20. *)
Lemma short_table_shows_nan_witness :
  let σ := Examples.process single_record in
  let cur := Pipeline.subset 20 single_record in
  let c := Pipeline.correlation cur in
  records cur = records single_record /\
  (exists objs s,
     render_analysis 20 σ =
       Some (tt, mkState (rng σ) (heap σ ++ objs) (df_all σ)
                   (report 20 (shown_mean cur "Supplier_Lead_Time")
                              (shown_mean cur "Inventory_Levels")
                              (shown_mean cur "Delivery_Performance") (top3 c) c s)) /\
     forall a, In a field_names -> loc_cell (LStr a) (LStr "std") s = Some (VNum nan)) /\
  (forall a b, In a field_names -> In b field_names -> cell c a b = Some (VNum nan)) /\
  top3 c = [(LStr "Inventory_Levels", LStr "Supplier_Lead_Time", nan);
            (LStr "Inventory_Levels", LStr "Order_Frequency", nan);
            (LStr "Order_Frequency", LStr "Supplier_Lead_Time", nan)].
Proof.
  apply (short_table_shows_nan unit (Examples.process single_record) 0%nat single_record 20).
  - reflexivity.
  - reflexivity.
  - unfold single_record. repeat eexists.
  - repeat constructor.
  - vm_compute. lia.
Defined.
